(** * LabCodes / Single_Mutation: the FoldX mutation-scan pipeline

    A shallow embedding of [Single_Mutation/single_mutation.py] and the
    properties of its five steps (repair, mutation list, model building and
    renaming, stability with retries, DDG ranking).

    Conventions of the embedding.
    - A Python [str] is a [string]; its characters are code points below 256.
    - The file system is a finite map from path to content.
    - Every function that touches the outside world is a computation in the
      monad [M]: it takes a [world], returns a new one, and either returns a
      value or raises an exception.  What was done is recorded in the
      world's [trace].
    - The FoldX binary and what [subprocess.run] does when it cannot run
      it, [glob.glob], argparse, Python's [float()], the rounding of float
      arithmetic and the [tabulate] package are not part of the repository:
      they are fields of the class [Platform], and every theorem holds for
      every platform.
    - A Python [float] is a finite rational number, an infinity or NaN.
      The difference of two finite numbers is the exact difference rounded
      by the platform.  The sign of zero is not kept: [0.0] and [-0.0] are
      one number, as they are for [==] and [<].
    - Failures of the operating system other than a missing file and a tool
      that cannot be run (a full disk, an unreadable file) and signals such
      as [KeyboardInterrupt] are outside the model. *)

From Stdlib Require Import ZArith QArith List String Ascii Lia Permutation Sorted.
From stdpp Require Import gmap strings pretty.

Open Scope string_scope.
Open Scope nat_scope.

(** ** Python text primitives *)

Module Text.

Definition LF : ascii := ascii_of_nat 10.
Definition CR : ascii := ascii_of_nat 13.
Definition nl : string := String LF "".

(** [str.isspace] on one character (code points below 256). *)
Definition is_space (c : ascii) : bool :=
  let n := nat_of_ascii c in
  ((9 <=? n) && (n <=? 13)) || ((28 <=? n) && (n <=? 32))
  || (n =? 133) || (n =? 160).

Definition is_digit (c : ascii) : bool :=
  let n := nat_of_ascii c in (48 <=? n) && (n <=? 57).

(** The regular-expression class [[A-Z]]. *)
Definition is_upper (c : ascii) : bool :=
  let n := nat_of_ascii c in (65 <=? n) && (n <=? 90).

(** [str.isalpha] on one character (code points below 256). *)
Definition is_alpha (c : ascii) : bool :=
  let n := nat_of_ascii c in
  ((65 <=? n) && (n <=? 90)) || ((97 <=? n) && (n <=? 122))
  || (n =? 170) || (n =? 181) || (n =? 186)
  || ((192 <=? n) && (n <=? 214)) || ((216 <=? n) && (n <=? 246))
  || (248 <=? n).

Fixpoint lstrip_by (p : ascii -> bool) (s : string) : string :=
  match s with
  | "" => ""
  | String c s' => if p c then lstrip_by p s' else s
  end.

Fixpoint rstrip_by (p : ascii -> bool) (s : string) : string :=
  match s with
  | "" => ""
  | String c s' =>
      match rstrip_by p s' with
      | "" => if p c then "" else String c ""
      | r => String c r
      end
  end.

(** [s.strip()] *)
Definition strip (s : string) : string := rstrip_by is_space (lstrip_by is_space s).

(** [s.rstrip(';')] *)
Definition rstrip_semicolon (s : string) : string :=
  rstrip_by (Ascii.eqb ";") s.

(** [s.split()]: the maximal runs of non-whitespace characters. *)
Fixpoint split_ws (s : string) : list string :=
  match s with
  | "" => []
  | String c s' =>
      if is_space c then split_ws s'
      else match s' with
           | "" => [String c ""]
           | String c' _ =>
               if is_space c' then String c "" :: split_ws s'
               else match split_ws s' with
                    | w :: ws => String c w :: ws
                    | [] => [String c ""]
                    end
           end
  end.

(** Reading in text mode translates "\r\n" and a lone "\r" to "\n". *)
Fixpoint universal_newlines (after_cr : bool) (s : string) : string :=
  match s with
  | "" => ""
  | String c s' =>
      if Ascii.eqb c CR then String LF (universal_newlines true s')
      else if Ascii.eqb c LF then
        if after_cr then universal_newlines false s'
        else String LF (universal_newlines false s')
      else String c (universal_newlines false s')
  end.

(** The lines of a text, each with its terminating "\n" (the last one may
    have none), as [for line in f] yields them. *)
Fixpoint split_lines (s : string) : list string :=
  match s with
  | "" => []
  | String c s' =>
      if Ascii.eqb c LF then nl :: split_lines s'
      else match split_lines s' with
           | l :: ls => String c l :: ls
           | [] => [String c ""]
           end
  end.

Definition read_lines (content : string) : list string :=
  split_lines (universal_newlines false content).

(** [file.writelines(lines)] writes the lines one after the other. *)
Fixpoint join_lines (ls : list string) : string :=
  match ls with
  | [] => ""
  | l :: ls' => l +:+ join_lines ls'
  end.

(** [s.endswith(suf)] *)
Definition endswith (s suf : string) : bool :=
  let n := String.length s in
  let m := String.length suf in
  (m <=? n) && String.eqb (String.substring (n - m) m s) suf.

(** [int(s)] on a run of decimal digits. *)
Fixpoint int_of_digits_acc (acc : N) (s : string) : N :=
  match s with
  | "" => acc
  | String c s' =>
      int_of_digits_acc (10 * acc + N.of_nat (nat_of_ascii c - 48)) s'
  end.

Definition int_of_digits (s : string) : N := int_of_digits_acc 0 s.

(** The longest prefix of [s] made of characters satisfying [p], and the rest. *)
Fixpoint span (p : ascii -> bool) (s : string) : string * string :=
  match s with
  | "" => ("", "")
  | String c s' =>
      if p c then let '(a, b) := span p s' in (String c a, b) else ("", s)
  end.

Fixpoint rev_onto (acc s : string) : string :=
  match s with
  | "" => acc
  | String c s' => rev_onto (String c acc) s'
  end.

Definition rev (s : string) : string := rev_onto "" s.

(** ["sep".join(parts)] *)
Fixpoint join (sep : string) (parts : list string) : string :=
  match parts with
  | [] => ""
  | [p] => p
  | p :: ps => p +:+ sep +:+ join sep ps
  end.

(** ["c" * n] *)
Fixpoint repeat_char (c : ascii) (n : nat) : string :=
  match n with
  | O => ""
  | S n' => String c (repeat_char c n')
  end.

(** [all(p(c) for c in s)] and [any(p(c) for c in s)] *)
Fixpoint string_forall (p : ascii -> bool) (s : string) : bool :=
  match s with
  | "" => true
  | String c s' => p c && string_forall p s'
  end.

Fixpoint string_exists (p : ascii -> bool) (s : string) : bool :=
  match s with
  | "" => false
  | String c s' => p c || string_exists p s'
  end.

End Text.

Import Text.

(** ** The outside world *)

(** What [subprocess.run] reports about a finished process. *)
Record completed := Completed {
  returncode : Z;
  stdout : string;
  stderr : string
}.

(** The exceptions of the script.  [OSError] stands for an [OSError] that
    is not a [FileNotFoundError], such as [PermissionError]; [ValueError]
    includes its subclasses, such as [UnicodeDecodeError]. *)
Inductive exn :=
| FileNotFoundError (msg : string)
| ValueError (msg : string)
| SystemExit (code : Z)
| OSError (msg : string).

(** [except Exception] does not catch [SystemExit]. *)
Definition is_Exception (e : exn) : bool :=
  match e with
  | SystemExit _ => false
  | _ => true
  end.

(** A Python [float]: a finite number, an infinity or NaN.  The two zeros
    are one number here, as they are for [==] and [<]. *)
Inductive float :=
| Finite (q : Q)
| Infinity (negative : bool)
| NaN.

(** [-x] *)
Definition float_neg (x : float) : float :=
  match x with
  | Finite q => Finite (- q)
  | Infinity negative => Infinity (negb negative)
  | NaN => NaN
  end.

(** [<] on rational numbers. *)
Definition Qltb (x y : Q) : bool :=
  match Qcompare x y with
  | Lt => true
  | _ => false
  end.

(** [x < y]: false whenever one of the two is NaN. *)
Definition float_ltb (x y : float) : bool :=
  match x, y with
  | NaN, _ | _, NaN => false
  | Finite a, Finite b => Qltb a b
  | Finite _, Infinity negative => negb negative
  | Infinity negative, Finite _ => negative
  | Infinity negative, Infinity negative' => negative && negb negative'
  end.

(** What [parser.parse_args()] makes of the command line: the values of
    [--pdb_file] and [--residues], or a message and an exit status. *)
Inductive parsed_args :=
| Parsed (pdb_file : string) (residues : list string)
| Usage (status : Z) (message : string).

(** The parts of the environment that are not code of the repository.
    - [foldx cmd k fs]: the outcome of the [k]-th external invocation of the
      run, with command line [cmd], on file system [fs]: what the process
      reports and the file system it leaves.  Indexing by [k] lets the same
      command fail once and succeed later, as the stability step expects.
    - [run_error cmd k fs]: the exception that [subprocess.run] raises in
      that invocation, other than [CalledProcessError]: [FileNotFoundError]
      when there is no [foldx] on the path, another [OSError] when it cannot
      be executed, [UnicodeDecodeError] when its output is not text; [None]
      when the process ran and its output was captured.
    - [glob pat fs]: the result of [glob.glob(pat)]: paths that exist, each
      listed once, in the order of the directory listing.
    - [float_of_string s]: [float(s)], [None] when it raises [ValueError].
    - [round q]: the float nearest to the real number [q], an infinity when
      [q] is out of range; rounding is symmetric around zero.
    - [tabulate_plain rows headers]: [tabulate(rows, headers=headers,
      tablefmt="plain")].
    - [format_4f x]: the text of [f"{x:.4f}"].
    - [parse_args argv]: [parser.parse_args()] for the two options of the
      script, on [sys.argv[1:]]; on [-h] argparse prints the help and exits
      with status 0, on any other failure the usage and exits with 2. *)
Class Platform := {
  foldx : list string -> nat -> gmap string string -> completed * gmap string string;
  run_error : list string -> nat -> gmap string string -> option exn;
  run_error_Exception :
    forall cmd k fs e, run_error cmd k fs = Some e -> is_Exception e = true;
  glob : string -> gmap string string -> list string;
  glob_NoDup : forall pat fs, List.NoDup (glob pat fs);
  glob_exists : forall pat fs path, In path (glob pat fs) -> is_Some (fs !! path);
  float_of_string : string -> option float;
  round : Q -> float;
  round_proper : forall q q', (q == q')%Q -> round q = round q';
  round_opp : forall q, round (- q) = float_neg (round q);
  tabulate_plain : list (list string) -> list string -> string;
  format_4f : float -> string;
  parse_args : list string -> parsed_args;
  parse_args_status :
    forall argv status message,
      parse_args argv = Usage status message -> status = 0%Z \/ status = 2%Z
}.

(** Observable actions, in the order they happen. *)
Inductive event :=
| ConsoleLog (msg : string)              (* console.log *)
| ConsolePrint (msg : string)            (* console.print *)
| Print (msg : string)                   (* print *)
| Exec (cmd : list string) (rc : Z)      (* subprocess.run and its exit status *)
| ExecRaised (cmd : list string) (e : exn) (* subprocess.run that raised *)
| Rename (src dst : string)              (* os.rename *)
| Sleep (seconds : nat)                  (* time.sleep *)
| ArgparseMessage (msg : string).        (* help or usage of argparse *)

Record world := World {
  files : gmap string string;   (* path -> content *)
  runs : nat;                   (* external invocations made so far *)
  trace : list event
}.

(** [str(e)] *)
Definition exn_message (e : exn) : string :=
  match e with
  | FileNotFoundError msg => msg
  | ValueError msg => msg
  | SystemExit code => pretty code
  | OSError msg => msg
  end.

Inductive res (A : Type) :=
| Ret (a : A)
| Raise (e : exn).
Arguments Ret {A} a.
Arguments Raise {A} e.

(** Computations: the world is threaded through, and what was done before
    an exception stays done. *)
Definition M (A : Type) : Type := world -> res A * world.

Definition ret {A} (a : A) : M A := fun w => (Ret a, w).

Definition raise {A} (e : exn) : M A := fun w => (Raise e, w).

Definition bind {A B} (c : M A) (k : A -> M B) : M B :=
  fun w =>
    match c w with
    | (Ret a, w') => k a w'
    | (Raise e, w') => (Raise e, w')
    end.

Notation "x <- c1 ;; c2" := (bind c1 (fun x => c2))
  (at level 100, c1 at next level, right associativity).
Notation "c1 ;; c2" := (bind c1 (fun _ => c2))
  (at level 100, right associativity).

(** [try: c except Exception as e: h e] *)
Definition try_except {A} (c : M A) (h : exn -> M A) : M A :=
  fun w =>
    match c w with
    | (Ret a, w') => (Ret a, w')
    | (Raise e, w') => if is_Exception e then h e w' else (Raise e, w')
    end.

(** [for x in xs: body x] *)
Fixpoint for_each {A} (xs : list A) (body : A -> M unit) : M unit :=
  match xs with
  | [] => ret tt
  | x :: xs' => body x ;; for_each xs' body
  end.

(** A loop that updates a local variable [acc]. *)
Fixpoint for_fold {A S} (xs : list A) (acc : S) (body : S -> A -> M S) : M S :=
  match xs with
  | [] => ret acc
  | x :: xs' => acc' <- body acc x ;; for_fold xs' acc' body
  end.

Definition emit (e : event) : M unit :=
  fun w => (Ret tt, World (files w) (runs w) (trace w ++ [e])).

Definition console_log (msg : string) : M unit := emit (ConsoleLog msg).
Definition console_print (msg : string) : M unit := emit (ConsolePrint msg).
Definition print (msg : string) : M unit := emit (Print msg).
Definition sleep (seconds : nat) : M unit := emit (Sleep seconds).

(** [os.path.exists] *)
Definition path_exists (path : string) : M bool :=
  fun w => (Ret (bool_decide (is_Some (files w !! path))), w).

Definition no_such_file (path : string) : exn :=
  FileNotFoundError ("[Errno 2] No such file or directory: '" +:+ path +:+ "'").

(** [with open(path) as f: ... for line in f], all lines at once. *)
Definition open_read (path : string) : M (list string) :=
  fun w =>
    match files w !! path with
    | Some content => (Ret (read_lines content), w)
    | None => (Raise (no_such_file path), w)
    end.

(** [with open(path, "w") as f: f.write(content)] *)
Definition open_write (path content : string) : M unit :=
  fun w => (Ret tt, World (<[path := content]> (files w)) (runs w) (trace w)).

(** [os.rename(src, dst)]: [dst] is replaced when it exists. *)
Definition os_rename (src dst : string) : M unit :=
  fun w =>
    match files w !! src with
    | Some content =>
        (Ret tt, World (<[dst := content]> (delete src (files w))) (runs w)
                       (trace w ++ [Rename src dst]))
    | None =>
        (Raise (FileNotFoundError ("[Errno 2] No such file or directory: '"
                                   +:+ src +:+ "' -> '" +:+ dst +:+ "'")), w)
    end.

(** ** Pure parts of the script *)

Definition amino_acids : list string :=
  ["A"; "C"; "D"; "E"; "F"; "G"; "H"; "I"; "K"; "L";
   "M"; "N"; "P"; "Q"; "R"; "S"; "T"; "V"; "W"; "Y"].

(** A residue specifier [(chain, pos, wt)].  [main] passes three strings;
    [pos] is the text that the f-string [{pos}] prints. *)
Record residue := Residue {
  chain : string;
  pos : string;
  wt : string
}.

(** [f"{wt}{chain}{pos}{aa}"] *)
Definition mutation_code (r : residue) (aa : string) : string :=
  wt r +:+ chain r +:+ pos r +:+ aa.

(** [f"{wt}{chain}{pos}{aa};\n"] *)
Definition mutation_line (r : residue) (aa : string) : string :=
  mutation_code r aa +:+ ";" +:+ nl.

(** The inner loop of [make_mutation_list]: every [aa] with [aa != wt]. *)
Definition substitutes (r : residue) : list string :=
  List.filter (fun aa => negb (String.eqb aa (wt r))) amino_acids.

(** The list [mutations] after the two nested loops. *)
Definition mutation_lines (residues : list residue) : list string :=
  flat_map (fun r => map (mutation_line r) (substitutes r)) residues.

(** [file_key]: [re.search(r'_(\d+)\.pdb$', filename)], then
    [int(match.group(1))], or -1 without a match.  [$] matches at the end
    of the string and also just before a newline that ends it. *)
Definition file_key (filename : string) : Z :=
  let r := rev filename in
  let r := match r with
           | String c r' => if Ascii.eqb c LF then r' else r
           | "" => r
           end in
  match r with
  | String "b" (String "d" (String "p" (String "." rest))) =>
      let '(digits_rev, before) := span is_digit rest in
      match digits_rev, before with
      | String _ _, String "_" _ => Z.of_N (int_of_digits (rev digits_rev))
      | _, _ => (-1)%Z
      end
  | _ => (-1)%Z
  end.

(** [sorted(l, key=key)]: Python's sort is stable and compares keys with
    [<] only.  On keys that [<] orders totally every stable sort returns the
    same list; it is computed here by insertion.  With a NaN among the keys
    [<] is no order and the result depends on the algorithm; insertion and
    Python's sort still agree on a list in which no key is below the key
    before it, which both return unchanged. *)
Section Sorted.
Context {A K : Type} (ltb : K -> K -> bool) (key : A -> K).

Fixpoint insert_sorted (x : A) (l : list A) : list A :=
  match l with
  | [] => [x]
  | y :: l' =>
      if ltb (key y) (key x) then y :: insert_sorted x l' else x :: y :: l'
  end.

Fixpoint sorted (l : list A) : list A :=
  match l with
  | [] => []
  | x :: l' => insert_sorted x (sorted l')
  end.

End Sorted.

(** [os.path.splitext(p)[0]] (POSIX): the extension starts at the last dot of
    the last path component, unless that component has only dots before it. *)
Definition splitext_root (p : string) : string :=
  let '(ext_rev, rest) := span (fun c => negb (Ascii.eqb c ".")) (rev p) in
  match rest with
  | "" => p
  | String _ root_rev =>
      if string_exists (Ascii.eqb "/") ext_rev then p
      else
        let '(name_rev, _) := span (fun c => negb (Ascii.eqb c "/")) root_rev in
        if string_exists (fun c => negb (Ascii.eqb c ".")) name_rev
        then rev root_rev else p
  end.

(** [os.path.splitext(p)[1]] *)
Definition splitext_ext (p : string) : string :=
  let root := splitext_root p in
  String.substring (String.length root) (String.length p - String.length root) p.

(** [os.path.basename(p)] (POSIX) *)
Definition basename (p : string) : string :=
  rev (fst (span (fun c => negb (Ascii.eqb c "/")) (rev p))).

(** [re.search(r'([A-Z]{2}\d{1,3}[A-Z])', s)] anchored at the first
    character: two capitals, a run of one to three digits, one capital.  A
    longer run of digits cannot match: after three digits a capital is
    required. *)
Definition match_code_here (s : string) : option string :=
  match s with
  | String a (String b rest) =>
      if is_upper a && is_upper b then
        let '(digits, after) := span is_digit rest in
        match after with
        | String c _ =>
            if is_upper c && (1 <=? String.length digits)
               && (String.length digits <=? 3)
            then Some (String a (String b (digits +:+ String c "")))
            else None
        | "" => None
        end
      else None
  | _ => None
  end.

(** The leftmost match, as [re.search] finds it. *)
Fixpoint search_code (s : string) : option string :=
  match match_code_here s with
  | Some code => Some code
  | None =>
      match s with
      | String _ s' => search_code s'
      | "" => None
      end
  end.

(** [re.match(r'^([A-Z]{2})(\d{1,3})([A-Z])$', mutation)] and
    [int(match.group(2))]. *)
Definition position_of (mutation : string) : option N :=
  match mutation with
  | String a (String b rest) =>
      if is_upper a && is_upper b then
        let '(digits, after) := span is_digit rest in
        match after with
        | String c tail =>
            if is_upper c && (1 <=? String.length digits)
               && (String.length digits <=? 3)
               && (String.eqb tail "" || String.eqb tail nl)
            then Some (int_of_digits digits)
            else None
        | "" => None
        end
      else None
  | _ => None
  end.

(** A row [[individual_text, file2, result]] of [results]. *)
Record row := Row {
  mutation : string;
  source : string;
  delta : float
}.

(** [groups.setdefault(num, []).append(row)] *)
Definition add_to_group (groups : gmap N (list row)) (num : N) (r : row)
    : gmap N (list row) :=
  <[num := (default [] (groups !! num) ++ [r])%list]> groups.

(** From [sorted_groups = sorted(groups.items(), ...)] to the end of the
    loop that fills [final_results]. *)
Definition rank_groups (groups : gmap N (list row)) : list row :=
  let sorted_groups := sorted N.ltb fst (map_to_list groups) in
  flat_map (fun '(num, group_rows) =>
              sorted float_ltb (fun x => float_neg (delta x)) group_rows)
           sorted_groups.

(** [s.split(sep)] for a separator of one character. *)
Fixpoint split_on (sep : ascii) (s : string) : list string :=
  match s with
  | "" => [""]
  | String c s' =>
      if Ascii.eqb c sep then "" :: split_on sep s'
      else match split_on sep s' with
           | w :: ws => String c w :: ws
           | [] => [String c ""]
           end
  end.

(** One iteration of the loop over [args.residues] in [main]: [None] when
    the [try] block raises [ValueError]. *)
Definition parse_residue (res : string) : option residue :=
  match split_on ":" res with
  | [chain; pos; wt] =>
      if (String.length wt =? 1) && string_forall is_alpha wt
      then Some (Residue chain pos wt)
      else None
  | _ => None
  end.

Section Program.
Context `{Platform}.

Definition glob_glob (pattern : string) : M (list string) :=
  fun w => (Ret (glob pattern (files w)), w).

(** [x - y]: the exact difference of two finite numbers, rounded. *)
Definition float_sub (x y : float) : float :=
  match x, y with
  | NaN, _ | _, NaN => NaN
  | Finite a, Finite b => round (a - b)
  | Finite _, Infinity negative => Infinity (negb negative)
  | Infinity negative, Finite _ => Infinity negative
  | Infinity negative, Infinity negative' =>
      if Bool.eqb negative negative' then NaN else Infinity negative
  end.

(** [run_foldx_command]: [subprocess.run(..., check=True)] raises
    [CalledProcessError] on a non-zero exit status, and the function returns
    that error object, which carries the same [returncode], [stdout] and
    [stderr]: either way the caller gets the outcome of the process.  Any
    other exception of [subprocess.run] is not caught here and leaves the
    function. *)
Definition run_foldx_command (command : list string) : M completed :=
  fun w =>
    let '(result, fs') := foldx command (runs w) (files w) in
    match run_error command (runs w) (files w) with
    | Some e =>
        (Raise e, World fs' (S (runs w)) (trace w ++ [ExecRaised command e]))
    | None =>
        (Ret result,
         World fs' (S (runs w)) (trace w ++ [Exec command (returncode result)]))
    end.

Definition repair_cmd (pdb_file : string) : list string :=
  ["foldx"; "--command=RepairPDB"; "--pdb=" +:+ pdb_file].

Definition repair_pdb (base_pdb_name : string) : M string :=
  let pdb_file := base_pdb_name +:+ ".pdb" in
  result <- run_foldx_command (repair_cmd pdb_file) ;;
  let returncode := returncode result in
  let repaired_file := base_pdb_name +:+ "_Repair.pdb" in
  found <- path_exists repaired_file ;;
  (if negb found then raise (FileNotFoundError "Repaired PDB not generated")
   else ret tt) ;;
  (if negb (returncode =? 0)%Z
   then console_log ("[red]RepairPDB failed for " +:+ pdb_file +:+ "[/red]")
   else ret tt) ;;
  (if (returncode =? 0)%Z
   then console_log ("[green]Repaired PDB: " +:+ repaired_file +:+ "[/green]")
   else ret tt) ;;
  ret repaired_file.

Definition make_mutation_list (residues : list residue) : M unit :=
  let mutations := mutation_lines residues in
  open_write "individual_list.txt" (join_lines mutations) ;;
  let num_lines := length mutations in
  if negb (num_lines mod 19 =? 0)
  then raise (ValueError ("Number of mutations (" +:+ pretty num_lines
                          +:+ ") is not correct."))
  else console_log "[green]Mutation list created: individual_list.txt[/green]".

Definition nonempty (s : string) : bool :=
  match s with
  | "" => false
  | _ => true
  end.

Definition get_mutation_names (mutation_file : string) : M (list string) :=
  lines <- open_read mutation_file ;;
  ret (List.filter nonempty
         (map (fun line => rstrip_semicolon (strip line)) lines)).

Definition rename_pdb_files (repaired_pdb : string)
    (mutation_names : list string) : M unit :=
  let base := splitext_root repaired_pdb in
  pdb_files <- glob_glob (base +:+ "_*.pdb") ;;
  let pdb_files := sorted Z.ltb file_key pdb_files in
  if negb (length pdb_files =? length mutation_names)
  then print "Warning: PDB files and mutation names are not equal!"
  else
    for_each (combine pdb_files mutation_names)
      (fun '(pdb_file, mutation) =>
         let new_name := base +:+ "_" +:+ mutation +:+ ".pdb" in
         print ("Renaming " +:+ pdb_file +:+ " -> " +:+ new_name) ;;
         os_rename pdb_file new_name).

Definition build_cmd (repaired_pdb : string) : list string :=
  ["foldx"; "--command=BuildModel"; "--pdb=" +:+ repaired_pdb;
   "--mutant-file=individual_list.txt"; "--numberOfRuns=1"; "--out-pdb=true"].

Definition run_mutations (repaired_pdb : string) : M unit :=
  result <- run_foldx_command (build_cmd repaired_pdb) ;;
  console_log ("BuildModel stdout:" +:+ nl +:+ stdout result) ;;
  console_log ("BuildModel stderr:" +:+ nl +:+ stderr result) ;;
  mutation_names <- get_mutation_names "individual_list.txt" ;;
  rename_pdb_files repaired_pdb mutation_names ;;
  console_log "[green]Mutant Structures Generated[/green]".

Definition stability_cmd (pdb_file : string) : list string :=
  ["foldx"; "--command=Stability"; "--pdb=" +:+ pdb_file].

(** The loop [for attempt in range(max_retries)] of one file, from
    [attempt] on with [remaining] iterations left; the result is the value
    of [success] when the loop ends, by [break] or by exhaustion. *)
Fixpoint stability_attempts (pdb_file : string) (max_retries retry_delay : nat)
    (attempt remaining : nat) : M bool :=
  match remaining with
  | O => ret false
  | S remaining' =>
      result <- run_foldx_command (stability_cmd pdb_file) ;;
      if (returncode result =? 0)%Z then
        console_log ("[green]Stability calculation completed for "
                     +:+ pdb_file +:+ "[/green]") ;;
        ret true
      else
        console_print ("[yellow]Error running stability calculation for "
                       +:+ pdb_file +:+ " (Attempt " +:+ pretty (attempt + 1)
                       +:+ "/" +:+ pretty max_retries +:+ "):[/yellow]") ;;
        (if attempt <? max_retries - 1 then
           console_print ("Retrying in " +:+ pretty retry_delay
                          +:+ " seconds...") ;;
           sleep retry_delay
         else ret tt) ;;
        stability_attempts pdb_file max_retries retry_delay
                           (S attempt) remaining'
  end.

(** The body of [for pdb_file in matching_files]; [error_files] is the
    local list it appends to. *)
Definition stability_one (max_retries retry_delay : nat)
    (error_files : list string) (pdb_file : string) : M (list string) :=
  console_log ("Running stability calculation for: " +:+ pdb_file) ;;
  success <- stability_attempts pdb_file max_retries retry_delay 0 max_retries ;;
  if negb success then ret (error_files ++ [pdb_file])%list else ret error_files.

(** The defaults of [run_foldx_stability(base_pdb_name, max_retries=3,
    retry_delay=5)]. *)
Definition default_max_retries : nat := 3.
Definition default_retry_delay : nat := 5.

(** The result is [None], [Some true] or [Some false] for Python's [None],
    [True] and [False]. *)
Definition run_foldx_stability (base_pdb_name : string)
    (max_retries retry_delay : nat) : M (option bool) :=
  let file_pattern := base_pdb_name +:+ "_Repair*.pdb" in
  matching_files <- glob_glob file_pattern ;;
  match matching_files with
  | [] =>
      console_print ("[red]No files found matching the pattern: "
                     +:+ file_pattern +:+ "[/red]") ;;
      ret None
  | _ =>
      error_files <- for_fold matching_files []
                       (stability_one max_retries retry_delay) ;;
      match error_files with
      | _ :: _ =>
          console_print "[red]The following files failed stability calculation after retries:[/red]" ;;
          for_each error_files
            (fun f => console_print ("[red]" +:+ f +:+ "[/red]")) ;;
          ret (Some false)
      | [] =>
          console_log "[green]All stability calculations finished successfully[/green]" ;;
          ret (Some true)
      end
  end.

Definition headers : list string := ["Mutation"; "Source File"; "Stability (DDG)"].

(** The body of [for line1, line2 in zip(f1, f2)]. *)
Definition compare_lines (individual_text file2 : string)
    (results : list row) (lines : string * string) : M (list row) :=
  let '(line1, line2) := lines in
  let fields1 := split_ws (strip line1) in
  let fields2 := split_ws (strip line2) in
  if (length fields1 <? 2) || (length fields2 <? 2) then
    print ("Skipping line due to insufficient fields in " +:+ file2 +:+ ": "
           +:+ strip line1 +:+ " or " +:+ strip line2) ;;
    ret results
  else
    match float_of_string (nth 1 fields1 ""),
          float_of_string (nth 1 fields2 "") with
    | Some value1, Some value2 =>
        let result := float_sub value2 value1 in
        ret (results ++ [Row individual_text file2 result])%list
    | _, _ =>
        print ("Skipping line due to non-numeric value in " +:+ file2 +:+ ": "
               +:+ strip line1 +:+ " or " +:+ strip line2) ;;
        ret results
    end.

(** The block [with open(file1, 'r') as f1, open(file2, 'r') as f2]. *)
Definition compare_files (individual_text file1 file2 : string)
    (results : list row) : M (list row) :=
  f1 <- open_read file1 ;;
  f2 <- open_read file2 ;;
  for_fold (combine f1 f2) results (compare_lines individual_text file2).

(** The body of [for file2 in file2_list]. *)
Definition subtract_file (mutation_lookup : gmap string string)
    (file1 : string) (results : list row) (file2 : string) : M (list row) :=
  if endswith file2 "Repair_0_ST.fxout" then ret results
  else
    match search_code file2 with
    | None =>
        print ("Warning: Could not extract mutation code from filename: "
               +:+ file2) ;;
        ret results
    | Some mutation_code =>
        let individual_text :=
          default mutation_code (mutation_lookup !! mutation_code) in
        results' <- compare_files individual_text file1 file2 results ;;
        console_log ("[cyan]Processed " +:+ file2 +:+ "[/cyan]") ;;
        ret results'
    end.

(** The body of [for row in results]. *)
Definition group_row (groups : gmap N (list row)) (r : row)
    : M (gmap N (list row)) :=
  match position_of (mutation r) with
  | Some num => ret (add_to_group groups num r)
  | None =>
      print ("Warning: Could not extract number from mutation '"
             +:+ mutation r +:+ "' - using 0") ;;
      ret (add_to_group groups 0%N r)
  end.

(** From [groups = {}] to the end of the loop that fills [final_results]. *)
Definition rank_results (results : list row) : M (list row) :=
  groups <- for_fold results ∅ group_row ;;
  ret (rank_groups groups).

Definition subtract_fields (file_pattern : string) : M unit :=
  let file1 := file_pattern +:+ "_Repair_0_ST.fxout" in
  file2_list <- glob_glob (file_pattern +:+ "_Repair_*_0_ST.fxout") ;;
  let file2_list := sorted String.ltb (fun x => x) file2_list in
  let individual_list_file := "individual_list.txt" in
  let output_file := "ddgcalcoutput.txt" in
  match file2_list with
  | [] => print "No files found matching the pattern: []"
  | _ =>
      ind_list <- open_read individual_list_file ;;
      let individual_lines :=
        map (fun line => rstrip_semicolon (strip line))
            (List.filter (fun line => nonempty (strip line)) ind_list) in
      let mutation_lookup : gmap string string :=
        fold_left (fun m mut => <[mut := mut]> m) individual_lines ∅ in
      results <- for_fold file2_list [] (subtract_file mutation_lookup file1) ;;
      final_results <- rank_results results ;;
      let formatted_results :=
        map (fun r => [mutation r; source r; format_4f (delta r)])
            final_results in
      let column_widths :=
        fold_left (fun widths cells =>
                     zip_with Nat.max widths (map String.length cells))
                  formatted_results (map String.length headers) in
      let bottom_line := map (repeat_char "-") column_widths in
      open_write output_file
        ((tabulate_plain formatted_results headers +:+ nl)
         +:+ (join "  " bottom_line +:+ nl)) ;;
      console_log ("[cyan]All results written to " +:+ output_file
                   +:+ "[/cyan]") ;;
      console_log "[green]DDG calculations completed[/green]"
  end.

Definition sys_exit {A} (code : Z) : M A := raise (SystemExit code).

(** The [try] block of [main].  The [console.status] spinners only draw. *)
Definition pipeline (base_pdb_name : string) (residues : list residue)
    : M unit :=
  repaired_pdb <- repair_pdb base_pdb_name ;;
  found <- path_exists repaired_pdb ;;
  (if negb found then
     console_print ("[red]Repaired PDB file not found: " +:+ repaired_pdb
                    +:+ "[/red]") ;;
     sys_exit 1
   else ret tt) ;;
  make_mutation_list residues ;;
  run_mutations repaired_pdb ;;
  run_foldx_stability base_pdb_name default_max_retries default_retry_delay ;;
  subtract_fields base_pdb_name.

(** The [try] statement of [main] with its handler
    [except Exception as e]. *)
Definition guarded_pipeline (base_pdb_name : string) (residues : list residue)
    : M unit :=
  try_except (pipeline base_pdb_name residues)
    (fun e =>
       console_print ("[red]Critical error: " +:+ exn_message e +:+ "[/red]") ;;
       sys_exit 1).

(** [main]; [argv] is [sys.argv[1:]], the command line that
    [parser.parse_args()] reads.  When argparse rejects it, or is asked for
    help, it writes its message and exits the interpreter itself. *)
Definition main (argv : list string) : M unit :=
  match parse_args argv with
  | Usage status message =>
      emit (ArgparseMessage message) ;;
      sys_exit status
  | Parsed pdb_file residue_args =>
      let base_pdb_name := splitext_root (basename pdb_file) in
      found <- path_exists (base_pdb_name +:+ ".pdb") ;;
      (if negb found then
         console_print ("[red]Error: PDB file " +:+ base_pdb_name
                        +:+ ".pdb not found![/red]") ;;
         sys_exit 1
       else ret tt) ;;
      (if negb (String.eqb (splitext_ext (basename pdb_file)) ".pdb") then
         console_print "[red]Error: This is not a .pdb file![/red]" ;;
         sys_exit 1
       else ret tt) ;;
      residues <- for_fold residue_args []
        (fun residues res =>
           match parse_residue res with
           | Some r => ret (residues ++ [r])%list
           | None =>
               console_print ("[red]Invalid residue format: " +:+ res
                 +:+ ". Use ChainID:Position:WT (e.g., A:123:R)[/red]") ;;
               sys_exit 1
           end) ;;
      guarded_pipeline base_pdb_name residues
  end.

(** The script run as [__main__]. *)
Definition script (argv : list string) : M unit :=
  console_log "[bold blue]Starting FoldX mutation workflow[/bold blue]" ;;
  main argv ;;
  console_log "[bold green]All calculations finished[/bold green]".

End Program.

(** ** A concrete platform, to run the script on examples *)

Module Demo.

(** A pattern whose only special character is [*]. *)
Fixpoint wildcard (pat : string) : string -> bool :=
  match pat with
  | "" => fun s => match s with "" => true | _ => false end
  | String p pat' =>
      if Ascii.eqb p "*" then
        fix star (s : string) : bool :=
          wildcard pat' s
          || match s with
             | String _ s' => star s'
             | "" => false
             end
      else
        fun s =>
          match s with
          | String c s' => Ascii.eqb c p && wildcard pat' s'
          | "" => false
          end
  end.

(** The existing paths that match, in the order of the directory listing. *)
Definition glob_star (pat : string) (fs : gmap string string) : list string :=
  List.filter (wildcard pat) (map fst (map_to_list fs)).

Lemma glob_star_NoDup pat (fs : gmap string string) :
  List.NoDup (glob_star pat fs).
Proof.
  unfold glob_star. apply List.NoDup_filter.
  apply NoDup_ListNoDup, NoDup_fst_map_to_list.
Qed.

Lemma glob_star_exists pat (fs : gmap string string) path :
  In path (glob_star pat fs) -> is_Some (fs !! path).
Proof.
  unfold glob_star. intros Hf. apply filter_In in Hf as [Hf _].
  apply in_map_iff in Hf as ([f' content] & <- & Hin).
  apply list_elem_of_In, elem_of_map_to_list in Hin. cbn [fst]. eauto.
Qed.

(** Plain decimal literals: an optional sign, digits, an optional point and
    digits; and the words [nan], [inf] and [-inf]. *)
Definition float_of_decimal (s : string) : option float :=
  if String.eqb s "nan" then Some NaN
  else if String.eqb s "inf" then Some (Infinity false)
  else if String.eqb s "-inf" then Some (Infinity true)
  else
  let '(negative, body) :=
    match s with
    | String "-" t => (true, t)
    | String "+" t => (false, t)
    | _ => (false, s)
    end in
  let '(int_part, rest) := span is_digit body in
  let frac_part :=
    match rest with
    | "" => Some ""
    | String "." t => if string_forall is_digit t then Some t else None
    | _ => None
    end in
  match frac_part with
  | Some frac =>
      if nonempty (int_part +:+ frac) then
        let m := Z.of_N (int_of_digits (int_part +:+ frac)) in
        let scale := Z.to_pos (10 ^ Z.of_nat (String.length frac)) in
        let v := Qred (Qmake m scale) in
        Some (Finite (if negative then Qopp v else v))
      else None
  | None => None
  end.

(** Every rational number taken as a float: no rounding, no overflow. *)
Definition round_exact (q : Q) : float := Finite (Qred q).

Lemma round_exact_proper q q' : (q == q')%Q -> round_exact q = round_exact q'.
Proof. intros E. unfold round_exact. f_equal. now apply Qred_complete. Qed.

Lemma round_exact_opp q : round_exact (- q) = float_neg (round_exact q).
Proof. unfold round_exact. cbn [float_neg]. f_equal. apply Qred_opp. Qed.

(** Four decimals, rounding half to even. *)
Definition format_rational4 (x : Q) : string :=
  let scaled := (Qnum x * 10000)%Z in
  let d := Zpos (Qden x) in
  let a := Z.abs scaled in
  let q := (a / d)%Z in
  let r := (a mod d)%Z in
  let n := if (d <? 2 * r)%Z then (q + 1)%Z
           else if (2 * r =? d)%Z then (if Z.even q then q else q + 1)%Z
           else q in
  let frac := pretty (n mod 10000)%Z in
  (if (Qnum x <? 0)%Z then "-" else "")
  +:+ pretty (n / 10000)%Z +:+ "."
  +:+ repeat_char "0" (4 - String.length frac) +:+ frac.

Definition format_decimal4 (x : float) : string :=
  match x with
  | Finite q => format_rational4 q
  | Infinity negative => if negative then "-inf" else "inf"
  | NaN => "nan"
  end.

(** A stand-in for argparse: the command line
    [--pdb_file FILE --residues RES [RES ...]], or [-h]. *)
Definition is_option (arg : string) : bool :=
  match arg with
  | String "-" _ => true
  | _ => false
  end.

Definition usage : string :=
  "usage: single_mutation.py [-h] --pdb_file PDB_FILE --residues RESIDUES [RESIDUES ...]".

Definition parse_argv (argv : list string) : parsed_args :=
  match argv with
  | "--pdb_file" :: pdb_file :: "--residues" :: res :: more =>
      if existsb is_option (pdb_file :: res :: more) then Usage 2 usage
      else Parsed pdb_file (res :: more)
  | ["-h"] | ["--help"] => Usage 0 usage
  | _ => Usage 2 usage
  end.

Lemma parse_argv_status argv status message :
  parse_argv argv = Usage status message -> status = 0%Z \/ status = 2%Z.
Proof.
  unfold parse_argv.
  repeat match goal with
         | |- context [match ?x with _ => _ end] => destruct x
         end;
    intros [= <- _]; auto.
Qed.

(** No invocation raises: the tool is installed and its output is text. *)
Definition always_runs : list string -> nat -> gmap string string -> option exn :=
  fun _ _ _ => None.

(** [subprocess.run] on a machine without FoldX. *)
Definition not_installed : list string -> nat -> gmap string string -> option exn :=
  fun _ _ _ =>
    Some (FileNotFoundError "[Errno 2] No such file or directory: 'foldx'").

Lemma always_runs_Exception cmd k fs e :
  always_runs cmd k fs = Some e -> is_Exception e = true.
Proof. discriminate. Qed.

Lemma not_installed_Exception cmd k fs e :
  not_installed cmd k fs = Some e -> is_Exception e = true.
Proof. now intros [= <-]. Qed.

(** A stand-in for the layout of [tabulate]: cells separated by two blanks. *)
Definition table_plain (rows : list (list string)) (hdrs : list string) : string :=
  join nl (map (join "  ") (hdrs :: rows)).

(** A platform around a given external tool. *)
Definition platform
    (tool : list string -> nat -> gmap string string
            -> completed * gmap string string) : Platform :=
  {| foldx := tool;
     run_error := always_runs;
     run_error_Exception := always_runs_Exception;
     glob := glob_star;
     glob_NoDup := glob_star_NoDup;
     glob_exists := glob_star_exists;
     float_of_string := float_of_decimal;
     round := round_exact;
     round_proper := round_exact_proper;
     round_opp := round_exact_opp;
     tabulate_plain := table_plain;
     format_4f := format_decimal4;
     parse_args := parse_argv;
     parse_args_status := parse_argv_status |}.

(** A tool that exits with [rc] and touches nothing. *)
Definition tool_exit (rc : Z) : list string -> nat -> gmap string string
    -> completed * gmap string string :=
  fun _ _ fs => (Completed rc "" "", fs).

(** A tool that fails on the first [n] invocations of the run. *)
Definition tool_flaky (n : nat) : list string -> nat -> gmap string string
    -> completed * gmap string string :=
  fun _ k fs => (Completed (if k <? n then 1 else 0) "" "", fs).

(** The same platform on a machine without FoldX: every invocation raises
    and leaves the files as they are. *)
Definition platform_without_tool : Platform :=
  {| foldx := tool_exit 0;
     run_error := not_installed;
     run_error_Exception := not_installed_Exception;
     glob := glob_star;
     glob_NoDup := glob_star_NoDup;
     glob_exists := glob_star_exists;
     float_of_string := float_of_decimal;
     round := round_exact;
     round_proper := round_exact_proper;
     round_opp := round_exact_opp;
     tabulate_plain := table_plain;
     format_4f := format_decimal4;
     parse_args := parse_argv;
     parse_args_status := parse_argv_status |}.

Definition world_of (fs : list (string * string)) : world :=
  World (list_to_map fs) 0 [].

(** The value of the argument [name...] of a command line. *)
Fixpoint strip_prefix (pre s : string) : option string :=
  match pre, s with
  | "", _ => Some s
  | String a pre', String b s' =>
      if Ascii.eqb a b then strip_prefix pre' s' else None
  | _, "" => None
  end.

Definition arg_value (name : string) (cmd : list string) : string :=
  match omap (strip_prefix name) cmd with
  | v :: _ => v
  | [] => ""
  end.

(** A tool that behaves as the script expects of FoldX and never fails:
    [RepairPDB] leaves [{stem}_Repair.pdb], [BuildModel] leaves one numbered
    model per line of the mutation list, [Stability] leaves
    [{stem}_0_ST.fxout] with one line, whose value depends on the
    invocation. *)
Definition tool_simulated : list string -> nat -> gmap string string
    -> completed * gmap string string :=
  fun cmd k fs =>
    let pdb := arg_value "--pdb=" cmd in
    let stem := splitext_root pdb in
    let command := arg_value "--command=" cmd in
    if String.eqb command "RepairPDB" then
      (Completed 0 "" "", <[stem +:+ "_Repair.pdb" := "repaired"]> fs)
    else if String.eqb command "BuildModel" then
      let n := length (read_lines (default "" (fs !! "individual_list.txt"))) in
      (Completed 0 "" "",
       fold_left (fun fs i => <[stem +:+ "_" +:+ pretty i +:+ ".pdb"
                                := "model " +:+ pretty i]> fs)
                 (seq 1 n) fs)
    else
      (Completed 0 "" "",
       <[stem +:+ "_0_ST.fxout"
         := pdb +:+ " -" +:+ pretty (k * 7 mod 5) +:+ "."
            +:+ pretty (k * 3 mod 10) +:+ nl]> fs).

End Demo.

(** ** Vocabulary of the statements *)

(** The codes of the generated lines, in generation order. *)
Definition mutation_codes (residues : list residue) : list string :=
  flat_map (fun r => map (mutation_code r) (substitutes r)) residues.

(** What the generator leaves in the mutation list file. *)
Definition written_list (residues : list residue) (w : world) : option string :=
  files (snd (make_mutation_list residues w)) !! "individual_list.txt".

(** A line of the list for residue [r]: the code [{wt}{chain}{pos}{aa}] of a
    letter [aa] of the alphabet other than the wild type, a semicolon and
    the end of line. *)
Definition line_of_residue (r : residue) (line : string) : Prop :=
  exists aa, In aa amino_acids /\ aa <> wt r
             /\ line = wt r +:+ chain r +:+ pos r +:+ aa +:+ ";" +:+ nl.

Definition no_linebreak (c : ascii) : bool :=
  negb (Ascii.eqb c LF) && negb (Ascii.eqb c CR).

(** A residue whose codes survive being written as lines and read back:
    the text [{wt}{chain}{pos}] holds no line feed or carriage return and
    does not start with a whitespace character. *)
Definition plain_residue (r : residue) : bool :=
  let prefix := wt r +:+ chain r +:+ pos r in
  string_forall no_linebreak prefix
  && match prefix with
     | String c _ => negb (is_space c)
     | "" => true
     end.

(** The effect of [os.rename(src, dst)] on a file system that has [src]. *)
Definition rename_in (fs : gmap string string) (move : string * string)
    : gmap string string :=
  match fs !! fst move with
  | Some content => <[snd move := content]> (delete (fst move) fs)
  | None => fs
  end.

(** What one iteration of the renaming loop prints and does. *)
Definition rename_events (move : string * string) : list event :=
  [Print ("Renaming " +:+ fst move +:+ " -> " +:+ snd move);
   Rename (fst move) (snd move)].

(** The external invocations recorded in a trace: command line and exit
    status, in order. *)
Definition execs (evs : list event) : list (list string * Z) :=
  flat_map (fun e => match e with
                     | Exec cmd rc => [(cmd, rc)]
                     | _ => []
                     end) evs.

(** The exit statuses of the attempts made for one file, when at most [n]
    attempts are allowed: either the last attempt is the first one that
    exits with 0, or all [n] attempts were made and none exits with 0. *)
Definition attempts_of_one_file (n : nat) (rcs : list Z) : Prop :=
  length rcs <= n
  /\ ((exists failed, rcs = (failed ++ [0%Z])%list
                      /\ Forall (fun rc => rc <> 0%Z) failed)
      \/ (length rcs = n /\ Forall (fun rc => rc <> 0%Z) rcs)).

(** The exit statuses of the attempts made for a file before
    [subprocess.run] raised: fewer than [n], and none is 0. *)
Definition attempts_cut_short (n : nat) (rcs : list Z) : Prop :=
  length rcs < n /\ Forall (fun rc => rc <> 0%Z) rcs.

(** The files whose attempts hold no exit status 0. *)
Definition failed_files (matching : list string) (attempts : list (list Z))
    : list string :=
  map fst (List.filter (fun '(_, rcs) => negb (existsb (Z.eqb 0) rcs))
                       (combine matching attempts)).

Section DeltaVocabulary.
Context `{Platform}.

(** The value of a line: its second whitespace-separated field as a number,
    when the line has two fields and the second one is numeric. *)
Definition line_value (line : string) : option float :=
  match split_ws (strip line) with
  | _ :: field :: _ => float_of_string field
  | _ => None
  end.

(** Following the specification: the delta of a pair of lines is the value
    of the mutant line minus the value of the reference line; a pair with
    too few fields or a non-numeric field has none. *)
Definition spec_delta (reference_line mutant_line : string) : option float :=
  match line_value reference_line, line_value mutant_line with
  | Some reference, Some mutant => Some (float_sub mutant reference)
  | _, _ => None
  end.

(** The deltas of two files compared line by line, pairs without a delta
    skipped. *)
Definition spec_deltas (reference_lines mutant_lines : list string)
    : list float :=
  flat_map (fun '(l1, l2) => match spec_delta l1 l2 with
                             | Some d => [d]
                             | None => []
                             end)
           (combine reference_lines mutant_lines).

End DeltaVocabulary.

(** The position group of a row: the number in its mutation code, or 0 when
    the code does not have the expected shape. *)
Definition group_key (r : row) : N := default 0%N (position_of (mutation r)).

(** The dictionary [groups] after the loop over [results]. *)
Definition grouped (results : list row) (groups : gmap N (list row))
    : gmap N (list row) :=
  fold_left (fun g r => add_to_group g (group_key r) r) results groups.

(** [x <= y] for two floats that are numbers; NaN is in no order with
    anything. *)
Definition float_le (x y : float) : Prop :=
  match x, y with
  | NaN, _ | _, NaN => False
  | Finite a, Finite b => (a <= b)%Q
  | Finite _, Infinity negative => negative = false
  | Infinity negative, Finite _ => negative = true
  | Infinity negative, Infinity negative' => negative = true \/ negative' = false
  end.

(** The number that a run of decimal digits spells, in positional
    notation. *)
Definition digit_value (c : ascii) : N := N.of_nat (nat_of_ascii c - 48).

Fixpoint decimal (digits : string) : N :=
  match digits with
  | "" => 0%N
  | String c rest =>
      (digit_value c * 10 ^ N.of_nat (String.length rest) + decimal rest)%N
  end.

(** A mutation code of the expected shape: two capitals, the position in
    one to three digits, one capital. *)
Definition code_at (digits : string) (mutation : string) : Prop :=
  exists a b c,
    mutation = String a (String b (digits +:+ String c ""))
    /\ is_upper a = true /\ is_upper b = true /\ is_upper c = true
    /\ string_forall is_digit digits = true
    /\ 1 <= String.length digits <= 3.

(** [a] may stand before [b] in a list sorted by [key]: the key of [b] is
    not below the key of [a]. *)
Definition key_le {A K} (ltb : K -> K -> bool) (key : A -> K) (a b : A) : Prop :=
  ltb (key b) (key a) = false.

(** A residue whose recorded wild type is none of the twenty letters. *)
Definition outside_alphabet (r : residue) : bool :=
  negb (existsb (String.eqb (wt r)) amino_acids).

(** A text without the character [c]. *)
Definition without_char (c : ascii) (s : string) : bool :=
  string_forall (fun x => negb (Ascii.eqb x c)) s.

(** The pauses recorded in a trace, in order. *)
Definition sleeps (evs : list event) : list nat :=
  flat_map (fun e => match e with
                     | Sleep seconds => [seconds]
                     | _ => []
                     end) evs.

(** A computation that raises, if at all, only exceptions satisfying [P]. *)
Definition only_raises {A} (P : exn -> Prop) (c : M A) : Prop :=
  forall w e w', c w = (Raise e, w') -> P e.

(** The exceptions that [except Exception] catches: all but
    [SystemExit]. *)
Definition ordinary (e : exn) : Prop := is_Exception e = true.

Section ExceptionVocabulary.
Context `{Platform}.

(** The exceptions of the steps of the pipeline: the [FileNotFoundError]
    and [ValueError] that the script and its file operations raise, and
    whatever [subprocess.run] raises when it cannot run the tool. *)
Definition step_exn (e : exn) : Prop :=
  (exists msg, e = FileNotFoundError msg \/ e = ValueError msg)
  \/ exists cmd k fs, run_error cmd k fs = Some e.

End ExceptionVocabulary.

(** The last character of a text. *)
Fixpoint last_char (s : string) : option ascii :=
  match s with
  | "" => None
  | String c "" => Some c
  | String _ s' => last_char s'
  end.

(** The first character of a text. *)
Definition first_char (s : string) : option ascii :=
  match s with
  | "" => None
  | String c _ => Some c
  end.

(** A computation that, whatever its outcome, runs no external command and
    leaves alone every file outside [allowed]. *)
Definition touches_only {A} (allowed : string -> Prop) (c : M A) : Prop :=
  forall w r w',
    c w = (r, w') ->
    runs w' = runs w
    /\ execs (trace w') = execs (trace w)
    /\ forall path, ~ allowed path -> files w' !! path = files w !! path.

(** ** Facts about strings *)

Lemma append_cons (x : ascii) (a b : string) :
  String x a +:+ b = String x (a +:+ b).
Proof. reflexivity. Qed.

Lemma append_assoc (a b c : string) : (a +:+ b) +:+ c = a +:+ (b +:+ c).
Proof.
  induction a as [| x a IH]; [reflexivity |].
  rewrite !append_cons. now rewrite IH.
Qed.

(** ** Properties of the mutation list generator *)

Section MutationList.
Context `{Platform}.

Lemma substitutes_in_alphabet r :
  In (wt r) amino_acids -> length (substitutes r) = 19.
Proof.
  unfold substitutes. intros Hin.
  remember (wt r) as x eqn:E. clear E. simpl in Hin.
  repeat (destruct Hin as [<- | Hin]; [reflexivity |]).
  destruct Hin.
Qed.

Lemma filter_all_true {A} (f : A -> bool) (l : list A) :
  (forall x, In x l -> f x = true) -> List.filter f l = l.
Proof.
  induction l as [| a l IH]; intros Hall; simpl; [reflexivity |].
  rewrite (Hall a (or_introl eq_refl)). f_equal.
  apply IH. intros x Hx. apply Hall. now right.
Qed.

Lemma substitutes_outside_alphabet r :
  ~ In (wt r) amino_acids -> substitutes r = amino_acids.
Proof.
  intros Hout. unfold substitutes. apply filter_all_true.
  intros aa Haa. apply negb_true_iff, String.eqb_neq.
  intros ->. contradiction.
Qed.

Lemma substitutes_spec r aa :
  In aa (substitutes r) <-> In aa amino_acids /\ aa <> wt r.
Proof.
  unfold substitutes. rewrite filter_In, negb_true_iff, String.eqb_neq.
  reflexivity.
Qed.

Lemma mutation_lines_length residues :
  Forall (fun r => In (wt r) amino_acids) residues ->
  length (mutation_lines residues) = 19 * length residues.
Proof.
  unfold mutation_lines.
  induction 1 as [| r rs Hr _ IH]; simpl; [reflexivity |].
  rewrite length_app, length_map, IH, (substitutes_in_alphabet r Hr). lia.
Qed.

(** The exact count: a wild type outside the alphabet excludes nothing. *)
Lemma mutation_lines_length_general residues :
  length (mutation_lines residues)
  = 19 * length residues
    + length (List.filter (fun r => negb (existsb (String.eqb (wt r)) amino_acids))
                          residues).
Proof.
  unfold mutation_lines.
  induction residues as [| r rs IH]; simpl flat_map; [reflexivity |].
  rewrite length_app, length_map, IH. cbn [List.filter length].
  destruct (existsb (String.eqb (wt r)) amino_acids) eqn:E.
  - apply existsb_exists in E as (aa & Haa & Eaa).
    apply String.eqb_eq in Eaa. subst aa.
    rewrite (substitutes_in_alphabet r Haa). simpl. lia.
  - rewrite substitutes_outside_alphabet.
    + simpl. lia.
    + intros Hin.
      assert (existsb (String.eqb (wt r)) amino_acids = true) as E'.
      { apply existsb_exists. exists (wt r). split; [exact Hin |].
        apply String.eqb_refl. }
      congruence.
Qed.

Lemma make_mutation_list_run residues w :
  make_mutation_list residues w
  = let lines := mutation_lines residues in
    let w1 := World (<["individual_list.txt" := join_lines lines]> (files w))
                    (runs w) (trace w) in
    if negb (length lines mod 19 =? 0)
    then (Raise (ValueError ("Number of mutations (" +:+ pretty (length lines)
                             +:+ ") is not correct.")), w1)
    else (Ret tt,
          World (files w1) (runs w1)
                (trace w1 ++ [ConsoleLog "[green]Mutation list created: individual_list.txt[/green]"])).
Proof.
  unfold make_mutation_list, bind, open_write. cbn beta iota zeta.
  destruct (negb _); reflexivity.
Qed.

Lemma written_list_eq residues w :
  written_list residues w = Some (join_lines (mutation_lines residues)).
Proof.
  unfold written_list. rewrite make_mutation_list_run. cbn zeta.
  destruct (negb _); cbn [snd files]; apply lookup_insert_eq.
Qed.

(** C1, as amended: when every recorded wild type is one of the twenty
    letters of the alphabet, the list written by [make_mutation_list] has
    exactly 19 lines per residue, in the order of the residues, and every
    line of a residue is the code [{wt}{chain}{pos}{aa}] followed by a
    semicolon, with [aa] different from the wild type of that residue. *)
Theorem mutation_list_has_19_lines_per_residue residues w :
  Forall (fun r => In (wt r) amino_acids) residues ->
  exists blocks,
    written_list residues w = Some (join_lines (concat blocks))
    /\ length (concat blocks) = 19 * length residues
    /\ Forall2 (fun r block => length block = 19
                               /\ Forall (line_of_residue r) block)
               residues blocks.
Proof.
  intros Hwt.
  exists (map (fun r => map (mutation_line r) (substitutes r)) residues).
  rewrite written_list_eq.
  assert (concat (map (fun r => map (mutation_line r) (substitutes r)) residues)
          = mutation_lines residues) as ->.
  { unfold mutation_lines. now rewrite flat_map_concat_map. }
  split; [reflexivity |]. split; [now apply mutation_lines_length |].
  induction Hwt as [| r rs Hr _ IH]; simpl; constructor; [| exact IH].
  split.
  - rewrite length_map. now apply substitutes_in_alphabet.
  - apply List.Forall_forall. intros line Hline.
    apply in_map_iff in Hline as (aa & <- & Haa).
    apply substitutes_spec in Haa as [Hin Hne].
    exists aa. repeat split; try assumption.
    unfold mutation_line, mutation_code.
    now rewrite !append_assoc.
Qed.

Lemma mutation_list_has_19_lines_per_residue_witness :
  exists blocks,
    written_list [Residue "A" "214" "E"] (Demo.world_of [])
    = Some (join_lines (concat blocks))
    /\ length (concat blocks) = 19 * 1
    /\ Forall2 (fun r block => length block = 19
                               /\ Forall (line_of_residue r) block)
               [Residue "A" "214" "E"] blocks.
Proof.
  apply (mutation_list_has_19_lines_per_residue [Residue "A" "214" "E"]).
  constructor; [simpl; auto 10 | constructor].
Defined.

(** C1 fails as stated: [main] accepts any single letter as wild type, and a
    letter outside the alphabet excludes nothing, so its residue contributes
    20 lines.  With one such residue the list has 20 lines (and the
    generator raises after writing it); with nineteen of them the generator
    completes and the list has 380 lines, not 361. *)
Lemma mutation_list_count_counterexample :
  parse_residue "A:214:B" = Some (Residue "A" "214" "B")
  /\ length (mutation_lines [Residue "A" "214" "B"]) <> 19 * 1
  /\ (let residues := repeat (Residue "A" "214" "B") 19 in
      fst (make_mutation_list residues (Demo.world_of [])) = Ret tt
      /\ length residues = 19
      /\ length (mutation_lines residues) = 380).
Proof.
  split; [reflexivity |]. split; [discriminate |]. cbn zeta.
  rewrite make_mutation_list_run. vm_compute. auto.
Qed.

(** C7: [make_mutation_list] raises exactly when the number of generated
    lines is not a multiple of 19, and then the exception is its
    [ValueError]; when the number is a multiple of 19 it returns. *)
Theorem generator_raises_iff_not_multiple_of_19 residues w :
  let num_lines := length (mutation_lines residues) in
  ((exists e, fst (make_mutation_list residues w) = Raise e)
   <-> num_lines mod 19 <> 0)
  /\ (num_lines mod 19 <> 0 ->
      fst (make_mutation_list residues w)
      = Raise (ValueError ("Number of mutations (" +:+ pretty num_lines
                           +:+ ") is not correct.")))
  /\ (num_lines mod 19 = 0 -> fst (make_mutation_list residues w) = Ret tt).
Proof.
  cbn zeta. rewrite make_mutation_list_run. cbn zeta.
  destruct (length (mutation_lines residues) mod 19 =? 0) eqn:E; cbn [negb fst].
  - apply Nat.eqb_eq in E. rewrite E.
    split; [| split]; [| congruence | reflexivity].
    split; [intros [e He]; discriminate | congruence].
  - apply Nat.eqb_neq in E.
    split; [| split]; [| reflexivity | congruence].
    split; [intros _; exact E | intros _; eauto].
Qed.

(** Both sides of C7 occur. *)
Example generator_raises_on_20_lines :
  fst (make_mutation_list [Residue "A" "214" "B"] (Demo.world_of []))
  = Raise (ValueError "Number of mutations (20) is not correct.").
Proof. rewrite make_mutation_list_run. reflexivity. Qed.

Example generator_returns_on_19_lines :
  fst (make_mutation_list [Residue "A" "214" "E"] (Demo.world_of [])) = Ret tt.
Proof. rewrite make_mutation_list_run. reflexivity. Qed.

(** C8: when [make_mutation_list] raises, the mutation list file has
    already been written with all the generated lines, whose number is not
    a multiple of 19: the file system is the one before the call with this
    file replaced, and differs from it unless the file already held these
    lines.  Nothing else of the world has changed. *)
Theorem list_is_written_before_the_check residues w e :
  fst (make_mutation_list residues w) = Raise e ->
  let w' := snd (make_mutation_list residues w) in
  let content := join_lines (mutation_lines residues) in
  length (mutation_lines residues) mod 19 <> 0
  /\ files w' !! "individual_list.txt" = Some content
  /\ files w' = <["individual_list.txt" := content]> (files w)
  /\ (files w !! "individual_list.txt" <> Some content -> files w' <> files w)
  /\ runs w' = runs w /\ trace w' = trace w.
Proof.
  rewrite make_mutation_list_run. cbn zeta.
  destruct (length (mutation_lines residues) mod 19 =? 0) eqn:E;
    cbn [negb fst snd files runs trace]; [discriminate |].
  intros _. apply Nat.eqb_neq in E.
  split; [exact E |]. split; [apply lookup_insert_eq |].
  split; [reflexivity |]. split; [| auto].
  intros Hold Heq. apply Hold. rewrite <- Heq. apply lookup_insert_eq.
Qed.

Lemma list_is_written_before_the_check_witness :
  let residues := [Residue "A" "214" "B"] in
  let w := Demo.world_of [] in
  let w' := snd (make_mutation_list residues w) in
  let content := join_lines (mutation_lines residues) in
  length (mutation_lines residues) mod 19 <> 0
  /\ files w' !! "individual_list.txt" = Some content
  /\ files w' = <["individual_list.txt" := content]> (files w)
  /\ (files w !! "individual_list.txt" <> Some content -> files w' <> files w)
  /\ runs w' = runs w /\ trace w' = trace w.
Proof.
  apply (list_is_written_before_the_check [Residue "A" "214" "B"]
           (Demo.world_of [])
           (ValueError "Number of mutations (20) is not correct.")).
  rewrite make_mutation_list_run. reflexivity.
Defined.

End MutationList.

(** ** Round trip of the mutation list *)

Section RoundTrip.

Lemma string_forall_app p a b :
  string_forall p (a +:+ b) = string_forall p a && string_forall p b.
Proof.
  induction a as [| x a IH]; [reflexivity |].
  rewrite append_cons. cbn [string_forall]. rewrite IH. apply andb_assoc.
Qed.

Lemma universal_newlines_id s :
  string_forall (fun c => negb (Ascii.eqb c CR)) s = true ->
  universal_newlines false s = s.
Proof.
  induction s as [| c s IH]; [reflexivity |].
  cbn [string_forall universal_newlines]. intros Hs.
  apply andb_true_iff in Hs as [Hc Hs]. apply negb_true_iff in Hc.
  rewrite Hc. destruct (Ascii.eqb c LF) eqn:E.
  - apply Ascii.eqb_eq in E. subst c. now rewrite IH.
  - now rewrite IH.
Qed.

Lemma split_lines_line body rest :
  string_forall (fun c => negb (Ascii.eqb c LF)) body = true ->
  split_lines ((body +:+ nl) +:+ rest) = (body +:+ nl) :: split_lines rest.
Proof.
  induction body as [| c body IH]; [reflexivity |].
  cbn [string_forall]. intros Hb.
  apply andb_true_iff in Hb as [Hc Hb]. apply negb_true_iff in Hc.
  rewrite !append_cons. cbn [split_lines]. rewrite Hc.
  now rewrite (IH Hb).
Qed.

Lemma no_linebreak_no_LF s :
  string_forall no_linebreak s = true ->
  string_forall (fun c => negb (Ascii.eqb c LF)) s = true.
Proof.
  induction s as [| c s IH]; [reflexivity |].
  cbn [string_forall]. unfold no_linebreak at 1.
  intros Hs. apply andb_true_iff in Hs as [Hc Hs].
  apply andb_true_iff in Hc as [Hc _]. now rewrite Hc, IH.
Qed.

Lemma no_linebreak_no_CR s :
  string_forall no_linebreak s = true ->
  string_forall (fun c => negb (Ascii.eqb c CR)) s = true.
Proof.
  induction s as [| c s IH]; [reflexivity |].
  cbn [string_forall]. unfold no_linebreak at 1.
  intros Hs. apply andb_true_iff in Hs as [Hc Hs].
  apply andb_true_iff in Hc as [_ Hc]. now rewrite Hc, IH.
Qed.

(** Lines made of a body without line breaks and a line feed are read back
    as they were written. *)
Lemma read_lines_join_lines bodies :
  Forall (fun body => string_forall no_linebreak body = true) bodies ->
  read_lines (join_lines (map (fun body => body +:+ nl) bodies))
  = map (fun body => body +:+ nl) bodies.
Proof.
  intros Hb. unfold read_lines.
  rewrite universal_newlines_id.
  - induction Hb as [| body bodies Hbody _ IH]; [reflexivity |].
    cbn [map join_lines]. rewrite split_lines_line, IH; [reflexivity |].
    now apply no_linebreak_no_LF.
  - induction Hb as [| body bodies Hbody _ IH]; [reflexivity |].
    cbn [map join_lines]. rewrite !string_forall_app, IH.
    rewrite (no_linebreak_no_CR _ Hbody). reflexivity.
Qed.

Lemma lstrip_by_start p c s :
  p c = false -> lstrip_by p (String c s) = String c s.
Proof. intros Hc. cbn [lstrip_by]. now rewrite Hc. Qed.

Lemma append_nonempty a b : b <> "" -> a +:+ b <> "".
Proof. destruct a; [auto | rewrite append_cons; discriminate]. Qed.

Lemma rstrip_by_app p a b :
  rstrip_by p b <> "" -> rstrip_by p (a +:+ b) = a +:+ rstrip_by p b.
Proof.
  intros Hb. induction a as [| x a IH]; [reflexivity |].
  rewrite !append_cons. cbn [rstrip_by]. rewrite IH.
  pose proof (append_nonempty a _ Hb) as Hne.
  destruct (a +:+ rstrip_by p b); [contradiction | reflexivity].
Qed.

Lemma amino_acid_letter aa :
  In aa amino_acids ->
  exists c, aa = String c "" /\ is_space c = false
            /\ no_linebreak c = true /\ Ascii.eqb ";" c = false.
Proof.
  intros Hin. simpl in Hin.
  repeat (destruct Hin as [<- | Hin];
          [eexists; repeat split; reflexivity |]).
  destruct Hin.
Qed.

(** Stripping one generated line gives back its code. *)
Lemma strip_mutation_line r aa :
  plain_residue r = true -> In aa amino_acids ->
  rstrip_semicolon (strip (mutation_line r aa)) = mutation_code r aa
  /\ nonempty (mutation_code r aa) = true
  /\ string_forall no_linebreak (mutation_code r aa +:+ ";") = true.
Proof.
  unfold plain_residue, mutation_line, mutation_code. intros Hr Haa.
  apply andb_true_iff in Hr as [Hlb Hstart].
  destruct (amino_acid_letter aa Haa) as (c & -> & Hsp & Hnl & Hsemi).
  rewrite <- !append_assoc.
  rewrite <- !append_assoc in Hlb, Hstart.
  set (prefix := (wt r +:+ chain r) +:+ pos r) in *.
  rewrite !append_assoc.
  change (String c "" +:+ ";" +:+ nl) with (String c (String ";" nl)).
  split; [| split].
  - unfold strip, rstrip_semicolon.
    assert (lstrip_by is_space (prefix +:+ String c (String ";" nl))
            = prefix +:+ String c (String ";" nl)) as ->.
    { destruct prefix as [| x prefix'].
      - apply lstrip_by_start, Hsp.
      - rewrite append_cons. apply lstrip_by_start.
        now apply negb_true_iff. }
    rewrite rstrip_by_app by (cbn; discriminate).
    change (rstrip_by is_space (String c (String ";" nl)))
      with (String c (String ";" "")).
    rewrite rstrip_by_app.
    + cbn [rstrip_by]. change (Ascii.eqb ";" ";") with true.
      cbn iota. now rewrite Hsemi.
    + cbn [rstrip_by]. change (Ascii.eqb ";" ";") with true.
      cbn iota. rewrite Hsemi. discriminate.
  - destruct prefix; reflexivity.
  - rewrite !string_forall_app, Hlb. cbn [string_forall].
    rewrite Hnl. reflexivity.
Qed.

Lemma mutation_lines_of_codes residues :
  mutation_lines residues
  = map (fun code => (code +:+ ";") +:+ nl) (mutation_codes residues).
Proof.
  unfold mutation_lines, mutation_codes.
  induction residues as [| r rs IH]; [reflexivity |].
  cbn [flat_map]. rewrite map_app, IH, map_map. f_equal.
  apply map_ext. intros aa. unfold mutation_line. now rewrite append_assoc.
Qed.

Lemma mutation_codes_plain residues :
  Forall (fun r => plain_residue r = true) residues ->
  Forall (fun code => rstrip_semicolon (strip ((code +:+ ";") +:+ nl)) = code
                      /\ nonempty code = true
                      /\ string_forall no_linebreak (code +:+ ";") = true)
         (mutation_codes residues).
Proof.
  unfold mutation_codes.
  induction 1 as [| r rs Hr _ IH]; [constructor |].
  cbn [flat_map]. apply Forall_app. split; [| exact IH].
  apply List.Forall_forall. intros code Hcode.
  apply in_map_iff in Hcode as (aa & <- & Haa).
  apply substitutes_spec in Haa as [Haa _].
  destruct (strip_mutation_line r aa Hr Haa) as (H1 & H2 & H3).
  unfold mutation_line in H1. rewrite append_assoc. auto.
Qed.

(** C9, as amended: when no residue's [{wt}{chain}{pos}] text holds a line
    feed or carriage return or starts with whitespace, and the generator
    completes without raising, [get_mutation_names] reads back from the
    written file exactly the generated codes, in generation order: the
    written lines without their semicolon and end of line. *)
Theorem mutation_list_round_trip residues w :
  Forall (fun r => plain_residue r = true) residues ->
  fst (make_mutation_list residues w) = Ret tt ->
  let w' := snd (make_mutation_list residues w) in
  mutation_lines residues
  = map (fun code => (code +:+ ";") +:+ nl) (mutation_codes residues)
  /\ get_mutation_names "individual_list.txt" w'
     = (Ret (mutation_codes residues), w').
Proof.
  intros Hplain _ w'. split; [apply mutation_lines_of_codes |].
  assert (files w' !! "individual_list.txt"
          = Some (join_lines (mutation_lines residues))) as Hfile
    by apply written_list_eq.
  unfold get_mutation_names, bind, open_read, ret. rewrite Hfile.
  f_equal. f_equal.
  rewrite mutation_lines_of_codes.
  pose proof (mutation_codes_plain residues Hplain) as Hcodes.
  set (codes := mutation_codes residues) in *. clearbody codes.
  replace (map (fun code => (code +:+ ";") +:+ nl) codes)
    with (map (fun body => body +:+ nl) (map (fun code => code +:+ ";") codes))
    by (rewrite map_map; reflexivity).
  rewrite read_lines_join_lines.
  - rewrite !map_map.
    induction Hcodes as [| code codes (Hs & Hn & _) _ IH]; [reflexivity |].
    cbn [map List.filter]. rewrite Hs, Hn, IH. reflexivity.
  - apply List.Forall_map. eapply List.Forall_impl; [| exact Hcodes].
    intros code (_ & _ & Hlb). exact Hlb.
Qed.

Lemma mutation_list_round_trip_witness :
  let residues := [Residue "A" "214" "E"] in
  let w' := snd (make_mutation_list residues (Demo.world_of [])) in
  mutation_lines residues
  = map (fun code => (code +:+ ";") +:+ nl) (mutation_codes residues)
  /\ get_mutation_names "individual_list.txt" w'
     = (Ret (mutation_codes residues), w').
Proof.
  apply (mutation_list_round_trip [Residue "A" "214" "E"] (Demo.world_of [])).
  - constructor; [reflexivity | constructor].
  - rewrite make_mutation_list_run. reflexivity.
Defined.

(** C9 fails as stated: [main] does not check the chain identifier, and one
    that holds a line feed is written into every line of its residue.  The
    generator completes (19 lines), and the reader then finds 38 names,
    none of them a generated code. *)
Lemma mutation_list_round_trip_counterexample :
  let residues := [Residue ("A" +:+ nl) "1" "E"] in
  let w' := snd (make_mutation_list residues (Demo.world_of [])) in
  parse_residue ("A" +:+ nl +:+ ":1:E") = Some (Residue ("A" +:+ nl) "1" "E")
  /\ fst (make_mutation_list residues (Demo.world_of [])) = Ret tt
  /\ length (mutation_codes residues) = 19
  /\ (exists names, fst (get_mutation_names "individual_list.txt" w') = Ret names
                    /\ length names = 38
                    /\ names <> mutation_codes residues).
Proof.
  cbn zeta. split; [reflexivity |]. split; [reflexivity |].
  split; [reflexivity |].
  eexists. split; [vm_compute; reflexivity |].
  split; [reflexivity | discriminate].
Qed.

End RoundTrip.

(** ** Sorting with a key *)

Section SortedFacts.
Context {A K : Type} (ltb : K -> K -> bool) (key : A -> K).

Hypothesis ltb_trans :
  forall x y z, ltb y x = false -> ltb z y = false -> ltb z x = false.
Hypothesis ltb_asym : forall x y, ltb x y = true -> ltb y x = false.

Lemma insert_sorted_perm x l :
  Permutation (insert_sorted ltb key x l) (x :: l).
Proof.
  induction l as [| y l IH]; cbn [insert_sorted]; [reflexivity |].
  destruct (ltb (key y) (key x)); [| reflexivity].
  rewrite IH. apply perm_swap.
Qed.

Lemma sorted_perm l : Permutation (sorted ltb key l) l.
Proof.
  induction l as [| x l IH]; cbn [sorted]; [reflexivity |].
  rewrite insert_sorted_perm. now constructor.
Qed.

Lemma insert_sorted_ordered x l :
  StronglySorted (key_le ltb key) l -> StronglySorted (key_le ltb key) (insert_sorted ltb key x l).
Proof.
  induction 1 as [| y l Hl IH Hy]; cbn [insert_sorted].
  - repeat constructor.
  - destruct (ltb (key y) (key x)) eqn:E.
    + constructor; [exact IH |].
      apply List.Forall_forall. intros z Hz.
      apply (Permutation_in _ (insert_sorted_perm x l)) in Hz.
      destruct Hz as [<- | Hz].
      * apply ltb_asym, E.
      * rewrite List.Forall_forall in Hy. now apply Hy.
    + constructor; [now constructor |].
      constructor; [exact E |].
      apply List.Forall_forall. intros z Hz.
      rewrite List.Forall_forall in Hy. specialize (Hy z Hz).
      unfold key_le in *. eapply ltb_trans; eassumption.
Qed.

Lemma sorted_ordered l : StronglySorted (key_le ltb key) (sorted ltb key l).
Proof.
  induction l as [| x l IH]; cbn [sorted]; [constructor |].
  now apply insert_sorted_ordered.
Qed.

(** Stability: elements that are not below one another keep their order. *)
Lemma insert_sorted_filter (p : A -> bool) x l :
  (forall a b, p a = true -> p b = true -> ltb (key a) (key b) = false) ->
  List.filter p (insert_sorted ltb key x l) = List.filter p (x :: l).
Proof.
  intros Hp. induction l as [| y l IH]; cbn [insert_sorted]; [reflexivity |].
  destruct (ltb (key y) (key x)) eqn:E; [| reflexivity].
  cbn [List.filter] in *. rewrite IH.
  destruct (p x) eqn:Ex, (p y) eqn:Ey; try reflexivity.
  rewrite (Hp y x Ey Ex) in E. discriminate.
Qed.

Lemma sorted_stable (p : A -> bool) l :
  (forall a b, p a = true -> p b = true -> ltb (key a) (key b) = false) ->
  List.filter p (sorted ltb key l) = List.filter p l.
Proof.
  intros Hp. induction l as [| x l IH]; cbn [sorted]; [reflexivity |].
  rewrite insert_sorted_filter by exact Hp.
  cbn [List.filter]. now rewrite IH.
Qed.

End SortedFacts.

(** A list in which no key is below the key before it comes back
    unchanged, whether or not [<] orders the keys. *)
Lemma sorted_of_a_run {A K} (ltb : K -> K -> bool) (key : A -> K) l :
  (forall a b rest, (exists before, l = before ++ a :: b :: rest)%list ->
                    ltb (key b) (key a) = false) ->
  sorted ltb key l = l.
Proof.
  induction l as [| x l IH]; intros Hrun; [reflexivity |].
  cbn [sorted]. rewrite IH.
  - destruct l as [| y l]; [reflexivity |]. cbn [insert_sorted].
    rewrite (Hrun x y l); [reflexivity |]. now exists [].
  - intros a b rest [before ->]. apply (Hrun a b rest).
    now exists (x :: before).
Qed.

(** The same when [<] orders only some of the keys, as with floats, where
    NaN has no place in the order: lists without such keys are sorted. *)
Section SortedOn.
Context {A K : Type} (ltb : K -> K -> bool) (key : A -> K) (ordered : K -> Prop).

Hypothesis ltb_trans :
  forall x y z, ordered x -> ordered y -> ordered z ->
                ltb y x = false -> ltb z y = false -> ltb z x = false.
Hypothesis ltb_asym :
  forall x y, ordered x -> ordered y -> ltb x y = true -> ltb y x = false.

Lemma insert_sorted_ordered_on x l :
  ordered (key x) -> Forall (fun a => ordered (key a)) l ->
  StronglySorted (key_le ltb key) l ->
  StronglySorted (key_le ltb key) (insert_sorted ltb key x l).
Proof.
  intros Hx Hl Hs. induction Hs as [| y l Hs IH Hy]; cbn [insert_sorted].
  - repeat constructor.
  - pose proof (List.Forall_inv Hl) as Hy0.
    pose proof (List.Forall_inv_tail Hl) as Hl0.
    destruct (ltb (key y) (key x)) eqn:E.
    + constructor; [now apply IH |].
      apply List.Forall_forall. intros z Hz.
      apply (Permutation_in _ (insert_sorted_perm ltb key x l)) in Hz.
      destruct Hz as [<- | Hz].
      * now apply ltb_asym.
      * rewrite List.Forall_forall in Hy. now apply Hy.
    + constructor; [now constructor |].
      constructor; [exact E |].
      apply List.Forall_forall. intros z Hz.
      rewrite List.Forall_forall in Hy. specialize (Hy z Hz).
      rewrite List.Forall_forall in Hl0. specialize (Hl0 z Hz).
      unfold key_le in *. eapply (ltb_trans _ (key y)); eassumption.
Qed.

Lemma sorted_ordered_on l :
  Forall (fun a => ordered (key a)) l ->
  StronglySorted (key_le ltb key) (sorted ltb key l).
Proof.
  induction l as [| x l IH]; cbn [sorted]; intros Hl; [constructor |].
  pose proof (List.Forall_inv Hl) as Hx.
  pose proof (List.Forall_inv_tail Hl) as Hl0.
  apply insert_sorted_ordered_on; [exact Hx | | now apply IH].
  apply List.Forall_forall. intros a Ha.
  apply (Permutation_in _ (sorted_perm ltb key l)) in Ha.
  rewrite List.Forall_forall in Hl0. now apply Hl0.
Qed.

End SortedOn.

Lemma StronglySorted_weaken {A} (R R' : A -> A -> Prop) l :
  (forall a b, R a b -> R' a b) -> StronglySorted R l -> StronglySorted R' l.
Proof.
  intros HR. induction 1 as [| x l Hl IH Hx]; constructor; [exact IH |].
  eapply List.Forall_impl; [| exact Hx]. intros b. apply HR.
Qed.

Lemma StronglySorted_weaken_on {A} (R R' : A -> A -> Prop) l :
  (forall a b, In a l -> In b l -> R a b -> R' a b) ->
  StronglySorted R l -> StronglySorted R' l.
Proof.
  intros HR Hs. induction Hs as [| x l Hl IH Hx]; constructor.
  - apply IH. intros a b Ha Hb. apply HR; now right.
  - apply List.Forall_forall. intros b Hb.
    rewrite List.Forall_forall in Hx.
    apply HR; [now left | now right | now apply Hx].
Qed.

Lemma sorted_by_file_key l :
  StronglySorted (fun a b => (file_key a <= file_key b)%Z)
                 (sorted Z.ltb file_key l).
Proof.
  eapply StronglySorted_weaken; [| apply (sorted_ordered Z.ltb file_key)].
  - intros a b Hab. unfold key_le in Hab. now apply Z.ltb_ge in Hab.
  - intros x y z H1 H2. apply Z.ltb_ge in H1, H2. apply Z.ltb_ge. lia.
  - intros x y Hxy. apply Z.ltb_lt in Hxy. apply Z.ltb_ge. lia.
Qed.

(** ** The file renamer *)

Section FileKey.

Lemma rev_onto_app acc a b :
  rev_onto acc (a +:+ b) = rev_onto (rev_onto acc a) b.
Proof.
  revert acc. induction a as [| x a IH]; intros acc; [reflexivity |].
  rewrite append_cons. cbn [rev_onto]. apply IH.
Qed.

Lemma rev_onto_rev acc s : rev_onto acc s = rev s +:+ acc.
Proof.
  unfold rev. revert acc. induction s as [| x s IH]; intros acc; [reflexivity |].
  cbn [rev_onto]. rewrite (IH (String x acc)), (IH (String x "")).
  now rewrite append_assoc.
Qed.

Lemma rev_app a b : rev (a +:+ b) = rev b +:+ rev a.
Proof. unfold rev at 1. rewrite rev_onto_app. apply rev_onto_rev. Qed.

Lemma rev_involutive s : rev (rev s) = s.
Proof.
  induction s as [| x s IH]; [reflexivity |].
  change (String x s) with (String x "" +:+ s) at 1.
  rewrite rev_app, rev_app, IH. reflexivity.
Qed.

Lemma string_forall_rev p s : string_forall p (rev s) = string_forall p s.
Proof.
  induction s as [| x s IH]; [reflexivity |].
  change (String x s) with (String x "" +:+ s) at 1.
  rewrite rev_app, string_forall_app, IH. cbn [rev rev_onto string_forall].
  rewrite andb_true_r. apply andb_comm.
Qed.

Lemma span_run p a c rest :
  string_forall p a = true -> p c = false ->
  span p (a +:+ String c rest) = (a, String c rest).
Proof.
  intros Ha Hc. induction a as [| x a IH].
  - change ("" +:+ String c rest) with (String c rest).
    cbn [span]. now rewrite Hc.
  - cbn [string_forall] in Ha. apply andb_true_iff in Ha as [Hx Ha].
    rewrite append_cons. cbn [span]. now rewrite Hx, (IH Ha).
Qed.

(** The key of a name that ends with an underscore, digits and [.pdb] is the
    number those digits spell. *)
Lemma file_key_numbered stem digits :
  digits <> "" -> string_forall is_digit digits = true ->
  file_key ((stem +:+ "_") +:+ digits +:+ ".pdb")
  = Z.of_N (int_of_digits digits).
Proof.
  intros Hne Hd. unfold file_key.
  assert (rev ((stem +:+ "_") +:+ digits +:+ ".pdb")
          = String "b" (String "d" (String "p" (String "."
              (rev digits +:+ String "_" (rev stem)))))) as ->.
  { rewrite !rev_app, append_assoc. reflexivity. }
  change (Ascii.eqb "b" LF) with false. cbn iota.
  rewrite span_run; [| now rewrite string_forall_rev | reflexivity].
  rewrite rev_involutive.
  destruct (rev digits) eqn:E; [| reflexivity].
  apply (f_equal rev) in E. rewrite rev_involutive in E. contradiction.
Qed.

(** Every other name has a key of at least -1; -1 is the key of the names
    without a numeric suffix. *)
Lemma file_key_lower filename : (-1 <= file_key filename)%Z.
Proof.
  unfold file_key.
  repeat match goal with
         | |- context [match ?x with _ => _ end] => destruct x
         end; lia.
Qed.

Example file_key_with_number : file_key "foo_123.pdb" = 123%Z.
Proof. reflexivity. Qed.

Example file_key_without_number : file_key "foo.pdb" = (-1)%Z.
Proof. reflexivity. Qed.

End FileKey.

Lemma map_fst_combine {A B} (l : list A) (l' : list B) :
  length l = length l' -> map fst (combine l l') = l.
Proof.
  revert l'. induction l as [| a l IH]; intros [| b l'] Hlen;
    try discriminate; [reflexivity |].
  cbn [combine map fst]. f_equal. apply IH. now injection Hlen.
Qed.

Lemma map_snd_combine {A B} (l : list A) (l' : list B) :
  length l = length l' -> map snd (combine l l') = l'.
Proof.
  revert l'. induction l as [| a l IH]; intros [| b l'] Hlen;
    try discriminate; [reflexivity |].
  cbn [combine map snd]. f_equal. apply IH. now injection Hlen.
Qed.

Section Renaming.
Context `{Platform}.

Lemma rename_step dst f w content :
  files w !! f = Some content ->
  (print ("Renaming " +:+ f +:+ " -> " +:+ dst) ;; os_rename f dst) w
  = (Ret tt, World (<[dst := content]> (delete f (files w))) (runs w)
                   (trace w ++ rename_events (f, dst))).
Proof.
  intros Hc. unfold bind, print, emit, os_rename. simpl. rewrite Hc.
  unfold rename_events. simpl. now rewrite <- app_assoc.
Qed.

(** The renaming loop on files that exist and are pairwise distinct: every
    pair is renamed, in order. *)
Lemma rename_loop (new_name : string -> string) pairs w :
  List.NoDup (map fst pairs) ->
  (forall f, In f (map fst pairs) -> is_Some (files w !! f)) ->
  for_each pairs
    (fun '(pdb_file, mutation) =>
       print ("Renaming " +:+ pdb_file +:+ " -> " +:+ new_name mutation) ;;
       os_rename pdb_file (new_name mutation)) w
  = let moves := map (fun '(f, m) => (f, new_name m)) pairs in
    (Ret tt, World (fold_left rename_in moves (files w)) (runs w)
                   (trace w ++ flat_map rename_events moves)).
Proof.
  revert w. induction pairs as [| [f m] pairs IH]; intros w Hnd Hex.
  - cbn. rewrite app_nil_r. now destruct w.
  - cbn [map fst] in Hnd, Hex. apply List.NoDup_cons_iff in Hnd as [Hf Hnd].
    destruct (Hex f (or_introl eq_refl)) as [content Hc].
    cbn [for_each]. unfold bind at 1. cbn beta iota.
    rewrite (rename_step _ _ _ _ Hc).
    rewrite IH.
    + cbn zeta. simpl files. simpl runs. simpl trace.
      cbn [map fold_left flat_map].
      assert (rename_in (files w) (f, new_name m)
              = <[new_name m := content]> (delete f (files w))) as ->
        by (unfold rename_in; cbn [fst snd]; now rewrite Hc).
      rewrite <- !app_assoc. reflexivity.
    + exact Hnd.
    + intros f' Hf'. simpl files.
      destruct (decide (new_name m = f')) as [-> | Hne].
      * rewrite lookup_insert_eq. eauto.
      * rewrite lookup_insert_ne by exact Hne.
        rewrite lookup_delete_ne by (intros ->; contradiction).
        apply Hex. now right.
Qed.


End Renaming.


(** ** Running computations *)

Lemma bind_Ret {A B} (c : M A) (k : A -> M B) w a w1 :
  c w = (Ret a, w1) -> (x <- c ;; k x) w = k a w1.
Proof. intros E. unfold bind. now rewrite E. Qed.

Lemma bind_Raise {A B} (c : M A) (k : A -> M B) w e w1 :
  c w = (Raise e, w1) -> (x <- c ;; k x) w = (Raise e, w1).
Proof. intros E. unfold bind. now rewrite E. Qed.

Lemma emit_run e w :
  emit e w = (Ret tt, World (files w) (runs w) (trace w ++ [e])).
Proof. reflexivity. Qed.

Lemma execs_app a b : execs (a ++ b) = (execs a ++ execs b)%list.
Proof. unfold execs. apply flat_map_app. Qed.

Lemma sleeps_app a b : sleeps (a ++ b) = (sleeps a ++ sleeps b)%list.
Proof. unfold sleeps. apply flat_map_app. Qed.

(** ** The stability runner *)

Section Stability.
Context `{Platform}.

(** One invocation: the exception of [subprocess.run] if it raises one,
    otherwise the finished process. *)
Lemma run_foldx_command_run cmd w :
  let outcome := foldx cmd (runs w) (files w) in
  run_foldx_command cmd w
  = match run_error cmd (runs w) (files w) with
    | Some e =>
        (Raise e,
         World (snd outcome) (S (runs w)) (trace w ++ [ExecRaised cmd e]))
    | None =>
        (Ret (fst outcome),
         World (snd outcome) (S (runs w))
               (trace w ++ [Exec cmd (returncode (fst outcome))]))
    end.
Proof.
  unfold run_foldx_command.
  destruct (foldx cmd (runs w) (files w)) as [result fs'].
  now destruct (run_error cmd (runs w) (files w)).
Qed.

(** The attempts for one file: the loop ends by a success, by exhaustion,
    or by an exception of [subprocess.run]. *)
Lemma stability_attempts_run pdb_file max_retries retry_delay attempt remaining w :
  attempt + remaining = max_retries ->
  exists outcome w' evs rcs,
    stability_attempts pdb_file max_retries retry_delay attempt remaining w
    = (outcome, w')
    /\ trace w' = (trace w ++ evs)%list
    /\ execs evs = map (pair (stability_cmd pdb_file)) rcs
    /\ match outcome with
       | Ret success =>
           attempts_of_one_file remaining rcs
           /\ (success = true <-> In 0%Z rcs)
           /\ sleeps evs = repeat retry_delay (length rcs - 1)
       | Raise e =>
           attempts_cut_short remaining rcs
           /\ sleeps evs = repeat retry_delay (length rcs)
           /\ exists k fs, run_error (stability_cmd pdb_file) k fs = Some e
       end.
Proof.
  revert attempt w.
  induction remaining as [| remaining IH]; intros attempt w Hsum.
  - exists (Ret false), w, [], []. cbn [stability_attempts ret].
    rewrite app_nil_r.
    split; [reflexivity |]. split; [reflexivity |]. split; [reflexivity |].
    split; [| split; [| reflexivity]].
    + split; [cbn; lia |]. right. split; [reflexivity | constructor].
    + split; [discriminate | intros []].
  - cbn [stability_attempts]. unfold bind at 1.
    rewrite run_foldx_command_run. cbn zeta.
    destruct (run_error (stability_cmd pdb_file) (runs w) (files w))
      as [e |] eqn:Eerr.
    { eexists (Raise e), _, [_], []. split; [reflexivity |].
      split; [reflexivity |]. split; [reflexivity |].
      split; [| split; [reflexivity | eauto]].
      split; [cbn; lia | constructor]. }
    set (result := fst (foldx (stability_cmd pdb_file) (runs w) (files w))).
    set (w1 := World _ (S (runs w)) _).
    destruct (returncode result =? 0)%Z eqn:Erc.
    + apply Z.eqb_eq in Erc.
      unfold console_log. rewrite (bind_Ret _ _ _ _ _ (emit_run _ w1)).
      eexists (Ret true), _, [_; _], [returncode result].
      split; [reflexivity |]. split; [| split; [| split; [| split]]].
      * subst w1. simpl trace. now rewrite <- app_assoc.
      * reflexivity.
      * split; [cbn; lia |]. left. exists []. rewrite Erc.
        split; [reflexivity | constructor].
      * rewrite Erc. cbn. tauto.
      * reflexivity.
    + apply Z.eqb_neq in Erc.
      unfold console_print at 1. rewrite (bind_Ret _ _ _ _ _ (emit_run _ w1)).
      destruct (attempt <? max_retries - 1) eqn:Elast.
      * apply Nat.ltb_lt in Elast.
        unfold console_print, sleep.
        rewrite (bind_Ret _ _ _ tt _
                   (bind_Ret _ _ _ _ _ (emit_run _ _))).
        match goal with
        | |- context [stability_attempts _ _ _ _ _ ?w3] =>
            destruct (IH (S attempt) w3 ltac:(lia))
              as (outcome & w' & evs & rcs & E & Ht & Hx & Hout)
        end.
        eexists outcome, w', _, (returncode result :: rcs).
        split; [exact E |]. split.
        { rewrite Ht. subst w1. simpl trace. rewrite <- !app_assoc.
          reflexivity. }
        split; [rewrite !execs_app, Hx; reflexivity |].
        destruct outcome as [success | e].
        -- destruct Hout as ((Hlen & Hshape) & Hs & Hsl).
           assert (0 < length rcs) as Hpos.
           { destruct Hshape as [(failed & -> & _) | [Hl _]];
               [rewrite length_app; cbn; lia | lia]. }
           split; [| split].
           ++ split; [cbn; lia |].
              destruct Hshape as [(failed & -> & Hf) | [Hl Hf]].
              ** left. exists (returncode result :: failed).
                 split; [reflexivity | now constructor].
              ** right. split; [cbn; lia | now constructor].
           ++ rewrite Hs. cbn [In]. split; [tauto |].
              intros [E0 | Hin]; [congruence | exact Hin].
           ++ rewrite !sleeps_app, Hsl. cbn [sleeps flat_map app length].
              destruct (length rcs) as [| n]; [lia |].
              cbn [Nat.sub repeat]. now rewrite Nat.sub_0_r.
        -- destruct Hout as ((Hlen & Hf) & Hsl & Herr).
           split; [| split; [| exact Herr]].
           ++ split; [cbn; lia | now constructor].
           ++ rewrite !sleeps_app, Hsl. reflexivity.
      * apply Nat.ltb_ge in Elast.
        rewrite (bind_Ret _ _ _ tt _ eq_refl).
        assert (remaining = 0) as -> by lia.
        cbn [stability_attempts ret].
        eexists (Ret false), _, [_; _], [returncode result].
        split; [reflexivity |]. split.
        { subst w1. simpl trace. rewrite <- app_assoc. reflexivity. }
        split; [reflexivity |]. split; [| split; [| reflexivity]].
        -- split; [cbn; lia |]. right. split; [reflexivity |].
           now repeat constructor.
        -- cbn [In]. split; [discriminate |]. intros [E0 | []]. congruence.
Qed.

Lemma for_each_console_print (text : string -> string) l w :
  for_each l (fun f => console_print (text f)) w
  = (Ret tt, World (files w) (runs w)
                   (trace w ++ map (fun f => ConsolePrint (text f)) l)).
Proof.
  revert w. induction l as [| f l IH]; intros w.
  - cbn [for_each map ret]. rewrite app_nil_r. now destruct w.
  - cbn [for_each]. unfold console_print at 1.
    rewrite (bind_Ret _ _ _ _ _ (emit_run _ w)), IH. simpl.
    now rewrite <- app_assoc.
Qed.

Lemma execs_console_print (text : string -> string) l :
  execs (map (fun f => ConsolePrint (text f)) l) = [].
Proof. induction l as [| f l IH]; [reflexivity | exact IH]. Qed.

Lemma sleeps_console_print (text : string -> string) l :
  sleeps (map (fun f => ConsolePrint (text f)) l) = [].
Proof. induction l as [| f l IH]; [reflexivity | exact IH]. Qed.

Lemma existsb_zero rcs : existsb (Z.eqb 0) rcs = true <-> In 0%Z rcs.
Proof.
  rewrite existsb_exists. split.
  - intros (rc & Hin & E). apply Z.eqb_eq in E. now subst.
  - intros Hin. exists 0%Z. auto.
Qed.

(** The body of the loop, for one file. *)
Lemma stability_one_run max_retries retry_delay error_files f w :
  exists outcome w' evs rcs,
    stability_one max_retries retry_delay error_files f w = (outcome, w')
    /\ trace w' = (trace w ++ evs)%list
    /\ execs evs = map (pair (stability_cmd f)) rcs
    /\ match outcome with
       | Ret error_files' =>
           attempts_of_one_file max_retries rcs
           /\ error_files'
              = (if existsb (Z.eqb 0) rcs then error_files
                 else (error_files ++ [f])%list)
           /\ sleeps evs = repeat retry_delay (length rcs - 1)
       | Raise e =>
           attempts_cut_short max_retries rcs
           /\ sleeps evs = repeat retry_delay (length rcs)
           /\ exists k fs, run_error (stability_cmd f) k fs = Some e
       end.
Proof.
  unfold stability_one, console_log.
  rewrite (bind_Ret _ _ _ _ _ (emit_run _ w)).
  destruct (stability_attempts_run f max_retries retry_delay 0 max_retries
              (World (files w) (runs w)
                 (trace w ++ [ConsoleLog ("Running stability calculation for: "
                                          +:+ f)]))
              eq_refl)
    as (outcome & w2 & evs2 & rcs & E2 & Ht2 & Hx2 & Hout).
  cbn beta. unfold bind at 1. rewrite E2.
  destruct outcome as [success | e].
  - destruct Hout as (Hshape & Hs & Hsl).
    exists (Ret (if success then error_files else (error_files ++ [f])%list)),
      w2,
      ([ConsoleLog ("Running stability calculation for: " +:+ f)]
       ++ evs2)%list, rcs.
    split; [destruct success; reflexivity |].
    split; [rewrite Ht2; simpl trace; now rewrite <- app_assoc |].
    split; [rewrite execs_app, Hx2; reflexivity |].
    split; [exact Hshape |]. split; [| rewrite sleeps_app, Hsl; reflexivity].
    destruct success.
    + assert (existsb (Z.eqb 0) rcs = true) as ->
        by (apply existsb_zero, Hs; reflexivity).
      reflexivity.
    + destruct (existsb (Z.eqb 0) rcs) eqn:Ez; [| reflexivity].
      apply existsb_zero, Hs in Ez. discriminate.
  - destruct Hout as (Hshape & Hsl & Herr).
    eexists (Raise e), w2,
      ([ConsoleLog ("Running stability calculation for: " +:+ f)]
       ++ evs2)%list, rcs.
    split; [reflexivity |].
    split; [rewrite Ht2; simpl trace; now rewrite <- app_assoc |].
    split; [rewrite execs_app, Hx2; reflexivity |].
    split; [exact Hshape |]. split; [| exact Herr].
    rewrite sleeps_app, Hsl. reflexivity.
Qed.

(** The loop over the matching files. *)
Lemma stability_loop max_retries retry_delay matching error_files w :
  exists outcome w' evs attempts,
    for_fold matching error_files (stability_one max_retries retry_delay) w
    = (outcome, w')
    /\ trace w' = (trace w ++ evs)%list
    /\ execs evs
       = flat_map (fun '(f, rcs) => map (pair (stability_cmd f)) rcs)
                  (combine matching attempts)
    /\ match outcome with
       | Ret error_files' =>
           error_files'
           = (error_files ++ failed_files matching attempts)%list
           /\ length attempts = length matching
           /\ Forall (attempts_of_one_file max_retries) attempts
           /\ sleeps evs
              = flat_map (fun rcs => repeat retry_delay (length rcs - 1))
                         attempts
       | Raise e =>
           exists finished last,
             attempts = (finished ++ [last])%list
             /\ length attempts <= length matching
             /\ Forall (attempts_of_one_file max_retries) finished
             /\ attempts_cut_short max_retries last
             /\ sleeps evs
                = (flat_map (fun rcs => repeat retry_delay (length rcs - 1))
                            finished
                   ++ repeat retry_delay (length last))%list
             /\ exists f k fs,
                  In f matching /\ run_error (stability_cmd f) k fs = Some e
       end.
Proof.
  revert error_files w.
  induction matching as [| f matching IH]; intros error_files w.
  - exists (Ret error_files), w, [], []. cbn [for_fold ret].
    unfold failed_files. cbn. rewrite !app_nil_r.
    repeat split; constructor.
  - cbn [for_fold].
    destruct (stability_one_run max_retries retry_delay error_files f w)
      as (outcome1 & w2 & evs2 & rcs & E2 & Ht2 & Hx2 & Hout1).
    unfold bind at 1. rewrite E2.
    destruct outcome1 as [errs1 | e].
    + destruct Hout1 as (Hshape & -> & Hsl2).
      destruct (IH (if existsb (Z.eqb 0) rcs then error_files
                    else (error_files ++ [f])%list) w2)
        as (outcome & w' & evs & attempts & E & Ht & Hx & Hout).
      exists outcome, w', (evs2 ++ evs)%list, (rcs :: attempts).
      split; [exact E |].
      split; [rewrite Ht, Ht2; now rewrite <- !app_assoc |].
      split; [rewrite !execs_app, Hx2, Hx; reflexivity |].
      destruct outcome as [errs | e].
      * destruct Hout as (-> & Hlen & Hall & Hsl).
        split; [| split; [| split]].
        -- unfold failed_files. cbn [combine List.filter].
           destruct (existsb (Z.eqb 0) rcs); cbn [negb map fst];
             [reflexivity |].
           now rewrite <- app_assoc.
        -- cbn. now rewrite Hlen.
        -- now constructor.
        -- rewrite sleeps_app, Hsl2, Hsl. reflexivity.
      * destruct Hout as (finished & last & -> & Hlen & Hall & Hcut & Hsl
                          & f' & k & fs & Hin & Herr).
        exists (rcs :: finished), last.
        split; [reflexivity |]. split; [cbn in *; lia |].
        split; [now constructor |]. split; [exact Hcut |].
        split; [rewrite sleeps_app, Hsl2, Hsl; cbn [flat_map];
                now rewrite <- app_assoc |].
        exists f', k, fs. split; [now right | exact Herr].
    + destruct Hout1 as (Hcut & Hsl & k & fs & Herr).
      exists (Raise e), w2, evs2, [rcs].
      split; [reflexivity |]. split; [exact Ht2 |].
      split; [cbn [combine]; rewrite combine_nil; cbn [flat_map];
              rewrite Hx2; now rewrite app_nil_r |].
      exists [], rcs. split; [reflexivity |]. split; [cbn; lia |].
      split; [constructor |]. split; [exact Hcut |].
      split; [exact Hsl |].
      exists f, k, fs. split; [now left | exact Herr].
Qed.

(** A batch has no failed file exactly when every file has an attempt with
    exit status 0. *)
Lemma no_failed_files matching attempts :
  length attempts = length matching ->
  failed_files matching attempts = []
  <-> Forall (fun rcs => In 0%Z rcs) attempts.
Proof.
  unfold failed_files. revert attempts.
  induction matching as [| f matching IH]; intros [| rcs attempts] Hlen;
    try discriminate.
  - split; [constructor | reflexivity].
  - cbn [combine List.filter]. injection Hlen as Hlen.
    destruct (existsb (Z.eqb 0) rcs) eqn:Ez; cbn [negb].
    + rewrite (IH attempts Hlen). apply existsb_zero in Ez.
      split; [now constructor | now inversion 1].
    + split; [discriminate |]. inversion 1 as [| ? ? Hin _]; subst.
      apply existsb_zero in Hin. congruence.
Qed.

(** The runner on a batch with at least one file: what the loop did, and
    then the report. *)
Lemma run_foldx_stability_run base_pdb_name max_retries retry_delay w :
  let matching := glob (base_pdb_name +:+ "_Repair*.pdb") (files w) in
  matching <> [] ->
  exists outcome w1 evs attempts,
    for_fold matching [] (stability_one max_retries retry_delay) w
    = (outcome, w1)
    /\ trace w1 = (trace w ++ evs)%list
    /\ execs evs
       = flat_map (fun '(f, rcs) => map (pair (stability_cmd f)) rcs)
                  (combine matching attempts)
    /\ match outcome with
       | Ret error_files =>
           let failed := failed_files matching attempts in
           let report :=
             match failed with
             | [] => [ConsoleLog "[green]All stability calculations finished successfully[/green]"]
             | _ =>
                 ConsolePrint "[red]The following files failed stability calculation after retries:[/red]"
                 :: map (fun f => ConsolePrint ("[red]" +:+ f +:+ "[/red]"))
                        failed
             end in
           run_foldx_stability base_pdb_name max_retries retry_delay w
           = (Ret (Some (match failed with [] => true | _ => false end)),
              World (files w1) (runs w1) (trace w1 ++ report))
           /\ length attempts = length matching
           /\ Forall (attempts_of_one_file max_retries) attempts
           /\ sleeps evs
              = flat_map (fun rcs => repeat retry_delay (length rcs - 1))
                         attempts
       | Raise e =>
           run_foldx_stability base_pdb_name max_retries retry_delay w
           = (Raise e, w1)
           /\ exists finished last,
                attempts = (finished ++ [last])%list
                /\ length attempts <= length matching
                /\ Forall (attempts_of_one_file max_retries) finished
                /\ attempts_cut_short max_retries last
                /\ sleeps evs
                   = (flat_map (fun rcs => repeat retry_delay (length rcs - 1))
                               finished
                      ++ repeat retry_delay (length last))%list
                /\ exists f k fs,
                     In f matching
                     /\ run_error (stability_cmd f) k fs = Some e
       end.
Proof.
  intros matching Hne.
  destruct (stability_loop max_retries retry_delay matching [] w)
    as (outcome & w1 & evs & attempts & E & Ht & Hx & Hout).
  exists outcome, w1, evs, attempts.
  split; [exact E |]. split; [exact Ht |]. split; [exact Hx |].
  assert (run_foldx_stability base_pdb_name max_retries retry_delay w
          = (error_files <- for_fold matching []
                              (stability_one max_retries retry_delay) ;;
             match error_files with
             | _ :: _ =>
                 console_print "[red]The following files failed stability calculation after retries:[/red]" ;;
                 for_each error_files
                   (fun f => console_print ("[red]" +:+ f +:+ "[/red]")) ;;
                 ret (Some false)
             | [] =>
                 console_log "[green]All stability calculations finished successfully[/green]" ;;
                 ret (Some true)
             end) w) as ->.
  { unfold run_foldx_stability, glob_glob. unfold bind at 1. fold matching.
    destruct matching; [contradiction | reflexivity]. }
  destruct outcome as [error_files | e];
    [rewrite (bind_Ret _ _ _ _ _ E) | rewrite (bind_Raise _ _ _ _ _ E)].
  - destruct Hout as (-> & Hlen & Hall & Hsl). cbn [app]. cbn zeta.
    split; [| auto].
    destruct (failed_files matching attempts) as [| bad bads].
    + unfold console_log. rewrite (bind_Ret _ _ _ _ _ (emit_run _ w1)).
      reflexivity.
    + unfold console_print at 1.
      rewrite (bind_Ret _ _ _ _ _ (emit_run _ w1)).
      rewrite (bind_Ret _ _ _ _ _
                 (for_each_console_print
                    (fun f => "[red]" +:+ f +:+ "[/red]") _ _)).
      unfold ret. simpl. rewrite <- !app_assoc. reflexivity.
  - split; [reflexivity | exact Hout].
Qed.

(** When [subprocess.run] raises at the first attempt for the first file,
    the runner stops there. *)
Lemma stability_first_attempt_raises base_pdb_name max_retries retry_delay w
    f rest e :
  glob (base_pdb_name +:+ "_Repair*.pdb") (files w) = f :: rest ->
  0 < max_retries ->
  run_error (stability_cmd f) (runs w) (files w) = Some e ->
  run_foldx_stability base_pdb_name max_retries retry_delay w
  = (Raise e,
     World (snd (foldx (stability_cmd f) (runs w) (files w))) (S (runs w))
       (trace w ++ [ConsoleLog ("Running stability calculation for: " +:+ f);
                    ExecRaised (stability_cmd f) e])).
Proof.
  intros Hglob Hpos Herr.
  unfold run_foldx_stability, glob_glob. unfold bind at 1. rewrite Hglob.
  cbn [for_fold]. unfold stability_one at 1, console_log at 1.
  destruct max_retries as [| n]; [lia |]. cbn [stability_attempts].
  unfold bind, emit. rewrite run_foldx_command_run. cbn zeta. simpl.
  rewrite Herr. now rewrite <- app_assoc.
Qed.

(** C3, as amended: on a batch with at least one file, the runner makes the
    attempts of each file in turn, at most [max_retries] per file ([main]
    uses the default, 3), stopping at the first exit status 0 and otherwise
    using all of them.  When it returns, it has dealt with every file, and it
    returns [True] if and only if every file has an attempt with exit
    status 0 among its own, and [False] otherwise.  It returns whenever
    [subprocess.run] can run the command; when [subprocess.run] raises
    instead, as it does at the first attempt on a machine without FoldX,
    that exception leaves the runner at once, without a verdict.  (The
    empty batch is C10.) *)
Theorem stability_runner_retries_and_verdict base_pdb_name max_retries retry_delay w :
  let matching := glob (base_pdb_name +:+ "_Repair*.pdb") (files w) in
  matching <> [] ->
  exists outcome w' evs attempts,
    run_foldx_stability base_pdb_name max_retries retry_delay w
    = (outcome, w')
    /\ trace w' = (trace w ++ evs)%list
    /\ length attempts <= length matching
    /\ execs evs
       = flat_map (fun '(f, rcs) => map (pair (stability_cmd f)) rcs)
                  (combine matching attempts)
    /\ Forall (fun rcs => length rcs <= max_retries) attempts
    /\ match outcome with
       | Ret result =>
           exists verdict,
             result = Some verdict
             /\ length attempts = length matching
             /\ Forall (attempts_of_one_file max_retries) attempts
             /\ (verdict = true <-> Forall (fun rcs => In 0%Z rcs) attempts)
       | Raise e =>
           exists f k fs,
             In f matching /\ run_error (stability_cmd f) k fs = Some e
       end
    /\ ((forall f k fs, In f matching ->
                        run_error (stability_cmd f) k fs = None) ->
        exists verdict, outcome = Ret (Some verdict))
    /\ (forall f e, head matching = Some f -> 0 < max_retries ->
                    run_error (stability_cmd f) (runs w) (files w) = Some e ->
                    outcome = Raise e).
Proof.
  intros matching Hne.
  assert (forall outcome w',
            run_foldx_stability base_pdb_name max_retries retry_delay w
            = (outcome, w') ->
            forall f e, head matching = Some f -> 0 < max_retries ->
                        run_error (stability_cmd f) (runs w) (files w) = Some e ->
                        outcome = Raise e) as Hfirst.
  { intros outcome w' Erun f e Hhead Hpos Herr.
    destruct matching as [| f0 rest] eqn:Em; [discriminate |].
    injection Hhead as ->.
    rewrite (stability_first_attempt_raises _ _ _ _ _ _ _ Em Hpos Herr)
      in Erun.
    now injection Erun. }
  destruct (run_foldx_stability_run base_pdb_name max_retries retry_delay w Hne)
    as (outcome & w1 & evs & attempts & _ & Ht & Hx & Hout).
  fold matching in Hx, Hout.
  destruct outcome as [error_files | e].
  - destruct Hout as (Erun & Hlen & Hall & _). cbn zeta in Erun.
    pose proof (no_failed_files matching attempts Hlen) as Hverdict.
    assert (Forall (fun rcs => length rcs <= max_retries) attempts) as Hbound.
    { eapply List.Forall_impl; [| exact Hall]. now intros rcs [Hle _]. }
    eexists (Ret _), _, (evs ++ _)%list, attempts.
    split; [exact Erun |]. simpl trace. rewrite Ht, <- app_assoc.
    split; [reflexivity |]. split; [lia |]. split.
    { rewrite execs_app, Hx.
      destruct (failed_files matching attempts) as [| bad bads];
        [apply app_nil_r |].
      change (execs (ConsolePrint _ :: ?l)) with (execs l).
      rewrite (execs_console_print (fun f => "[red]" +:+ f +:+ "[/red]")).
      apply app_nil_r. }
    split; [exact Hbound |].
    split; [| split; [eauto | eapply Hfirst, Erun]].
    eexists. split; [reflexivity |]. split; [exact Hlen |].
    split; [exact Hall |].
    destruct (failed_files matching attempts) as [| bad bads].
    + split; [intros _; now apply Hverdict | reflexivity].
    + split; [discriminate |]. intros Hok. apply Hverdict in Hok.
      discriminate.
  - destruct Hout as (Erun & finished & last & -> & Hlen & Hall & Hcut & _
                      & f & k & fs & Hin & Herr).
    exists (Raise e), w1, evs, (finished ++ [last])%list.
    split; [exact Erun |]. split; [exact Ht |]. split; [exact Hlen |].
    split; [exact Hx |]. split; [| split; [| split]].
    + apply Forall_app. split.
      * eapply List.Forall_impl; [| exact Hall]. now intros rcs [Hle _].
      * constructor; [| constructor]. destruct Hcut as [Hlt _]. lia.
    + eauto.
    + intros Hstart. rewrite (Hstart f k fs Hin) in Herr. discriminate.
    + eapply Hfirst, Erun.
Qed.

(** C10: when no file matches, the runner returns [None], which is neither
    [True] nor [False]; it prints one message and runs nothing. *)
Theorem empty_batch_returns_None base_pdb_name max_retries retry_delay w :
  glob (base_pdb_name +:+ "_Repair*.pdb") (files w) = [] ->
  exists w' evs,
    run_foldx_stability base_pdb_name max_retries retry_delay w = (Ret None, w')
    /\ (None : option bool) <> Some true
    /\ (None : option bool) <> Some false
    /\ trace w' = (trace w ++ evs)%list
    /\ execs evs = []
    /\ runs w' = runs w
    /\ files w' = files w.
Proof.
  intros Hempty.
  unfold run_foldx_stability, glob_glob. unfold bind at 1. rewrite Hempty.
  unfold console_print. rewrite (bind_Ret _ _ _ _ _ (emit_run _ w)).
  eexists _, [_]. split; [reflexivity |].
  repeat split; discriminate.
Qed.

End Stability.

Lemma stability_runner_retries_and_verdict_witness :
  let P := Demo.platform (Demo.tool_flaky 2) in
  let w := Demo.world_of [("x_Repair.pdb", "r"); ("x_Repair_EA214C.pdb", "m")] in
  let matching := @glob P ("x" +:+ "_Repair*.pdb") (files w) in
  exists outcome w' evs attempts,
    @run_foldx_stability P "x" 3 5 w = (outcome, w')
    /\ trace w' = (trace w ++ evs)%list
    /\ length attempts <= length matching
    /\ execs evs
       = flat_map (fun '(f, rcs) => map (pair (stability_cmd f)) rcs)
                  (combine matching attempts)
    /\ Forall (fun rcs => length rcs <= 3) attempts
    /\ match outcome with
       | Ret result =>
           exists verdict,
             result = Some verdict
             /\ length attempts = length matching
             /\ Forall (attempts_of_one_file 3) attempts
             /\ (verdict = true <-> Forall (fun rcs => In 0%Z rcs) attempts)
       | Raise e =>
           exists f k fs,
             In f matching /\ @run_error P (stability_cmd f) k fs = Some e
       end
    /\ ((forall f k fs, In f matching ->
                        @run_error P (stability_cmd f) k fs = None) ->
        exists verdict, outcome = Ret (Some verdict))
    /\ (forall f e, head matching = Some f -> 0 < 3 ->
                    @run_error P (stability_cmd f) (runs w) (files w) = Some e ->
                    outcome = Raise e).
Proof.
  intros P w.
  apply (@stability_runner_retries_and_verdict P "x" 3 5 w).
  vm_compute. discriminate.
Defined.

(** C3 fails as stated in two ways.  On an empty batch every file of the
    batch has succeeded, there being none, and yet the runner does not
    report success: it returns [None].  And on a machine where FoldX cannot
    be started the runner reports nothing at all: the [FileNotFoundError] of
    [subprocess.run] leaves it at the first attempt for the first file. *)
Lemma stability_verdict_counterexample :
  let w := Demo.world_of [("x_Repair.pdb", "r"); ("x_Repair_EA214C.pdb", "m")] in
  (let P := Demo.platform (Demo.tool_exit 0) in
   @glob P ("y" +:+ "_Repair*.pdb") (files w) = []
   /\ Forall (fun f : string => False)
             (@glob P ("y" +:+ "_Repair*.pdb") (files w))
   /\ fst (@run_foldx_stability P "y" 3 5 w) = Ret None
   /\ fst (@run_foldx_stability P "y" 3 5 w) <> Ret (Some true))
  /\ (let P := Demo.platform_without_tool in
      @glob P ("x" +:+ "_Repair*.pdb") (files w)
      = ["x_Repair_EA214C.pdb"; "x_Repair.pdb"]
      /\ @run_foldx_stability P "x" 3 5 w
         = (Raise (FileNotFoundError
                     "[Errno 2] No such file or directory: 'foldx'"),
            World (files w) 1
              [ConsoleLog "Running stability calculation for: x_Repair_EA214C.pdb";
               ExecRaised (stability_cmd "x_Repair_EA214C.pdb")
                 (FileNotFoundError
                    "[Errno 2] No such file or directory: 'foldx'")])).
Proof.
  split; [split; [| split; [| split]] | split].
  - vm_compute. reflexivity.
  - vm_compute. constructor.
  - vm_compute. reflexivity.
  - vm_compute. discriminate.
  - vm_compute. reflexivity.
  - vm_compute. reflexivity.
Qed.

(** The first file fails twice and succeeds at its third attempt, the second
    succeeds at once: the batch succeeds after four invocations. *)
Example stability_runner_flaky_tool :
  let P := Demo.platform (Demo.tool_flaky 2) in
  let w := Demo.world_of [("x_Repair.pdb", "r"); ("x_Repair_EA214C.pdb", "m")] in
  fst (@run_foldx_stability P "x" 3 5 w) = Ret (Some true)
  /\ map snd (execs (trace (snd (@run_foldx_stability P "x" 3 5 w))))
     = [1; 1; 0; 0]%Z.
Proof. split; vm_compute; reflexivity. Qed.

(** A tool that always fails is run three times per file, and the batch
    fails. *)
Example stability_runner_failing_tool :
  let P := Demo.platform (Demo.tool_exit 1) in
  let w := Demo.world_of [("x_Repair.pdb", "r"); ("x_Repair_EA214C.pdb", "m")] in
  fst (@run_foldx_stability P "x" 3 5 w) = Ret (Some false)
  /\ execs (trace (snd (@run_foldx_stability P "x" 3 5 w)))
     = [(stability_cmd "x_Repair_EA214C.pdb", 1%Z);
        (stability_cmd "x_Repair_EA214C.pdb", 1%Z);
        (stability_cmd "x_Repair_EA214C.pdb", 1%Z);
        (stability_cmd "x_Repair.pdb", 1%Z);
        (stability_cmd "x_Repair.pdb", 1%Z);
        (stability_cmd "x_Repair.pdb", 1%Z)].
Proof. split; vm_compute; reflexivity. Qed.

Lemma empty_batch_returns_None_witness :
  let P := Demo.platform (Demo.tool_exit 0) in
  let w := Demo.world_of [("x_Repair.pdb", "r")] in
  exists w' evs,
    @run_foldx_stability P "y" 3 5 w = (Ret None, w')
    /\ (None : option bool) <> Some true
    /\ (None : option bool) <> Some false
    /\ trace w' = (trace w ++ evs)%list
    /\ execs evs = []
    /\ runs w' = runs w
    /\ files w' = files w.
Proof.
  intros P w.
  apply (@empty_batch_returns_None P "y" 3 5 w).
  vm_compute. reflexivity.
Defined.

(** ** The repair step *)

Section Repair.
Context `{Platform}.

(** C4, as amended: when the repair command has run and exits with a
    non-zero status, what happens next depends only on the repaired file.  If it does not
    exist after the command, [repair_pdb] raises [FileNotFoundError], the
    handler of [main] prints the critical error and the run exits with
    status 1 without any further step.  If it exists (left by the tool, or
    by an earlier run), [repair_pdb] logs the failure and returns the file
    name, and the pipeline goes on with the mutation list and the later
    steps. *)
Theorem failed_repair_is_fatal_only_without_repaired_file
    base_pdb_name residues w :
  let pdb_file := base_pdb_name +:+ ".pdb" in
  let repaired_file := base_pdb_name +:+ "_Repair.pdb" in
  let outcome := foldx (repair_cmd pdb_file) (runs w) (files w) in
  let w1 := World (snd outcome) (S (runs w))
              (trace w ++ [Exec (repair_cmd pdb_file) (returncode (fst outcome))]) in
  run_error (repair_cmd pdb_file) (runs w) (files w) = None ->
  returncode (fst outcome) <> 0%Z ->
  (snd outcome !! repaired_file = None ->
   repair_pdb base_pdb_name w
   = (Raise (FileNotFoundError "Repaired PDB not generated"), w1)
   /\ guarded_pipeline base_pdb_name residues w
      = (Raise (SystemExit 1),
         World (files w1) (runs w1)
           (trace w1 ++ [ConsolePrint "[red]Critical error: Repaired PDB not generated[/red]"])))
  /\ (is_Some (snd outcome !! repaired_file) ->
      let w2 := World (files w1) (runs w1)
                  (trace w1 ++ [ConsoleLog ("[red]RepairPDB failed for "
                                            +:+ pdb_file +:+ "[/red]")]) in
      repair_pdb base_pdb_name w = (Ret repaired_file, w2)
      /\ pipeline base_pdb_name residues w
         = (make_mutation_list residues ;;
            run_mutations repaired_file ;;
            run_foldx_stability base_pdb_name default_max_retries
                                default_retry_delay ;;
            subtract_fields base_pdb_name) w2).
Proof.
  intros pdb_file repaired_file outcome w1 Hran Hrc.
  assert (run_foldx_command (repair_cmd pdb_file) w = (Ret (fst outcome), w1))
    as Erun.
  { rewrite run_foldx_command_run, Hran. reflexivity. }
  apply Z.eqb_neq in Hrc.
  split.
  - intros Hnone.
    assert (repair_pdb base_pdb_name w
            = (Raise (FileNotFoundError "Repaired PDB not generated"), w1))
      as Erepair.
    { unfold repair_pdb. fold pdb_file. rewrite (bind_Ret _ _ _ _ _ Erun).
      cbn zeta. fold repaired_file.
      unfold bind, path_exists, raise. subst w1. simpl. rewrite Hnone.
      rewrite bool_decide_false by (intros [? ?]; discriminate).
      reflexivity. }
    split; [exact Erepair |].
    unfold guarded_pipeline, try_except, pipeline.
    rewrite (bind_Raise _ _ _ _ _ Erepair). cbn [is_Exception exn_message].
    unfold console_print, sys_exit, raise.
    now rewrite (bind_Ret _ _ _ _ _ (emit_run _ w1)).
  - intros Hsome w2.
    assert (repair_pdb base_pdb_name w = (Ret repaired_file, w2)) as Erepair.
    { unfold repair_pdb. fold pdb_file. rewrite (bind_Ret _ _ _ _ _ Erun).
      cbn zeta. fold repaired_file.
      unfold bind, path_exists, raise, ret, console_log, emit.
      subst w2 w1. simpl. rewrite bool_decide_true by exact Hsome.
      cbn [negb]. rewrite Hrc. reflexivity. }
    split; [exact Erepair |].
    unfold pipeline. rewrite (bind_Ret _ _ _ _ _ Erepair).
    assert (path_exists repaired_file w2 = (Ret true, w2)) as Eex.
    { unfold path_exists. subst w2 w1. simpl.
      now rewrite bool_decide_true by exact Hsome. }
    rewrite (bind_Ret _ _ _ _ _ Eex). cbn [negb].
    now rewrite (bind_Ret _ _ _ tt w2 eq_refl).
Qed.

End Repair.

Lemma failed_repair_is_fatal_only_without_repaired_file_witness :
  let P := Demo.platform (Demo.tool_exit 1) in
  let w := Demo.world_of [("x.pdb", "atoms")] in
  @repair_pdb P "x" w
  = (Raise (FileNotFoundError "Repaired PDB not generated"),
     World (files w) 1 [Exec (repair_cmd "x.pdb") 1])
  /\ @guarded_pipeline P "x" [Residue "A" "214" "E"] w
     = (Raise (SystemExit 1),
        World (files w) 1
          [Exec (repair_cmd "x.pdb") 1;
           ConsolePrint "[red]Critical error: Repaired PDB not generated[/red]"]).
Proof.
  intros P w.
  destruct (@failed_repair_is_fatal_only_without_repaired_file P "x"
              [Residue "A" "214" "E"] w eq_refl
              ltac:(vm_compute; discriminate))
    as [Hfatal _].
  exact (Hfatal eq_refl).
Defined.

(** C4 fails as stated: the repair command exits with status 1 while a
    repaired file is present (here left by an earlier run).  No exception
    is raised: [repair_pdb] returns the file name, the pipeline builds the
    models from it and runs every later step, and the script ends
    normally. *)
Lemma failed_repair_counterexample :
  let P := Demo.platform (Demo.tool_exit 1) in
  let w := Demo.world_of [("x.pdb", "atoms"); ("x_Repair.pdb", "stale")] in
  returncode (fst (@foldx P (repair_cmd "x.pdb") (runs w) (files w))) = 1%Z
  /\ fst (@repair_pdb P "x" w) = Ret "x_Repair.pdb"
  /\ fst (@script P ["--pdb_file"; "x.pdb"; "--residues"; "A:214:E"] w)
     = Ret tt
  /\ map fst (execs (trace (snd (@script P ["--pdb_file"; "x.pdb";
                                            "--residues"; "A:214:E"] w))))
     = [repair_cmd "x.pdb"; build_cmd "x_Repair.pdb";
        stability_cmd "x_Repair.pdb"; stability_cmd "x_Repair.pdb";
        stability_cmd "x_Repair.pdb"].
Proof. repeat split; vm_compute; reflexivity. Qed.

(** ** The delta computation *)

Section Delta.
Context `{Platform}.

(** One pair of lines: a row is appended exactly when the pair has a delta,
    and nothing but printing happens. *)
Lemma compare_lines_run text file2 results line1 line2 w :
  exists evs,
    compare_lines text file2 results (line1, line2) w
    = (Ret (results ++ match spec_delta line1 line2 with
                       | Some d => [Row text file2 d]
                       | None => []
                       end)%list,
       World (files w) (runs w) (trace w ++ evs))
    /\ execs evs = [].
Proof.
  unfold compare_lines, spec_delta, line_value.
  destruct (split_ws (strip line1)) as [| a1 [| b1 t1]];
    destruct (split_ws (strip line2)) as [| a2 [| b2 t2]];
    cbn [length Nat.ltb Nat.leb orb nth];
    try (eexists [_]; rewrite app_nil_r; unfold print;
         rewrite (bind_Ret _ _ _ _ _ (emit_run _ w));
         split; reflexivity);
    try (destruct (float_of_string b1);
         eexists [_]; rewrite app_nil_r; unfold print;
         rewrite (bind_Ret _ _ _ _ _ (emit_run _ w));
         split; reflexivity).
  destruct (float_of_string b1) as [v1 |], (float_of_string b2) as [v2 |];
    try (eexists [_]; rewrite app_nil_r; unfold print;
         rewrite (bind_Ret _ _ _ _ _ (emit_run _ w));
         split; reflexivity).
  exists []. rewrite app_nil_r. split; [now destruct w | reflexivity].
Qed.

Lemma compare_loop text file2 pairs results w :
  exists evs,
    for_fold pairs results (compare_lines text file2) w
    = (Ret (results
            ++ flat_map (fun '(l1, l2) => match spec_delta l1 l2 with
                                          | Some d => [Row text file2 d]
                                          | None => []
                                          end) pairs)%list,
       World (files w) (runs w) (trace w ++ evs))
    /\ execs evs = [].
Proof.
  revert results w. induction pairs as [| [l1 l2] pairs IH]; intros results w.
  - exists []. cbn [for_fold flat_map ret]. rewrite !app_nil_r.
    split; [now destruct w | reflexivity].
  - cbn [for_fold flat_map].
    destruct (compare_lines_run text file2 results l1 l2 w) as (evs1 & E1 & Hx1).
    rewrite (bind_Ret _ _ _ _ _ E1).
    match goal with
    | |- context [for_fold pairs ?r _ ?w1] =>
        destruct (IH r w1) as (evs2 & E2 & Hx2)
    end.
    exists (evs1 ++ evs2)%list. rewrite E2. simpl.
    rewrite <- !app_assoc. split; [reflexivity |].
    now rewrite execs_app, Hx1, Hx2.
Qed.

(** Subtraction the other way round gives the negated float: rounding is
    symmetric, and so are the rules for infinities and NaN. *)
Lemma float_sub_swap x y : float_sub x y = float_neg (float_sub y x).
Proof.
  destruct x as [a | negative |], y as [b | negative' |];
    cbn [float_sub float_neg]; try reflexivity.
  - rewrite <- round_opp. apply round_proper. ring.
  - now rewrite negb_involutive.
  - destruct negative, negative'; reflexivity.
Qed.

Lemma spec_delta_swap a b :
  match spec_delta a b, spec_delta b a with
  | Some d, Some d' => d' = float_neg d
  | None, None => True
  | _, _ => False
  end.
Proof.
  unfold spec_delta.
  destruct (line_value a) as [va |], (line_value b) as [vb |]; try exact I.
  apply float_sub_swap.
Qed.

Lemma spec_deltas_swap lines_a lines_b :
  Forall2 (fun d d' => d' = float_neg d)
          (spec_deltas lines_a lines_b) (spec_deltas lines_b lines_a).
Proof.
  unfold spec_deltas. revert lines_b.
  induction lines_a as [| a lines_a IH]; intros [| b lines_b];
    cbn [combine flat_map]; try constructor.
  pose proof (spec_delta_swap a b) as Hab.
  destruct (spec_delta a b), (spec_delta b a); try contradiction;
    cbn [app]; [constructor; [exact Hab |] |]; apply IH.
Qed.

Lemma map_delta_rows text file2 pairs :
  map delta
    (flat_map (fun '(l1, l2) => match spec_delta l1 l2 with
                                | Some d => [Row text file2 d]
                                | None => []
                                end) pairs)
  = flat_map (fun '(l1, l2) => match spec_delta l1 l2 with
                               | Some d => [d]
                               | None => []
                               end) pairs.
Proof.
  induction pairs as [| [l1 l2] pairs IH]; [reflexivity |].
  cbn [flat_map]. rewrite map_app, IH.
  now destruct (spec_delta l1 l2).
Qed.

(** C5: comparing a mutant file with the reference file appends one row per
    pair of lines that both have a value, and its delta is the mutant value
    minus the reference value; comparing the same two files with their
    roles swapped gives as many rows, with every delta negated (a NaN
    stays NaN; the deltas are compared as numbers, the sign of a zero is
    not part of the model). *)
Theorem delta_is_antisymmetric text text' reference mutant results results' w
    reference_content mutant_content :
  files w !! reference = Some reference_content ->
  files w !! mutant = Some mutant_content ->
  exists rows rows' w1 w1',
    compare_files text reference mutant results w
    = (Ret (results ++ rows)%list, w1)
    /\ compare_files text' mutant reference results' w
       = (Ret (results' ++ rows')%list, w1')
    /\ map delta rows
       = spec_deltas (read_lines reference_content) (read_lines mutant_content)
    /\ Forall (fun r => mutation r = text /\ source r = mutant) rows
    /\ Forall2 (fun r r' => delta r' = float_neg (delta r)) rows rows'.
Proof.
  intros Href Hmut.
  assert (forall path content, files w !! path = Some content ->
          open_read path w = (Ret (read_lines content), w)) as Hopen.
  { intros path content E. unfold open_read. now rewrite E. }
  unfold compare_files.
  rewrite (bind_Ret _ _ _ _ _ (Hopen _ _ Href)).
  rewrite (bind_Ret _ _ _ _ _ (Hopen _ _ Hmut)).
  rewrite (bind_Ret _ _ _ _ _ (Hopen _ _ Hmut)).
  rewrite (bind_Ret _ _ _ _ _ (Hopen _ _ Href)).
  set (ref_lines := read_lines reference_content).
  set (mut_lines := read_lines mutant_content).
  destruct (compare_loop text mutant (combine ref_lines mut_lines) results w)
    as (evs & E & _).
  destruct (compare_loop text' reference (combine mut_lines ref_lines) results' w)
    as (evs' & E' & _).
  eexists _, _, _, _. split; [exact E |]. split; [exact E' |].
  split; [apply map_delta_rows |]. split.
  - apply List.Forall_forall. intros r Hr.
    apply in_flat_map in Hr as ([l1 l2] & _ & Hr).
    destruct (spec_delta l1 l2); [| destruct Hr].
    destruct Hr as [<- | []]. auto.
  - pose proof (spec_deltas_swap ref_lines mut_lines) as Hswap.
    unfold spec_deltas in Hswap.
    rewrite <- (map_delta_rows text mutant) in Hswap.
    rewrite <- (map_delta_rows text' reference) in Hswap.
    clear - Hswap.
    remember (flat_map _ (combine ref_lines mut_lines)) as rows eqn:Er.
    remember (flat_map _ (combine mut_lines ref_lines)) as rows' eqn:Er'.
    clear Er Er'. revert rows' Hswap.
    induction rows as [| r rows IH]; intros [| r' rows'] Hswap;
      inversion Hswap; subst; constructor; auto.
Qed.

End Delta.

Lemma delta_is_antisymmetric_witness :
  let P := Demo.platform (Demo.tool_exit 0) in
  let w := Demo.world_of
             [("x_Repair_0_ST.fxout", "x 10.0" +:+ nl +:+ "y 12.0" +:+ nl);
              ("x_Repair_EA214C_0_ST.fxout", "x 11.5" +:+ nl +:+ "y 9.0" +:+ nl)] in
  exists rows rows' w1 w1',
    @compare_files P "EA214C" "x_Repair_0_ST.fxout" "x_Repair_EA214C_0_ST.fxout" [] w
    = (Ret ([] ++ rows)%list, w1)
    /\ @compare_files P "EA214C" "x_Repair_EA214C_0_ST.fxout" "x_Repair_0_ST.fxout" [] w
       = (Ret ([] ++ rows')%list, w1')
    /\ map delta rows
       = @spec_deltas P (read_lines ("x 10.0" +:+ nl +:+ "y 12.0" +:+ nl))
                        (read_lines ("x 11.5" +:+ nl +:+ "y 9.0" +:+ nl))
    /\ Forall (fun r => mutation r = "EA214C"
                        /\ source r = "x_Repair_EA214C_0_ST.fxout") rows
    /\ Forall2 (fun r r' => delta r' = float_neg (delta r)) rows rows'.
Proof.
  intros P w.
  apply (@delta_is_antisymmetric P "EA214C" "EA214C" "x_Repair_0_ST.fxout"
           "x_Repair_EA214C_0_ST.fxout" [] [] w);
    vm_compute; reflexivity.
Defined.

(** The scenario of the specification: reference lines [x 10.0], [y 12.0]
    and mutant lines [x 11.5], [y 9.0] give the deltas 1.5 and -3.0, and
    with the roles swapped -1.5 and 3.0. *)
Example deltas_of_the_scenario :
  let P := Demo.platform (Demo.tool_exit 0) in
  let w := Demo.world_of
             [("x_Repair_0_ST.fxout", "x 10.0" +:+ nl +:+ "y 12.0" +:+ nl);
              ("x_Repair_EA214C_0_ST.fxout", "x 11.5" +:+ nl +:+ "y 9.0" +:+ nl)] in
  fst (@compare_files P "EA214C" "x_Repair_0_ST.fxout" "x_Repair_EA214C_0_ST.fxout" [] w)
  = Ret [Row "EA214C" "x_Repair_EA214C_0_ST.fxout" (Finite (3 # 2));
         Row "EA214C" "x_Repair_EA214C_0_ST.fxout" (Finite (-3 # 1))]
  /\ fst (@compare_files P "EA214C" "x_Repair_EA214C_0_ST.fxout" "x_Repair_0_ST.fxout" [] w)
     = Ret [Row "EA214C" "x_Repair_0_ST.fxout" (Finite (-3 # 2));
            Row "EA214C" "x_Repair_0_ST.fxout" (Finite (3 # 1))].
Proof. split; vm_compute; reflexivity. Qed.

(** ** The ranking *)

Section Ranking.
Context `{Platform}.

Lemma group_row_run groups r w :
  exists evs,
    group_row groups r w
    = (Ret (add_to_group groups (group_key r) r),
       World (files w) (runs w) (trace w ++ evs))
    /\ execs evs = [].
Proof.
  unfold group_row, group_key.
  destruct (position_of (mutation r)) as [num |]; cbn [default].
  - exists []. rewrite app_nil_r. split; [now destruct w | reflexivity].
  - eexists [_]. unfold print. rewrite (bind_Ret _ _ _ _ _ (emit_run _ w)).
    split; reflexivity.
Qed.

Lemma group_loop results groups w :
  exists evs,
    for_fold results groups group_row w
    = (Ret (grouped results groups),
       World (files w) (runs w) (trace w ++ evs))
    /\ execs evs = [].
Proof.
  revert groups w. induction results as [| r results IH]; intros groups w.
  - exists []. rewrite app_nil_r. split; [now destruct w | reflexivity].
  - cbn [for_fold]. destruct (group_row_run groups r w) as (evs1 & E1 & Hx1).
    rewrite (bind_Ret _ _ _ _ _ E1).
    match goal with
    | |- context [for_fold results ?g _ ?w1] =>
        destruct (IH g w1) as (evs2 & E2 & Hx2)
    end.
    exists (evs1 ++ evs2)%list. rewrite E2. simpl.
    rewrite <- !app_assoc. split; [reflexivity |].
    now rewrite execs_app, Hx1, Hx2.
Qed.

(** The group of a position holds the rows of that position, in the order
    of [results]. *)
Lemma grouped_lookup results (groups : gmap N (list row)) k :
  grouped results groups !! k
  = match List.filter (fun r => N.eqb (group_key r) k) results with
    | [] => groups !! k
    | new => Some (default [] (groups !! k) ++ new)%list
    end.
Proof.
  unfold grouped. revert groups.
  induction results as [| r results IH]; intros groups; [reflexivity |].
  cbn [fold_left List.filter]. rewrite IH. unfold add_to_group.
  destruct (N.eqb (group_key r) k) eqn:E.
  - apply N.eqb_eq in E. subst k. rewrite lookup_insert_eq. cbn [default].
    destruct (List.filter _ results); [reflexivity |].
    unfold id. now rewrite <- app_assoc.
  - apply N.eqb_neq in E. now rewrite lookup_insert_ne by exact E.
Qed.

Lemma grouped_empty_lookup results k rows :
  grouped results ∅ !! k = Some rows ->
  rows = List.filter (fun r => N.eqb (group_key r) k) results /\ rows <> [].
Proof.
  rewrite grouped_lookup, lookup_empty. cbn [default app].
  destruct (List.filter _ results); [discriminate |].
  intros [= <-]. split; [reflexivity | discriminate].
Qed.

Lemma Qltb_false x y : Qltb x y = false <-> (y <= x)%Q.
Proof.
  unfold Qltb. rewrite Qle_alt.
  rewrite <- (Qcompare_antisym x y).
  destruct (Qcompare x y); cbn [CompOpp]; split; intros E;
    try reflexivity; try discriminate; try (exfalso; now apply E).
Qed.

(** On floats that are numbers, [<] is the strict part of [float_le]. *)
Lemma float_ltb_false x y :
  x <> NaN -> y <> NaN -> float_ltb x y = false <-> float_le y x.
Proof.
  intros Hx Hy.
  destruct x as [a | negative |], y as [b | negative' |]; try contradiction;
    cbn [float_ltb float_le].
  - apply Qltb_false.
  - destruct negative'; cbn [negb]; split; congruence.
  - destruct negative; split; congruence.
  - destruct negative, negative'; cbn [andb negb]; split;
      try discriminate; try tauto; intros [E | E]; discriminate.
Qed.

Lemma float_le_trans x y z : float_le x y -> float_le y z -> float_le x z.
Proof.
  destruct x as [a | n |], y as [b | n' |], z as [c | n'' |];
    cbn [float_le]; try tauto; try congruence.
  - apply Qle_trans.
  - intros -> [E | E]; [discriminate | exact E].
  - intros [E | E] ->; [exact E | discriminate].
  - intros [-> | ->] [E | ->]; auto; discriminate.
Qed.

Lemma float_le_neg x y : float_le (float_neg x) (float_neg y) <-> float_le y x.
Proof.
  destruct x as [a | n |], y as [b | n' |]; cbn [float_neg float_le];
    try tauto.
  - split; intros Hab.
    + apply Qopp_le_compat in Hab. now rewrite !Qopp_involutive in Hab.
    + now apply Qopp_le_compat.
  - destruct n'; cbn [negb]; split; congruence.
  - destruct n; cbn [negb]; split; congruence.
  - destruct n, n'; cbn [negb]; tauto.
Qed.

Lemma float_neg_number x : x <> NaN -> float_neg x <> NaN.
Proof. destruct x; [discriminate | discriminate | contradiction]. Qed.

Lemma sorted_by_delta rows :
  Forall (fun r => delta r <> NaN) rows ->
  StronglySorted (fun r1 r2 => float_le (delta r2) (delta r1))
                 (sorted float_ltb (fun x => float_neg (delta x)) rows).
Proof.
  intros Hrows. rewrite List.Forall_forall in Hrows.
  assert (forall r, In r (sorted float_ltb (fun x => float_neg (delta x)) rows) ->
                    delta r <> NaN) as Hsorted.
  { intros r Hr. apply Hrows.
    now apply (Permutation_in _ (sorted_perm float_ltb _ rows)) in Hr. }
  eapply StronglySorted_weaken_on;
    [| apply (sorted_ordered_on float_ltb (fun x => float_neg (delta x))
                (fun k => k <> NaN))].
  - intros a b Ha Hb Hab. unfold key_le in Hab.
    apply float_le_neg, float_ltb_false; try exact Hab;
      apply float_neg_number, Hsorted; assumption.
  - intros x y z Hx Hy Hz H1 H2.
    apply float_ltb_false in H1, H2; try assumption.
    apply float_ltb_false; try assumption.
    eapply float_le_trans; eassumption.
  - intros x y Hx Hy Hxy.
    destruct x as [a | n |], y as [b | n' |]; try contradiction;
      cbn [float_ltb] in *.
    + apply Qltb_false. unfold Qltb in Hxy.
      destruct (Qcompare a b) eqn:E; try discriminate.
      apply Qlt_le_weak. now apply Qlt_alt.
    + now destruct n'.
    + now destruct n.
    + now destruct n, n'.
  - apply List.Forall_forall. intros r Hr.
    now apply float_neg_number, Hrows.
Qed.

(** The decimal value that [int] computes digit by digit. *)
Lemma int_of_digits_acc_decimal acc digits :
  int_of_digits_acc acc digits
  = (acc * 10 ^ N.of_nat (String.length digits) + decimal digits)%N.
Proof.
  revert acc. induction digits as [| c digits IH]; intros acc;
    cbn [int_of_digits_acc decimal String.length].
  - cbn. lia.
  - rewrite IH. unfold digit_value.
    rewrite Nat2N.inj_succ, N.pow_succ_r by lia. ring.
Qed.

Lemma upper_is_no_digit c : is_upper c = true -> is_digit c = false.
Proof.
  unfold is_upper, is_digit. intros Hu.
  apply andb_true_iff in Hu as [H1 H2]. apply Nat.leb_le in H1.
  apply andb_false_iff. right. apply Nat.leb_gt. lia.
Qed.

(** The group of a code of the expected shape is the number between its
    letters. *)
Lemma group_key_of_code r digits :
  code_at digits (mutation r) -> group_key r = decimal digits.
Proof.
  intros (a & b & c & Hm & Ha & Hb & Hc & Hd & Hlen).
  unfold group_key, position_of. rewrite Hm, Ha, Hb. cbn [andb].
  rewrite (span_run is_digit digits c "" Hd (upper_is_no_digit c Hc)).
  rewrite Hc. cbn [andb].
  assert ((1 <=? String.length digits) = true) as -> by (apply Nat.leb_le; lia).
  assert ((String.length digits <=? 3) = true) as -> by (apply Nat.leb_le; lia).
  cbn [andb String.eqb orb default].
  unfold id, int_of_digits. rewrite int_of_digits_acc_decimal. lia.
Qed.

Lemma sorted_groups_ascending (groups : gmap N (list row)) :
  StronglySorted N.lt (map fst (sorted N.ltb fst (map_to_list groups))).
Proof.
  pose proof (sorted_perm N.ltb fst (map_to_list groups)) as Hperm.
  assert (List.NoDup (map fst (sorted N.ltb fst (map_to_list groups)))) as Hnd.
  { eapply Permutation.Permutation_NoDup.
    - apply Permutation_map. symmetry. exact Hperm.
    - apply NoDup_ListNoDup, NoDup_fst_map_to_list. }
  assert (StronglySorted (fun a b : N * list row => (fst a <= fst b)%N)
            (sorted N.ltb fst (map_to_list groups))) as Hsorted.
  { eapply StronglySorted_weaken; [| apply (sorted_ordered N.ltb fst)].
    - intros a b Hab. unfold key_le in Hab. now apply N.ltb_ge in Hab.
    - intros x y z H1 H2. apply N.ltb_ge in H1, H2. apply N.ltb_ge. lia.
    - intros x y Hxy. apply N.ltb_lt in Hxy. apply N.ltb_ge. lia. }
  revert Hnd. clear Hperm.
  induction Hsorted as [| a l Hl IH Ha]; cbn [map]; intros Hnd;
    constructor; apply List.NoDup_cons_iff in Hnd as [Hnotin Hnd].
  - now apply IH.
  - apply List.Forall_forall. intros k Hk.
    apply in_map_iff in Hk as (b & <- & Hb).
    rewrite List.Forall_forall in Ha. specialize (Ha b Hb).
    assert (fst a <> fst b) as Hne.
    { intros E. apply Hnotin. rewrite E. now apply in_map. }
    lia.
Qed.


End Ranking.


Example ranking_of_four_rows :
  fst (rank_results
         [Row "EA214C" "a" (Finite (1 # 2)); Row "RA7L" "b" (Finite (-1 # 1));
          Row "EA214D" "c" (Infinity false); Row "RA7K" "d" (Finite (2 # 1))]
         (Demo.world_of []))
  = Ret [Row "RA7K" "d" (Finite (2 # 1)); Row "RA7L" "b" (Finite (-1 # 1));
         Row "EA214D" "c" (Infinity false); Row "EA214C" "a" (Finite (1 # 2))].
Proof. vm_compute. reflexivity. Qed.


(** ** The unit tests of the repository and the scenarios of the
    specification, run on the example platform *)

Section Tests.

Let P := Demo.platform (Demo.tool_exit 0).

Example test_repair_pdb_success :
  fst (@repair_pdb P "test" (Demo.world_of [("test_Repair.pdb", "")]))
  = Ret "test_Repair.pdb".
Proof. reflexivity. Qed.

Example test_repair_pdb_file_not_found :
  fst (@repair_pdb P "test" (Demo.world_of []))
  = Raise (FileNotFoundError "Repaired PDB not generated").
Proof. reflexivity. Qed.

Example test_make_mutation_list :
  In ("RA469L;" +:+ nl) (mutation_lines [Residue "A" "469" "R"]).
Proof. vm_compute. auto 20. Qed.

Example test_get_mutation_names :
  fst (get_mutation_names "file.txt"
         (Demo.world_of [("file.txt", "A1B;" +:+ nl +:+ "B2C;" +:+ nl)]))
  = Ret ["A1B"; "B2C"].
Proof. reflexivity. Qed.

Example test_run_mutations :
  let w := Demo.world_of
             [("base_Repair_1.pdb", "1"); ("base_Repair_2.pdb", "2");
              ("individual_list.txt", "RA468B;" +:+ nl +:+ "MA2C;" +:+ nl)] in
  List.filter (fun e => match e with Rename _ _ => true | _ => false end)
              (trace (snd (@run_mutations P "base_Repair.pdb" w)))
  = [Rename "base_Repair_1.pdb" "base_Repair_RA468B.pdb";
     Rename "base_Repair_2.pdb" "base_Repair_MA2C.pdb"].
Proof. vm_compute. reflexivity. Qed.

Example test_run_foldx_stability_success :
  fst (@run_foldx_stability P "foo" 3 5 (Demo.world_of [("foo_Repair_1.pdb", "")]))
  = Ret (Some true).
Proof. vm_compute. reflexivity. Qed.

Example test_run_foldx_stability_no_files :
  fst (@run_foldx_stability P "foo" 3 5 (Demo.world_of [])) = Ret None.
Proof. vm_compute. reflexivity. Qed.

(** Residues [[("A", 214, "E")]]: 19 lines, all of the form [EA214{X};],
    none with [E] as the substituted letter. *)
Example scenario_one_residue :
  mutation_codes [Residue "A" "214" "E"]
  = map (fun aa => "EA214" +:+ aa)
        ["A"; "C"; "D"; "F"; "G"; "H"; "I"; "K"; "L"; "M";
         "N"; "P"; "Q"; "R"; "S"; "T"; "V"; "W"; "Y"]
  /\ length (mutation_lines [Residue "A" "214" "E"]) = 19.
Proof. split; reflexivity. Qed.

(** Four generated files but three mutation codes: a warning and no
    renaming. *)
Example scenario_count_mismatch :
  let w := Demo.world_of
             [("b_Repair_1.pdb", ""); ("b_Repair_2.pdb", "");
              ("b_Repair_3.pdb", ""); ("b_Repair_4.pdb", "")] in
  @rename_pdb_files P "b_Repair.pdb" ["EA1A"; "EA1C"; "EA1D"] w
  = (Ret tt, World (files w) 0
                   [Print "Warning: PDB files and mutation names are not equal!"]).
Proof. vm_compute. reflexivity. Qed.

(** The whole script with a tool that never fails: every model is renamed
    after its mutation code and the ranked table is written. *)
Example script_end_to_end :
  let out := @script (Demo.platform Demo.tool_simulated)
               ["--pdb_file"; "x.pdb"; "--residues"; "A:7:W"]
               (Demo.world_of [("x.pdb", "atoms")]) in
  fst out = Ret tt
  /\ length (List.filter (fun e => match e with Rename _ _ => true | _ => false end)
                         (trace (snd out))) = 19
  /\ length (execs (trace (snd out))) = 22
  /\ files (snd out) !! "x_Repair_WA7Y.pdb" = Some "model 19"
  /\ is_Some (files (snd out) !! "ddgcalcoutput.txt").
Proof. vm_compute. repeat split; eauto. Qed.

(** On a machine without FoldX the first step fails: the
    [FileNotFoundError] of [subprocess.run] leaves [repair_pdb], the
    handler of [main] reports it, and the script exits with status 1. *)
Example script_without_foldx :
  @script Demo.platform_without_tool
    ["--pdb_file"; "x.pdb"; "--residues"; "A:7:W"]
    (Demo.world_of [("x.pdb", "atoms")])
  = (Raise (SystemExit 1),
     World (list_to_map [("x.pdb", "atoms")]) 1
       [ConsoleLog "[bold blue]Starting FoldX mutation workflow[/bold blue]";
        ExecRaised (repair_cmd "x.pdb")
          (FileNotFoundError "[Errno 2] No such file or directory: 'foldx'");
        ConsolePrint "[red]Critical error: [Errno 2] No such file or directory: 'foldx'[/red]"]).
Proof. vm_compute. reflexivity. Qed.

(** A command line without [--residues]: argparse prints the usage and
    exits with status 2 before [main] looks at anything. *)
Example script_rejected_command_line :
  fst (@script P ["--pdb_file"; "x.pdb"] (Demo.world_of [("x.pdb", "atoms")]))
  = Raise (SystemExit 2)
  /\ execs (trace (snd (@script P ["--pdb_file"; "x.pdb"]
                           (Demo.world_of [("x.pdb", "atoms")])))) = [].
Proof. split; vm_compute; reflexivity. Qed.

End Tests.

(** ** Further properties of the mutation list generator *)

Section GeneratorOutcome.

(** X1: [make_mutation_list] completes exactly when the number of residues
    whose wild type lies outside the alphabet is a multiple of 19; the
    number of lines it writes is 19 per residue plus one for each such
    residue.  In particular it completes whenever every wild type is one of
    the twenty letters. *)
Theorem generator_completes_iff residues w :
  let strangers := length (List.filter outside_alphabet residues) in
  length (mutation_lines residues) = 19 * length residues + strangers
  /\ (fst (make_mutation_list residues w) = Ret tt <-> strangers mod 19 = 0)
  /\ (Forall (fun r => In (wt r) amino_acids) residues ->
      fst (make_mutation_list residues w) = Ret tt).
Proof.
  cbn zeta.
  assert (length (mutation_lines residues)
          = 19 * length residues
            + length (List.filter outside_alphabet residues)) as Hlen
    by apply mutation_lines_length_general.
  assert (length (mutation_lines residues) mod 19
          = length (List.filter outside_alphabet residues) mod 19) as Hmod.
  { rewrite Hlen, Nat.add_comm, Nat.mul_comm. apply Nat.Div0.mod_add. }
  assert (fst (make_mutation_list residues w) = Ret tt
          <-> length (List.filter outside_alphabet residues) mod 19 = 0) as Hiff.
  { rewrite make_mutation_list_run. cbn zeta. rewrite <- Hmod.
    destruct (length (mutation_lines residues) mod 19 =? 0) eqn:E;
      cbn [negb fst].
    - apply Nat.eqb_eq in E. tauto.
    - apply Nat.eqb_neq in E. split; [discriminate | contradiction]. }
  split; [exact Hlen |]. split; [exact Hiff |].
  intros Hall. apply Hiff. clear Hlen Hmod Hiff.
  assert (List.filter outside_alphabet residues = []) as ->; [| reflexivity].
  induction Hall as [| r rs Hr _ IH]; [reflexivity |].
  cbn [List.filter]. unfold outside_alphabet at 1.
  assert (existsb (String.eqb (wt r)) amino_acids = true) as ->.
  { apply existsb_exists. exists (wt r). split; [exact Hr |].
    apply String.eqb_refl. }
  exact IH.
Qed.

End GeneratorOutcome.

(** ** The residue arguments of [main] *)

Section ResidueArguments.

Lemma split_on_nonempty sep s : split_on sep s <> [].
Proof.
  destruct s as [| c s]; cbn [split_on]; [discriminate |].
  destruct (Ascii.eqb c sep); [discriminate |].
  destruct (split_on sep s); discriminate.
Qed.

Lemma split_on_no_sep sep s :
  without_char sep s = true -> split_on sep s = [s].
Proof.
  unfold without_char. induction s as [| c s IH]; [reflexivity |].
  cbn [string_forall split_on]. intros Hs.
  apply andb_true_iff in Hs as [Hc Hs]. apply negb_true_iff in Hc.
  now rewrite Hc, (IH Hs).
Qed.

Lemma split_on_app sep a b :
  without_char sep a = true ->
  split_on sep (a +:+ String sep b) = a :: split_on sep b.
Proof.
  unfold without_char. induction a as [| c a IH].
  - intros _. change ("" +:+ String sep b) with (String sep b).
    cbn [split_on]. now rewrite Ascii.eqb_refl.
  - cbn [string_forall]. intros Ha.
    apply andb_true_iff in Ha as [Hc Ha]. apply negb_true_iff in Hc.
    rewrite append_cons. cbn [split_on]. now rewrite Hc, (IH Ha).
Qed.

Lemma join_cons sep a b l :
  join sep (a :: b :: l) = a +:+ sep +:+ join sep (b :: l).
Proof. reflexivity. Qed.

(** Splitting loses nothing: the parts hold no separator, and joined with the
    separator they give the text back. *)
Lemma split_on_join sep s :
  Forall (fun part => without_char sep part = true) (split_on sep s)
  /\ join (String sep "") (split_on sep s) = s.
Proof.
  unfold without_char. induction s as [| c s [IHparts IHjoin]].
  - split; [repeat constructor | reflexivity].
  - cbn [split_on]. destruct (Ascii.eqb c sep) eqn:E.
    + apply Ascii.eqb_eq in E. subst c. split.
      * constructor; [reflexivity | exact IHparts].
      * pose proof (split_on_nonempty sep s) as Hne.
        destruct (split_on sep s) as [| p ps]; [contradiction |].
        rewrite join_cons, IHjoin. reflexivity.
    + pose proof (split_on_nonempty sep s) as Hne.
      destruct (split_on sep s) as [| p ps]; [contradiction |].
      pose proof (List.Forall_inv IHparts) as Hp.
      pose proof (List.Forall_inv_tail IHparts) as Hps.
      cbn beta in Hp. split.
      * constructor; [| exact Hps]. cbn [string_forall]. now rewrite E, Hp.
      * destruct ps as [| q qs].
        -- cbn [join] in *. now rewrite IHjoin.
        -- rewrite join_cons in *. rewrite append_cons. now rewrite IHjoin.
Qed.

(** X2: [main] accepts a residue argument exactly when it reads
    [chain:pos:wt] with no further colon and [wt] a single letter, and the
    residue it records has these three texts; every other argument is
    rejected. *)
Theorem parse_residue_accepts_iff res r :
  parse_residue res = Some r
  <-> res = chain r +:+ ":" +:+ pos r +:+ ":" +:+ wt r
      /\ without_char ":" (chain r) = true
      /\ without_char ":" (pos r) = true
      /\ exists c, wt r = String c "" /\ is_alpha c = true.
Proof.
  unfold parse_residue. split.
  - destruct (split_on_join ":" res) as [Hparts Hjoin].
    destruct (split_on ":" res) as [| a [| b [| c [| d l]]]]; try discriminate.
    destruct (String.length c =? 1) eqn:Elen; [| discriminate].
    destruct (string_forall is_alpha c) eqn:Ealpha; [| discriminate].
    cbn [andb]. intros [= <-]. cbn [chain pos wt].
    pose proof (List.Forall_inv Hparts) as Ha.
    pose proof (List.Forall_inv (List.Forall_inv_tail Hparts)) as Hb.
    cbn beta in Ha, Hb.
    split; [symmetry; exact Hjoin |]. split; [exact Ha |].
    split; [exact Hb |].
    destruct c as [| x [| y c']]; try discriminate.
    exists x. split; [reflexivity |].
    cbn [string_forall] in Ealpha. now rewrite andb_true_r in Ealpha.
  - destruct r as [ch po w]. cbn [chain pos wt].
    intros (-> & Hch & Hpo & c & -> & Hc).
    change (":" +:+ po +:+ ":" +:+ String c "")
      with (String ":" (po +:+ String ":" (String c ""))).
    rewrite (split_on_app ":" ch _ Hch), (split_on_app ":" po _ Hpo).
    rewrite split_on_no_sep.
    + cbn [String.length Nat.eqb string_forall]. now rewrite Hc.
    + unfold without_char. cbn [string_forall]. rewrite andb_true_r.
      apply negb_true_iff, Ascii.eqb_neq. intros ->. discriminate.
Qed.

End ResidueArguments.

(** ** What [main] checks before it runs anything *)

Section Validation.
Context `{Platform}.

(** The loop over [args.residues]. *)
Lemma residue_loop_valid residue_args residues w :
  Forall (fun arg => is_Some (parse_residue arg)) residue_args ->
  for_fold residue_args residues
    (fun residues res =>
       match parse_residue res with
       | Some r => ret (residues ++ [r])%list
       | None =>
           console_print ("[red]Invalid residue format: " +:+ res
             +:+ ". Use ChainID:Position:WT (e.g., A:123:R)[/red]") ;;
           sys_exit 1
       end) w
  = (Ret (residues ++ omap parse_residue residue_args)%list, w).
Proof.
  intros Hall. revert residues.
  induction Hall as [| arg args [r Hr] _ IH]; intros residues.
  - cbn [for_fold omap]. unfold ret. now rewrite app_nil_r.
  - cbn [for_fold]. unfold bind at 1. rewrite Hr. unfold ret at 1.
    rewrite IH. cbn [omap list_omap]. rewrite Hr.
    now rewrite <- app_assoc.
Qed.

Lemma residue_loop_invalid residue_args residues w :
  Exists (fun arg => parse_residue arg = None) residue_args ->
  exists msg,
    for_fold residue_args residues
      (fun residues res =>
         match parse_residue res with
         | Some r => ret (residues ++ [r])%list
         | None =>
             console_print ("[red]Invalid residue format: " +:+ res
               +:+ ". Use ChainID:Position:WT (e.g., A:123:R)[/red]") ;;
             sys_exit 1
         end) w
    = (Raise (SystemExit 1),
       World (files w) (runs w) (trace w ++ [ConsolePrint msg])).
Proof.
  revert residues.
  induction residue_args as [| arg args IH]; intros residues Hex.
  - inversion Hex.
  - cbn [for_fold]. unfold bind at 1.
    destruct (parse_residue arg) as [r |] eqn:Hr.
    + unfold ret at 1. apply IH.
      inversion Hex as [? ? Hbad | ? ? Hrest]; subst; [congruence | exact Hrest].
    + eexists. unfold console_print, sys_exit, raise.
      now rewrite (bind_Ret _ _ _ _ _ (emit_run _ w)).
Qed.


End Validation.


(** ** What the script can raise *)

Section Raising.
Context `{Platform}.

Lemma only_raises_ret {A} P (a : A) : only_raises P (ret a).
Proof. intros w e w' E. discriminate. Qed.

Lemma only_raises_raise {A} (P : exn -> Prop) e : P e -> only_raises P (@raise A e).
Proof. intros He w e' w' [= <- _]. exact He. Qed.

Lemma only_raises_bind {A B} P (c : M A) (k : A -> M B) :
  only_raises P c -> (forall a, only_raises P (k a)) -> only_raises P (bind c k).
Proof.
  intros Hc Hk w e w' E. unfold bind in E.
  destruct (c w) as [[a | e1] w1] eqn:Ec.
  - eapply Hk, E.
  - injection E as <- _. eapply Hc, Ec.
Qed.

Lemma only_raises_emit P ev : only_raises P (emit ev).
Proof. intros w e w' E. discriminate. Qed.

Lemma only_raises_path_exists P path : only_raises P (path_exists path).
Proof. intros w e w' E. discriminate. Qed.

Lemma only_raises_open_write P path content :
  only_raises P (open_write path content).
Proof. intros w e w' E. discriminate. Qed.

Lemma only_raises_glob P pattern : only_raises P (glob_glob pattern).
Proof. intros w e w' E. discriminate. Qed.

Lemma only_raises_open_read path : only_raises step_exn (open_read path).
Proof.
  intros w e w' E. unfold open_read in E.
  destruct (files w !! path); [discriminate |].
  injection E as <- _. left. eauto.
Qed.

Lemma only_raises_os_rename src dst : only_raises step_exn (os_rename src dst).
Proof.
  intros w e w' E. unfold os_rename in E.
  destruct (files w !! src); [discriminate |].
  injection E as <- _. left. eauto.
Qed.

Lemma only_raises_run_foldx_command cmd :
  only_raises step_exn (run_foldx_command cmd).
Proof.
  intros w e w' E. rewrite run_foldx_command_run in E. cbn zeta in E.
  destruct (run_error cmd (runs w) (files w)) as [e0 |] eqn:Eerr;
    [| discriminate].
  injection E as <- _. right. eauto.
Qed.

Lemma only_raises_for_each {A} P (l : list A) body :
  (forall x, only_raises P (body x)) -> only_raises P (for_each l body).
Proof.
  intros Hbody. induction l as [| x l IH]; cbn [for_each].
  - apply only_raises_ret.
  - apply only_raises_bind; [apply Hbody | intros _; exact IH].
Qed.

Lemma only_raises_for_fold {A S} P (l : list A) (acc : S) body :
  (forall acc x, only_raises P (body acc x)) ->
  only_raises P (for_fold l acc body).
Proof.
  intros Hbody. revert acc. induction l as [| x l IH]; intros acc;
    cbn [for_fold].
  - apply only_raises_ret.
  - apply only_raises_bind; [apply Hbody | intros acc'; apply IH].
Qed.

Create HintDb raises.
#[local] Hint Resolve only_raises_ret only_raises_emit only_raises_path_exists
  only_raises_open_write only_raises_glob only_raises_open_read
  only_raises_os_rename only_raises_run_foldx_command : raises.

(** One step through a computation: split sequences, branch on tests. *)
Ltac raises_step :=
  match goal with
  | |- only_raises _ (bind _ _) => apply only_raises_bind; [| intros ?]
  | |- only_raises _ (for_each _ _) => apply only_raises_for_each; intros ?
  | |- only_raises _ (for_fold _ _ _) => apply only_raises_for_fold; intros ? ?
  | |- only_raises _ (raise _) => apply only_raises_raise; left; eauto
  | |- only_raises _ (sys_exit 1) => apply only_raises_raise; reflexivity
  | |- only_raises _ (console_log _) => apply only_raises_emit
  | |- only_raises _ (console_print _) => apply only_raises_emit
  | |- only_raises _ (print _) => apply only_raises_emit
  | |- only_raises _ (sleep _) => apply only_raises_emit
  | |- only_raises _ (if ?b then _ else _) => destruct b
  | |- only_raises _ (match ?x with _ => _ end) => destruct x
  | |- only_raises _ _ => solve [eauto with raises]
  end.

Ltac raises := cbn zeta; repeat raises_step.

Lemma only_raises_repair_pdb base : only_raises step_exn (repair_pdb base).
Proof. unfold repair_pdb. raises. Qed.

Lemma only_raises_make_mutation_list residues :
  only_raises step_exn (make_mutation_list residues).
Proof. unfold make_mutation_list. raises. Qed.

Lemma only_raises_get_mutation_names path :
  only_raises step_exn (get_mutation_names path).
Proof. unfold get_mutation_names. raises. Qed.

Lemma only_raises_rename_pdb_files repaired names :
  only_raises step_exn (rename_pdb_files repaired names).
Proof. unfold rename_pdb_files. raises. Qed.

Lemma only_raises_run_mutations repaired :
  only_raises step_exn (run_mutations repaired).
Proof.
  unfold run_mutations. raises.
  - apply only_raises_get_mutation_names.
  - apply only_raises_rename_pdb_files.
Qed.

(** The stability step raises only what [subprocess.run] raises. *)
Lemma only_raises_stability_attempts pdb_file max_retries retry_delay attempt remaining :
  only_raises step_exn (stability_attempts pdb_file max_retries retry_delay
                                           attempt remaining).
Proof.
  revert attempt. induction remaining as [| remaining IH]; intros attempt;
    cbn [stability_attempts]; raises.
Qed.

Lemma only_raises_run_foldx_stability base max_retries retry_delay :
  only_raises step_exn (run_foldx_stability base max_retries retry_delay).
Proof.
  unfold run_foldx_stability. raises; unfold stability_one; raises;
    apply only_raises_stability_attempts.
Qed.

Lemma only_raises_subtract_fields pattern :
  only_raises step_exn (subtract_fields pattern).
Proof.
  unfold subtract_fields. raises.
  - unfold subtract_file. raises. unfold compare_files. raises.
    unfold compare_lines. raises.
  - unfold rank_results. raises. unfold group_row. raises.
Qed.

(** When [repair_pdb] returns, the file it names exists. *)
Lemma repair_pdb_returns_existing base w repaired_pdb w1 :
  repair_pdb base w = (Ret repaired_pdb, w1) ->
  is_Some (files w1 !! repaired_pdb).
Proof.
  unfold repair_pdb. cbn zeta. unfold bind at 1.
  rewrite run_foldx_command_run. cbn zeta.
  destruct (run_error (repair_cmd (base +:+ ".pdb")) (runs w) (files w));
    [discriminate |].
  destruct (foldx (repair_cmd (base +:+ ".pdb")) (runs w) (files w))
    as [result fs'].
  unfold bind, path_exists, raise, ret, console_log, emit. simpl.
  destruct (bool_decide (is_Some (fs' !! (base +:+ "_Repair.pdb")))) eqn:Ex;
    cbn [negb]; [| discriminate].
  apply bool_decide_eq_true in Ex.
  destruct (returncode result =? 0)%Z; cbn [negb];
    intros [= <- <-]; exact Ex.
Qed.

(** The [try] block raises no [SystemExit]: its own [sys.exit(1)] is
    guarded by a test that cannot fail after [repair_pdb] returned. *)
Lemma only_raises_pipeline base residues :
  only_raises step_exn (pipeline base residues).
Proof.
  intros w e w' E. unfold pipeline in E. unfold bind at 1 in E.
  destruct (repair_pdb base w) as [[repaired_pdb | e1] w1] eqn:Er.
  2:{ injection E as <- _. eapply only_raises_repair_pdb, Er. }
  apply repair_pdb_returns_existing in Er.
  unfold bind at 1 in E. unfold path_exists at 1 in E.
  rewrite bool_decide_true in E by exact Er. cbn [negb] in E.
  revert E. generalize w1 e w'.
  change (only_raises step_exn
            (ret tt ;;
             make_mutation_list residues ;;
             run_mutations repaired_pdb ;;
             run_foldx_stability base default_max_retries default_retry_delay ;;
             subtract_fields base)).
  raises.
  - apply only_raises_make_mutation_list.
  - apply only_raises_run_mutations.
  - apply only_raises_run_foldx_stability.
  - apply only_raises_subtract_fields.
Qed.

Lemma step_exn_ordinary e : step_exn e -> ordinary e.
Proof.
  intros [(msg & [-> | ->]) | (cmd & k & fs & Herr)]; try reflexivity.
  eapply run_error_Exception, Herr.
Qed.

(** What the handler of [main] does with a failure of the [try] block. *)
Lemma guarded_pipeline_failure base residues w e0 w1 :
  pipeline base residues w = (Raise e0, w1) ->
  guarded_pipeline base residues w
  = (Raise (SystemExit 1),
     World (files w1) (runs w1)
       (trace w1 ++ [ConsolePrint ("[red]Critical error: " +:+ exn_message e0
                                   +:+ "[/red]")])).
Proof.
  intros Ep. unfold guarded_pipeline, try_except. rewrite Ep.
  rewrite (step_exn_ordinary _ (only_raises_pipeline base residues w e0 w1 Ep)).
  unfold console_print, sys_exit, raise.
  rewrite (bind_Ret _ _ _ _ _ (emit_run _ w1)). reflexivity.
Qed.

Lemma only_raises_guarded_pipeline base residues :
  only_raises (eq (SystemExit 1)) (guarded_pipeline base residues).
Proof.
  intros w e w' E.
  destruct (pipeline base residues w) as [[[] | e1] w1] eqn:Ep.
  - unfold guarded_pipeline, try_except in E. rewrite Ep in E. discriminate.
  - rewrite (guarded_pipeline_failure _ _ _ _ _ Ep) in E. now injection E.
Qed.



End Raising.


(** A residue with a wild type outside the alphabet gives 20 lines: the
    generator raises [ValueError] and the run ends with its message. *)
Example critical_error_of_the_generator :
  let P := Demo.platform (Demo.tool_exit 0) in
  let w := Demo.world_of [("x.pdb", "atoms"); ("x_Repair.pdb", "repaired")] in
  List.last (trace (snd (@guarded_pipeline P "x" [Residue "A" "214" "B"] w)))
            (Print "")
  = ConsolePrint "[red]Critical error: Number of mutations (20) is not correct.[/red]".
Proof. vm_compute. reflexivity. Qed.

(** ** The outcome of the repair step *)

Section RepairOutcome.
Context `{Platform}.

(** X5: [repair_pdb] tries the repair command once.  When [subprocess.run]
    raises, because the tool cannot be run, that exception leaves
    [repair_pdb] and nothing else is done.  When the command has run,
    [repair_pdb] looks only at the repaired file: it raises
    [FileNotFoundError] exactly when [{base}_Repair.pdb] does not exist
    after the command, even if the command exited with status 0; otherwise
    it returns that file name after one log line, green for status 0 and
    red for any other status. *)
Theorem repair_pdb_outcome base_pdb_name w :
  let pdb_file := base_pdb_name +:+ ".pdb" in
  let repaired_file := base_pdb_name +:+ "_Repair.pdb" in
  let outcome := foldx (repair_cmd pdb_file) (runs w) (files w) in
  let error := run_error (repair_cmd pdb_file) (runs w) (files w) in
  let rc := returncode (fst outcome) in
  let w1 := World (snd outcome) (S (runs w))
              (trace w ++ [Exec (repair_cmd pdb_file) rc]) in
  ((exists e, fst (repair_pdb base_pdb_name w) = Raise e)
   <-> error <> None \/ snd outcome !! repaired_file = None)
  /\ (forall e, error = Some e ->
      repair_pdb base_pdb_name w
      = (Raise e, World (snd outcome) (S (runs w))
                        (trace w ++ [ExecRaised (repair_cmd pdb_file) e])))
  /\ (error = None -> snd outcome !! repaired_file = None ->
      repair_pdb base_pdb_name w
      = (Raise (FileNotFoundError "Repaired PDB not generated"), w1))
  /\ (error = None -> is_Some (snd outcome !! repaired_file) ->
      repair_pdb base_pdb_name w
      = (Ret repaired_file,
         World (files w1) (runs w1)
           (trace w1
            ++ [ConsoleLog
                  (if (rc =? 0)%Z
                   then "[green]Repaired PDB: " +:+ repaired_file +:+ "[/green]"
                   else "[red]RepairPDB failed for " +:+ pdb_file +:+ "[/red]")]))).
Proof.
  intros pdb_file repaired_file outcome error rc w1.
  assert (forall e, error = Some e ->
          repair_pdb base_pdb_name w
          = (Raise e, World (snd outcome) (S (runs w))
                            (trace w ++ [ExecRaised (repair_cmd pdb_file) e])))
    as Hraised.
  { intros e He. unfold repair_pdb. fold pdb_file. unfold bind at 1.
    rewrite run_foldx_command_run. fold error. now rewrite He. }
  assert (error = None ->
          run_foldx_command (repair_cmd pdb_file) w = (Ret (fst outcome), w1))
    as Erun.
  { intros He. rewrite run_foldx_command_run. fold error. now rewrite He. }
  assert (error = None -> snd outcome !! repaired_file = None ->
          repair_pdb base_pdb_name w
          = (Raise (FileNotFoundError "Repaired PDB not generated"), w1))
    as Hmissing.
  { intros He Hnone. unfold repair_pdb. fold pdb_file.
    rewrite (bind_Ret _ _ _ _ _ (Erun He)). cbn zeta. fold repaired_file.
    unfold bind, path_exists, raise. subst w1. simpl. rewrite Hnone.
    rewrite bool_decide_false by (intros [? ?]; discriminate).
    reflexivity. }
  assert (error = None -> is_Some (snd outcome !! repaired_file) ->
          repair_pdb base_pdb_name w
          = (Ret repaired_file,
             World (files w1) (runs w1)
               (trace w1
                ++ [ConsoleLog
                      (if (rc =? 0)%Z
                       then "[green]Repaired PDB: " +:+ repaired_file +:+ "[/green]"
                       else "[red]RepairPDB failed for " +:+ pdb_file +:+ "[/red]")])))
    as Hfound.
  { intros He Hsome. unfold repair_pdb. fold pdb_file.
    rewrite (bind_Ret _ _ _ _ _ (Erun He)). cbn zeta. fold repaired_file.
    fold rc.
    unfold bind, path_exists, raise, ret, console_log, emit.
    subst w1. simpl. rewrite bool_decide_true by exact Hsome.
    cbn [negb]. destruct (rc =? 0)%Z; reflexivity. }
  split; [| split; [| split]]; try assumption.
  destruct error as [e |] eqn:He.
  - rewrite (Hraised e eq_refl). cbn [fst].
    split; [intros _; left; discriminate | eauto].
  - specialize (Hmissing eq_refl). specialize (Hfound eq_refl). split.
    + intros [e Hr]. right.
      destruct (snd outcome !! repaired_file) as [content |] eqn:E;
        [| reflexivity].
      rewrite Hfound in Hr by eauto. discriminate.
    + intros [Hbad | Hnone]; [contradiction |].
      rewrite (Hmissing Hnone). eauto.
Qed.

End RepairOutcome.

(** ** The pauses of the stability runner *)

Section Pauses.
Context `{Platform}.

(** X6: the runner pauses one time less than it runs the tool for a file: a
    file that took [k] attempts accounts for [k - 1] pauses, each of
    [retry_delay] seconds, and a file that succeeded at once for none.
    There is no other pause in a run that returns, and the runner returns
    whenever [subprocess.run] can run the command.  When [subprocess.run]
    raises after [k] failed attempts for a file, each of these was followed
    by a pause. *)
Theorem stability_runner_pauses_between_attempts
    base_pdb_name max_retries retry_delay w :
  let matching := glob (base_pdb_name +:+ "_Repair*.pdb") (files w) in
  let pauses := fun rcs : list Z => repeat retry_delay (length rcs - 1) in
  exists outcome w' evs attempts,
    run_foldx_stability base_pdb_name max_retries retry_delay w
    = (outcome, w')
    /\ trace w' = (trace w ++ evs)%list
    /\ execs evs
       = flat_map (fun '(f, rcs) => map (pair (stability_cmd f)) rcs)
                  (combine matching attempts)
    /\ match outcome with
       | Ret _ =>
           length attempts = length matching
           /\ sleeps evs = flat_map pauses attempts
       | Raise e =>
           exists finished last,
             attempts = (finished ++ [last])%list
             /\ sleeps evs
                = (flat_map pauses finished
                   ++ repeat retry_delay (length last))%list
             /\ exists f k fs,
                  In f matching /\ run_error (stability_cmd f) k fs = Some e
       end
    /\ ((forall f k fs, In f matching ->
                        run_error (stability_cmd f) k fs = None) ->
        exists result, outcome = Ret result).
Proof.
  intros matching pauses.
  destruct matching as [| f0 rest] eqn:Em.
  - unfold run_foldx_stability, glob_glob. unfold bind at 1.
    fold matching. rewrite Em.
    unfold console_print. rewrite (bind_Ret _ _ _ _ _ (emit_run _ w)).
    eexists (Ret None), _, [_], []. repeat split; eauto.
  - assert (matching <> []) as Hne by (rewrite Em; discriminate).
    destruct (run_foldx_stability_run base_pdb_name max_retries retry_delay
                w Hne)
      as (outcome & w1 & evs & attempts & _ & Ht & Hx & Hout).
    fold matching in Hx, Hout. rewrite <- Em.
    destruct outcome as [error_files | e].
    + destruct Hout as (Erun & Hlen & _ & Hsl). cbn zeta in Erun.
      eexists (Ret _), _, (evs ++ _)%list, attempts.
      split; [exact Erun |]. simpl trace. rewrite Ht, <- app_assoc.
      split; [reflexivity |].
      split; [| split; [split; [exact Hlen |] | eauto]].
      * rewrite execs_app, Hx.
        destruct (failed_files matching attempts) as [| bad bads];
          [apply app_nil_r |].
        change (execs (ConsolePrint _ :: ?l)) with (execs l).
        rewrite (execs_console_print (fun f => "[red]" +:+ f +:+ "[/red]")).
        apply app_nil_r.
      * rewrite sleeps_app, Hsl.
        destruct (failed_files matching attempts) as [| bad bads];
          [apply app_nil_r |].
        change (sleeps (ConsolePrint _ :: ?l)) with (sleeps l).
        rewrite (sleeps_console_print (fun f => "[red]" +:+ f +:+ "[/red]")).
        apply app_nil_r.
    + destruct Hout as (Erun & finished & last & -> & _ & _ & _ & Hsl
                        & f & k & fs & Hin & Herr).
      exists (Raise e), w1, evs, (finished ++ [last])%list.
      split; [exact Erun |]. split; [exact Ht |]. split; [exact Hx |].
      split; [exists finished, last; eauto 10 |].
      intros Hstart. rewrite (Hstart f k fs Hin) in Herr. discriminate.
Qed.

End Pauses.

Example stability_runner_pauses_flaky_tool :
  let P := Demo.platform (Demo.tool_flaky 2) in
  let w := Demo.world_of [("x_Repair.pdb", "r"); ("x_Repair_EA214C.pdb", "m")] in
  sleeps (trace (snd (@run_foldx_stability P "x" 3 5 w))) = [5; 5].
Proof. vm_compute. reflexivity. Qed.

(** ** What renaming does to the files *)

Section RenamedFiles.
Context `{Platform}.

Lemma append_cancel_r a b suffix : a +:+ suffix = b +:+ suffix -> a = b.
Proof.
  intros E. apply (f_equal rev) in E. rewrite !rev_app in E.
  apply String.app_inj in E. apply (f_equal rev) in E.
  now rewrite !rev_involutive in E.
Qed.

Lemma new_name_inj base code code' :
  base +:+ "_" +:+ code +:+ ".pdb" = base +:+ "_" +:+ code' +:+ ".pdb" ->
  code = code'.
Proof.
  intros E. apply String.app_inj in E. apply String.app_inj in E.
  now apply append_cancel_r in E.
Qed.

(** A sequence of renamings whose sources exist and are pairwise distinct,
    and whose targets are new and pairwise distinct, moves every content to
    its target and touches nothing else. *)
Lemma rename_all_lookup moves (fs : gmap string string) :
  List.NoDup (map fst moves) ->
  List.NoDup (map snd moves) ->
  (forall s, In s (map fst moves) -> is_Some (fs !! s)) ->
  (forall t, In t (map snd moves) -> fs !! t = None) ->
  (forall s t, In (s, t) moves ->
               fold_left rename_in moves fs !! t = fs !! s
               /\ fold_left rename_in moves fs !! s = None)
  /\ (forall k, ~ In k (map fst moves) -> ~ In k (map snd moves) ->
                fold_left rename_in moves fs !! k = fs !! k).
Proof.
  revert fs. induction moves as [| [s0 t0] moves IH]; intros fs Hs Ht Hex Hnew.
  - split; [intros s t [] | reflexivity].
  - cbn [map fst snd] in *.
    apply List.NoDup_cons_iff in Hs as [Hs0 Hs].
    apply List.NoDup_cons_iff in Ht as [Ht0 Ht].
    destruct (Hex s0 (or_introl eq_refl)) as [c Hc].
    assert (s0 <> t0) as Hst.
    { intros ->. rewrite (Hnew t0 (or_introl eq_refl)) in Hc. discriminate. }
    cbn [fold_left]. unfold rename_in at 2 4 6. cbn [fst snd]. rewrite Hc.
    set (fs1 := <[t0 := c]> (delete s0 fs)).
    assert (forall k, k <> s0 -> k <> t0 -> fs1 !! k = fs !! k) as Hother.
    { intros k Hks Hkt. unfold fs1.
      rewrite lookup_insert_ne by congruence.
      now rewrite lookup_delete_ne by congruence. }
    assert (forall s, In s (map fst moves) -> s <> s0 /\ s <> t0) as Hsrc.
    { intros s Hin. split; [intros ->; contradiction |].
      intros ->. destruct (Hex t0 (or_intror Hin)) as [x Hx].
      rewrite (Hnew t0 (or_introl eq_refl)) in Hx. discriminate. }
    assert (forall t, In t (map snd moves) -> t <> s0 /\ t <> t0) as Htgt.
    { intros t Hin. split; [| intros ->; contradiction].
      intros ->. rewrite (Hnew s0 (or_intror Hin)) in Hc. discriminate. }
    destruct (IH fs1 Hs Ht) as [IHmoved IHother].
    { intros s Hin. destruct (Hsrc s Hin). rewrite Hother by assumption.
      apply Hex. now right. }
    { intros t Hin. destruct (Htgt t Hin). rewrite Hother by assumption.
      apply Hnew. now right. }
    split.
    + intros s t [[= <- <-] | Hin].
      * rewrite !IHother.
        -- unfold fs1. rewrite lookup_insert_eq.
           rewrite lookup_insert_ne by congruence.
           now rewrite lookup_delete_eq.
        -- exact Hs0.
        -- intros Hin. destruct (Htgt _ Hin). congruence.
        -- intros Hin. destruct (Hsrc _ Hin). congruence.
        -- exact Ht0.
      * destruct (IHmoved s t Hin) as [E1 E2]. rewrite E1, E2.
        destruct (Hsrc s) as [? ?]; [apply in_map_iff; now exists (s, t) |].
        split; [now apply Hother | reflexivity].
    + intros k Hk1 Hk2. cbn [In] in Hk1, Hk2.
      rewrite IHother by tauto. apply Hother; intros ->; tauto.
Qed.

(** With as many files as codes, the renamer performs all the renamings. *)
Lemma rename_pdb_files_equal_counts repaired_pdb mutation_names w :
  let base := splitext_root repaired_pdb in
  let pdb_files := sorted Z.ltb file_key (glob (base +:+ "_*.pdb") (files w)) in
  let moves := map (fun '(f, code) => (f, base +:+ "_" +:+ code +:+ ".pdb"))
                   (combine pdb_files mutation_names) in
  length pdb_files = length mutation_names ->
  rename_pdb_files repaired_pdb mutation_names w
  = (Ret tt, World (fold_left rename_in moves (files w)) (runs w)
                   (trace w ++ flat_map rename_events moves)).
Proof.
  intros base pdb_files moves Hlen.
  pose proof (sorted_perm Z.ltb file_key (glob (base +:+ "_*.pdb") (files w)))
    as Hperm. fold pdb_files in Hperm.
  unfold rename_pdb_files, bind at 1, glob_glob.
  fold base. fold pdb_files.
  rewrite (proj2 (Nat.eqb_eq _ _) Hlen). cbn [negb].
  rewrite (rename_loop (fun code => base +:+ "_" +:+ code +:+ ".pdb")).
  - reflexivity.
  - rewrite map_fst_combine by exact Hlen.
    eapply Permutation.Permutation_NoDup; [symmetry; exact Hperm |].
    apply glob_NoDup.
  - intros f Hf. rewrite map_fst_combine in Hf by exact Hlen.
    eapply glob_exists, Permutation_in; eassumption.
Qed.


End RenamedFiles.


(** ** The model building step *)

Section ModelBuilding.
Context `{Platform}.

(** Reading a list written by the generator. *)
Lemma get_mutation_names_written path residues w :
  files w !! path = Some (join_lines (mutation_lines residues)) ->
  Forall (fun r => plain_residue r = true) residues ->
  get_mutation_names path w = (Ret (mutation_codes residues), w).
Proof.
  intros Hfile Hplain.
  unfold get_mutation_names, bind, open_read, ret. rewrite Hfile.
  f_equal. f_equal. rewrite mutation_lines_of_codes.
  pose proof (mutation_codes_plain residues Hplain) as Hcodes.
  set (codes := mutation_codes residues) in *. clearbody codes.
  replace (map (fun code => (code +:+ ";") +:+ nl) codes)
    with (map (fun body => body +:+ nl) (map (fun code => code +:+ ";") codes))
    by (rewrite map_map; reflexivity).
  rewrite read_lines_join_lines.
  - rewrite !map_map.
    induction Hcodes as [| code codes (Hs & Hn & _) _ IH]; [reflexivity |].
    cbn [map List.filter]. rewrite Hs, Hn, IH. reflexivity.
  - apply List.Forall_map. eapply List.Forall_impl; [| exact Hcodes].
    intros code (_ & _ & Hlb). exact Hlb.
Qed.


End ModelBuilding.


(** ** The mutation code of a result file *)

Section CodeOfFile.

Lemma span_spec p s a b :
  span p s = (a, b) ->
  s = a +:+ b
  /\ string_forall p a = true
  /\ match b with
     | String c _ => p c = false
     | "" => True
     end.
Proof.
  revert a b. induction s as [| c s IH]; intros a b E; cbn [span] in E.
  - injection E as <- <-. auto.
  - destruct (p c) eqn:Ec.
    + destruct (span p s) as [a' b'] eqn:Es. injection E as <- <-.
      destruct (IH a' b' eq_refl) as (-> & Ha & Hb).
      rewrite append_cons. cbn [string_forall]. rewrite Ec, Ha. auto.
    + injection E as <- <-. cbn [string_forall]. rewrite Ec. auto.
Qed.

Lemma int_of_digits_acc_bound acc s :
  string_forall is_digit s = true ->
  (int_of_digits_acc acc s < (acc + 1) * 10 ^ N.of_nat (String.length s))%N.
Proof.
  revert acc. induction s as [| c s IH]; intros acc Hs.
  - cbn. lia.
  - cbn [string_forall] in Hs. apply andb_true_iff in Hs as [Hc Hs].
    cbn [int_of_digits_acc String.length].
    specialize (IH (10 * acc + N.of_nat (nat_of_ascii c - 48))%N Hs).
    unfold is_digit in Hc. apply andb_true_iff in Hc as [H1 H2].
    apply Nat.leb_le in H1, H2.
    rewrite Nat2N.inj_succ, N.pow_succ_r by lia.
    assert (N.of_nat (nat_of_ascii c - 48) <= 9)%N by lia.
    remember (10 ^ N.of_nat (String.length s))%N as pw.
    remember (N.of_nat (nat_of_ascii c - 48)) as d.
    clear - IH H. nia.
Qed.

(** A match of the code pattern at the start of a text: its shape, and what
    the grouping pattern then makes of it. *)
Lemma match_code_here_spec s code :
  match_code_here s = Some code ->
  (exists post, s = code +:+ post)
  /\ exists n, position_of code = Some n /\ (n < 1000)%N.
Proof.
  unfold match_code_here.
  destruct s as [| a [| b rest]]; try discriminate.
  destruct (is_upper a && is_upper b) eqn:Eab; [| discriminate].
  destruct (span is_digit rest) as [digits after] eqn:Espan.
  destruct after as [| c tail]; [discriminate |].
  destruct (is_upper c && (1 <=? String.length digits)
            && (String.length digits <=? 3)) eqn:Ec; [| discriminate].
  intros [= <-].
  destruct (span_spec _ _ _ _ Espan) as (-> & Hdigits & _).
  apply andb_true_iff in Ec as [Ec Hmax].
  apply andb_true_iff in Ec as [Hc Hmin].
  split.
  - exists tail. rewrite !append_cons, append_assoc. reflexivity.
  - exists (int_of_digits digits). split.
    + unfold position_of. rewrite Eab.
      rewrite (span_run is_digit digits c "" Hdigits (upper_is_no_digit c Hc)).
      now rewrite Hc, Hmin, Hmax.
    + apply Nat.leb_le in Hmax.
      pose proof (int_of_digits_acc_bound 0 digits Hdigits) as Hb.
      unfold int_of_digits.
      assert (10 ^ N.of_nat (String.length digits) <= 10 ^ 3)%N
        by (apply N.pow_le_mono_r; lia).
      change (10 ^ 3)%N with 1000%N in *. lia.
Qed.

(** X9: the code that [subtract_fields] extracts from a file name is a part
    of that name, and it always has the shape the grouping step expects:
    its position is read as a number below 1000, so a row built from a file
    name never falls into the fallback group with its warning. *)
Theorem code_of_file_is_groupable file2 code :
  search_code file2 = Some code ->
  (exists before after, file2 = before +:+ code +:+ after)
  /\ exists n, position_of code = Some n /\ (n < 1000)%N.
Proof.
  induction file2 as [| c file2 IH]; cbn [search_code].
  - destruct (match_code_here "") eqn:E; [| discriminate].
    intros [= <-]. destruct (match_code_here_spec _ _ E) as [[post Hs] Hn].
    split; [exists "", post; exact Hs | exact Hn].
  - destruct (match_code_here (String c file2)) as [found |] eqn:E.
    + intros [= <-]. destruct (match_code_here_spec _ _ E) as [[post Hs] Hn].
      split; [exists "", post; exact Hs | exact Hn].
    + intros Hrest. destruct (IH Hrest) as [(before & after & ->) Hn].
      split; [| exact Hn].
      exists (String c before), after. now rewrite append_cons.
Qed.

Lemma code_of_file_is_groupable_witness :
  (exists before after,
      "x_Repair_EA214C_0_ST.fxout" = before +:+ "EA214C" +:+ after)
  /\ exists n, position_of "EA214C" = Some n /\ (n < 1000)%N.
Proof.
  apply (code_of_file_is_groupable "x_Repair_EA214C_0_ST.fxout" "EA214C").
  reflexivity.
Defined.

End CodeOfFile.

(** ** The mutation list in the delta step *)

Section Lookup.
Context `{Platform}.

Lemma lookup_is_identity (individual_lines : list string) code :
  default code
    (fold_left (fun m mut => <[mut := mut]> m) individual_lines
               (∅ : gmap string string) !! code)
  = code.
Proof.
  assert (forall (m : gmap string string),
            (forall k v, m !! k = Some v -> v = k) ->
            forall k v,
              fold_left (fun m mut => <[mut := mut]> m) individual_lines m !! k
              = Some v -> v = k) as Hinv.
  { induction individual_lines as [| l ls IH]; intros m Hm k v;
      cbn [fold_left]; [apply Hm |].
    apply IH. intros k' v'.
    destruct (decide (l = k')) as [-> | Hne].
    - rewrite lookup_insert_eq. now intros [= <-].
    - rewrite lookup_insert_ne by exact Hne. apply Hm. }
  destruct (fold_left _ individual_lines ∅ !! code) as [v |] eqn:E;
    [| reflexivity].
  cbn [default]. eapply Hinv; [| exact E].
  intros k v'. rewrite lookup_empty. discriminate.
Qed.

(** X10: the dictionary built from [individual_list.txt] maps every code to
    itself, so its content never changes a row: each mutant file is
    processed exactly as with an empty list, its rows labelled with the code
    found in the file name. *)
Theorem list_content_does_not_change_rows individual_lines file1 results file2 w :
  subtract_file (fold_left (fun m mut => <[mut := mut]> m) individual_lines ∅)
                file1 results file2 w
  = subtract_file ∅ file1 results file2 w.
Proof.
  unfold subtract_file.
  destruct (endswith file2 "Repair_0_ST.fxout"); [reflexivity |].
  destruct (search_code file2) as [code |]; [| reflexivity].
  rewrite lookup_is_identity, lookup_empty. reflexivity.
Qed.

End Lookup.

(** ** The ranking keeps every row *)

Section RankingKeepsRows.

(** All the rows of a dictionary of groups. *)
Lemma rows_of_groups_insert (groups : gmap N (list row)) k rows :
  Permutation (concat (map snd (map_to_list (<[k := rows]> groups))))
              (rows ++ concat (map snd (map_to_list (delete k groups)))).
Proof.
  rewrite <- insert_delete_eq.
  rewrite (map_to_list_insert (delete k groups) k rows)
    by apply lookup_delete_eq.
  reflexivity.
Qed.

Lemma rows_of_groups_split (groups : gmap N (list row)) k :
  Permutation (concat (map snd (map_to_list groups)))
              (default [] (groups !! k)
               ++ concat (map snd (map_to_list (delete k groups)))).
Proof.
  destruct (groups !! k) as [rows |] eqn:E; cbn [default].
  - rewrite <- (insert_delete_id groups k rows E) at 1.
    rewrite (map_to_list_insert (delete k groups) k rows)
      by apply lookup_delete_eq.
    reflexivity.
  - now rewrite (delete_id groups k E).
Qed.

Lemma rows_of_grouped results (groups : gmap N (list row)) :
  Permutation (concat (map snd (map_to_list (grouped results groups))))
              (concat (map snd (map_to_list groups)) ++ results).
Proof.
  unfold grouped. revert groups.
  induction results as [| r results IH]; intros groups; cbn [fold_left].
  - now rewrite app_nil_r.
  - rewrite IH. unfold add_to_group. rewrite rows_of_groups_insert.
    rewrite (rows_of_groups_split groups (group_key r)).
    rewrite <- !app_assoc. apply Permutation_app_head.
    cbn [app]. apply Permutation_middle.
Qed.

Lemma Permutation_flat_map_pointwise {A B} (f g : A -> list B) l :
  (forall x, Permutation (f x) (g x)) ->
  Permutation (flat_map f l) (flat_map g l).
Proof.
  intros Hfg. induction l as [| x l IH]; cbn [flat_map]; [reflexivity |].
  now apply Permutation_app.
Qed.

(** X11: ranking loses and invents nothing: the ranked rows are the rows of
    [results], each as often as it occurs there, only in another order. *)
Theorem ranking_keeps_every_row results w :
  exists final_results w',
    rank_results results w = (Ret final_results, w')
    /\ Permutation final_results results
    /\ length final_results = length results.
Proof.
  unfold rank_results.
  destruct (group_loop results ∅ w) as (evs & E & _).
  rewrite (bind_Ret _ _ _ _ _ E). unfold ret.
  eexists _, _. split; [reflexivity |].
  assert (Permutation (rank_groups (grouped results ∅)) results) as Hperm.
  { unfold rank_groups.
    rewrite (Permutation_flat_map_pointwise _ snd).
    - rewrite flat_map_concat_map.
      rewrite (sorted_perm N.ltb fst (map_to_list (grouped results ∅))).
      rewrite rows_of_grouped. rewrite map_to_list_empty. reflexivity.
    - intros [num rows]. apply sorted_perm. }
  split; [exact Hperm | now apply Permutation_length].
Qed.

End RankingKeepsRows.

(** ** The key of a file name *)

Section FileKeyCharacterisation.

Lemma file_key_core r1 k :
  (0 <= k)%Z ->
  match r1 with
  | String "b" (String "d" (String "p" (String "." rest))) =>
      let '(digits_rev, before) := span is_digit rest in
      match digits_rev, before with
      | String _ _, String "_" _ => Z.of_N (int_of_digits (rev digits_rev))
      | _, _ => (-1)%Z
      end
  | _ => (-1)%Z
  end = k ->
  exists digits_rev before,
    r1 = "bdp." +:+ digits_rev +:+ String "_" before
    /\ digits_rev <> ""
    /\ string_forall is_digit digits_rev = true
    /\ k = Z.of_N (int_of_digits (rev digits_rev)).
Proof.
  intros Hk E.
  repeat match type of E with
         | context [match ?x with _ => _ end] =>
             destruct x eqn:?; try (exfalso; lia)
         end.
  subst.
  match goal with
  | Hspan : span is_digit _ = _ |- _ =>
      destruct (span_spec _ _ _ _ Hspan) as (-> & Hdigits & _)
  end.
  eexists _, _. split; [reflexivity |].
  split; [discriminate |]. split; [exact Hdigits | reflexivity].
Qed.

(** X12: the key of a file name is a number [k >= 0] exactly when the name
    ends with an underscore, one or more digits that spell [k], and [.pdb]
    (possibly followed by one line feed); every other name has the key -1
    and so sorts before all numbered files. *)
Theorem file_key_reads_the_numeric_suffix filename k :
  (0 <= k)%Z ->
  file_key filename = k
  <-> exists stem digits ending,
        filename = (stem +:+ "_") +:+ digits +:+ ".pdb" +:+ ending
        /\ digits <> ""
        /\ string_forall is_digit digits = true
        /\ (ending = "" \/ ending = nl)
        /\ k = Z.of_N (int_of_digits digits).
Proof.
  intros Hk. split.
  - intros E. unfold file_key in E. cbn zeta in E.
    assert (exists ending_rev r1,
              rev filename = ending_rev +:+ r1
              /\ (ending_rev = "" \/ ending_rev = nl)
              /\ match rev filename with
                 | "" => rev filename
                 | String c r' => if Ascii.eqb c LF then r' else rev filename
                 end = r1) as (ending_rev & r1 & Hrev & Hend & Hr1).
    { destruct (rev filename) as [| c r'] eqn:Er.
      - exists "", "". auto.
      - destruct (Ascii.eqb c LF) eqn:Ec.
        + apply Ascii.eqb_eq in Ec. subst c. exists nl, r'. auto.
        + exists "", (String c r'). auto. }
    rewrite Hr1 in E.
    destruct (file_key_core r1 k Hk E) as (dr & before & -> & Hne & Hd & ->).
    exists (rev before), (rev dr), (rev ending_rev).
    split; [| split; [| split; [| split]]].
    + rewrite <- (rev_involutive filename), Hrev.
      rewrite !rev_app. change (rev "bdp.") with ".pdb".
      change (String "_" before) with ("_" +:+ before).
      rewrite rev_app. change (rev "_") with "_".
      rewrite !append_assoc. reflexivity.
    + intros E0. apply (f_equal rev) in E0.
      rewrite rev_involutive in E0. contradiction.
    + now rewrite string_forall_rev.
    + destruct Hend as [-> | ->]; auto.
    + reflexivity.
  - intros (stem & digits & ending & -> & Hne & Hd & Hend & ->).
    destruct Hend as [-> | ->].
    + change (".pdb" +:+ "") with ".pdb". now apply file_key_numbered.
    + unfold file_key.
      assert (rev ((stem +:+ "_") +:+ digits +:+ ".pdb" +:+ nl)
              = String LF (String "b" (String "d" (String "p" (String "."
                  (rev digits +:+ String "_" (rev stem))))))) as ->.
      { rewrite !rev_app, !append_assoc. reflexivity. }
      change (Ascii.eqb LF LF) with true. cbn iota.
      rewrite span_run; [| now rewrite string_forall_rev | reflexivity].
      rewrite rev_involutive.
      destruct (rev digits) eqn:E; [| reflexivity].
      apply (f_equal rev) in E. rewrite rev_involutive in E. contradiction.
Qed.

Lemma file_key_reads_the_numeric_suffix_witness :
  file_key "base_Repair_12.pdb" = 12%Z
  <-> exists stem digits ending,
        "base_Repair_12.pdb" = (stem +:+ "_") +:+ digits +:+ ".pdb" +:+ ending
        /\ digits <> ""
        /\ string_forall is_digit digits = true
        /\ (ending = "" \/ ending = nl)
        /\ 12%Z = Z.of_N (int_of_digits digits).
Proof.
  apply (file_key_reads_the_numeric_suffix "base_Repair_12.pdb" 12). lia.
Defined.

End FileKeyCharacterisation.

(** ** Reading the mutation list *)

Section ReadingNames.

Lemma rstrip_by_last p s c :
  last_char (rstrip_by p s) = Some c -> p c = false.
Proof.
  induction s as [| x s IH]; cbn [rstrip_by]; [discriminate |].
  destruct (rstrip_by p s) as [| y r] eqn:E.
  - destruct (p x) eqn:Ex; [discriminate |].
    cbn [last_char]. now intros [= <-].
  - intros Hlast. apply IH. exact Hlast.
Qed.

Lemma rstrip_by_first p s c :
  first_char (rstrip_by p s) = Some c -> first_char s = Some c.
Proof.
  destruct s as [| x s]; cbn [rstrip_by]; [discriminate |].
  destruct (rstrip_by p s); [destruct (p x); [discriminate |] |]; auto.
Qed.

Lemma lstrip_by_first p s c :
  first_char (lstrip_by p s) = Some c -> p c = false.
Proof.
  induction s as [| x s IH]; cbn [lstrip_by]; [discriminate |].
  destruct (p x) eqn:Ex; [exact IH |].
  cbn [first_char]. now intros [= <-].
Qed.

(** X13: [get_mutation_names] raises [FileNotFoundError] when the list file
    does not exist and changes nothing in either case.  The names it returns
    are never empty, never start with whitespace and never end with a
    semicolon, and there is at most one per line of the file. *)
Theorem names_read_from_the_list_are_clean mutation_file w :
  match files w !! mutation_file with
  | None =>
      get_mutation_names mutation_file w = (Raise (no_such_file mutation_file), w)
  | Some content =>
      exists names,
        get_mutation_names mutation_file w = (Ret names, w)
        /\ length names <= length (read_lines content)
        /\ Forall (fun name =>
                     name <> ""
                     /\ (forall c, first_char name = Some c -> is_space c = false)
                     /\ last_char name <> Some ";"%char)
                  names
  end.
Proof.
  unfold get_mutation_names, bind, open_read, ret.
  destruct (files w !! mutation_file) as [content |]; [| reflexivity].
  eexists. split; [reflexivity |]. split.
  - rewrite <- (length_map (fun line => rstrip_semicolon (strip line))
                           (read_lines content)).
    apply List.filter_length_le.
  - apply List.Forall_forall. intros name Hname.
    apply filter_In in Hname as [Hin Hne].
    apply in_map_iff in Hin as (line & <- & _).
    split; [| split].
    + intros E0. rewrite E0 in Hne. discriminate.
    + intros c Hc. unfold rstrip_semicolon, strip in Hc.
      apply rstrip_by_first, rstrip_by_first, lstrip_by_first in Hc. exact Hc.
    + intros Hlast. unfold rstrip_semicolon in Hlast.
      apply rstrip_by_last in Hlast. discriminate.
Qed.

Example names_of_an_untidy_list :
  fst (get_mutation_names "list.txt"
         (Demo.world_of [("list.txt",
                          "  EA214C;;" +:+ nl +:+ nl +:+ ";" +:+ nl +:+ "RA7L ; " +:+ nl)]))
  = Ret ["EA214C"; "RA7L "].
Proof. reflexivity. Qed.

End ReadingNames.

(** ** The delta step without its inputs *)

Section DeltaInputs.
Context `{Platform}.

(** X14: [subtract_fields] looks for the mutant result files first.  When
    none matches it prints one line and returns: it reads no file, writes no
    table and raises nothing, even if the mutation list or the reference
    file is missing.  When some match but the mutation list is missing, it
    raises [FileNotFoundError] before anything else happens. *)
Theorem delta_step_without_inputs file_pattern w :
  let found := glob (file_pattern +:+ "_Repair_*_0_ST.fxout") (files w) in
  (found = [] ->
   subtract_fields file_pattern w
   = (Ret tt, World (files w) (runs w)
                    (trace w ++ [Print "No files found matching the pattern: []"])))
  /\ (found <> [] -> files w !! "individual_list.txt" = None ->
      subtract_fields file_pattern w
      = (Raise (no_such_file "individual_list.txt"), w)).
Proof.
  intros found.
  assert (glob_glob (file_pattern +:+ "_Repair_*_0_ST.fxout") w = (Ret found, w))
    as Eglob by reflexivity.
  unfold subtract_fields. cbn zeta. rewrite (bind_Ret _ _ _ _ _ Eglob).
  split.
  - intros ->. reflexivity.
  - intros Hne Hlist.
    pose proof (sorted_perm String.ltb (fun x => x) found) as Hperm.
    destruct (sorted String.ltb (fun x => x) found) as [| f fs] eqn:Es.
    + apply Permutation_nil in Hperm. contradiction.
    + assert (open_read "individual_list.txt" w
              = (Raise (no_such_file "individual_list.txt"), w)) as E
        by (unfold open_read; now rewrite Hlist).
      apply (bind_Raise _ _ _ _ _ E).
Qed.

End DeltaInputs.

Lemma delta_step_without_inputs_witness :
  let P := Demo.platform (Demo.tool_exit 0) in
  let w := Demo.world_of [("x_Repair_EA214C_0_ST.fxout", "x 1.0")] in
  @subtract_fields P "y" w
  = (Ret tt, World (files w) (runs w)
                   (trace w ++ [Print "No files found matching the pattern: []"]))
  /\ @subtract_fields P "x" w = (Raise (no_such_file "individual_list.txt"), w).
Proof.
  intros P w.
  destruct (@delta_step_without_inputs P "y" w) as [Hnone _].
  destruct (@delta_step_without_inputs P "x" w) as [_ Hlist].
  split.
  - apply Hnone. vm_compute. reflexivity.
  - apply Hlist; vm_compute; [discriminate | reflexivity].
Defined.

(** ** What the file-handling steps leave alone *)

Section Footprint.
Context `{Platform}.

Lemma touches_only_ret {A} allowed (a : A) : touches_only allowed (ret a).
Proof. intros w r w' [= <- <-]. auto. Qed.

Lemma touches_only_raise {A} allowed e : touches_only allowed (@raise A e).
Proof. intros w r w' [= <- <-]. auto. Qed.

Lemma touches_only_bind {A B} allowed (c : M A) (k : A -> M B) :
  touches_only allowed c -> (forall a, touches_only allowed (k a)) ->
  touches_only allowed (bind c k).
Proof.
  intros Hc Hk w r w' E. unfold bind in E.
  destruct (c w) as [[a | e] w1] eqn:Ec.
  - destruct (Hc _ _ _ Ec) as (R1 & X1 & F1).
    destruct (Hk a _ _ _ E) as (R2 & X2 & F2).
    split; [congruence |]. split; [congruence |].
    intros path Hp. rewrite F2, F1 by exact Hp. reflexivity.
  - injection E as <- <-. eapply Hc, Ec.
Qed.

Lemma touches_only_console_log allowed msg :
  touches_only allowed (console_log msg).
Proof.
  intros w r w' [= <- <-]. cbn. rewrite execs_app. cbn. now rewrite app_nil_r.
Qed.

Lemma touches_only_print allowed msg : touches_only allowed (print msg).
Proof.
  intros w r w' [= <- <-]. cbn. rewrite execs_app. cbn. now rewrite app_nil_r.
Qed.

Lemma touches_only_open_read allowed path :
  touches_only allowed (open_read path).
Proof.
  intros w r w' E. unfold open_read in E.
  destruct (files w !! path); injection E as <- <-; auto.
Qed.

Lemma touches_only_open_write (allowed : string -> Prop) path content :
  allowed path -> touches_only allowed (open_write path content).
Proof.
  intros Hpath w r w' [= <- <-]. cbn. repeat split.
  intros p Hp. apply lookup_insert_ne. intros ->. contradiction.
Qed.

Lemma touches_only_glob allowed pattern :
  touches_only allowed (glob_glob pattern).
Proof. intros w r w' [= <- <-]. auto. Qed.

Lemma touches_only_for_fold {A S} allowed (l : list A) (acc : S) body :
  (forall acc x, touches_only allowed (body acc x)) ->
  touches_only allowed (for_fold l acc body).
Proof.
  intros Hbody. revert acc. induction l as [| x l IH]; intros acc;
    cbn [for_fold].
  - apply touches_only_ret.
  - apply touches_only_bind; [apply Hbody | intros acc'; apply IH].
Qed.

Ltac footprint_step :=
  match goal with
  | |- touches_only _ (bind _ _) => apply touches_only_bind; [| intros ?]
  | |- touches_only _ (for_fold _ _ _) => apply touches_only_for_fold; intros ? ?
  | |- touches_only _ (ret _) => apply touches_only_ret
  | |- touches_only _ (raise _) => apply touches_only_raise
  | |- touches_only _ (console_log _) => apply touches_only_console_log
  | |- touches_only _ (print _) => apply touches_only_print
  | |- touches_only _ (open_read _) => apply touches_only_open_read
  | |- touches_only _ (glob_glob _) => apply touches_only_glob
  | |- touches_only _ (open_write _ _) =>
      apply touches_only_open_write; reflexivity
  | |- touches_only _ (if ?b then _ else _) => destruct b
  | |- touches_only _ (match ?x with _ => _ end) => destruct x
  end.

Ltac footprint := cbn zeta; repeat footprint_step.

(** X15: the steps that handle files never run the external tool, and each
    writes at most its own output: whether they return or raise,
    [make_mutation_list] changes no file but [individual_list.txt],
    [subtract_fields] changes no file but [ddgcalcoutput.txt], and
    [get_mutation_names] changes no file at all. *)
Theorem file_steps_write_only_their_output residues file_pattern mutation_file :
  touches_only (eq "individual_list.txt") (make_mutation_list residues)
  /\ touches_only (eq "ddgcalcoutput.txt") (subtract_fields file_pattern)
  /\ touches_only (fun _ => False) (get_mutation_names mutation_file).
Proof.
  split; [| split].
  - unfold make_mutation_list. footprint.
  - unfold subtract_fields. footprint.
    + unfold subtract_file. footprint. unfold compare_files. footprint.
      unfold compare_lines. footprint.
    + unfold rank_results. footprint. unfold group_row. footprint.
  - unfold get_mutation_names. footprint.
Qed.

End Footprint.

(** ** The rows of one mutant file *)

Section RowsOfFile.
Context `{Platform}.

(** X16: processing one mutant file never drops or changes the rows
    collected so far; the rows it appends all name that file as their
    source and carry the mutation code found in its name, at most one row
    per line of the shorter of the two files.  The reference file itself and
    files without a code in their name add nothing. *)
Theorem rows_of_a_file_carry_its_code individual_lines file1 results file2 w
    results' w' :
  subtract_file (fold_left (fun m mut => <[mut := mut]> m) individual_lines ∅)
                file1 results file2 w
  = (Ret results', w') ->
  exists rows,
    results' = (results ++ rows)%list
    /\ Forall (fun r => source r = file2
                        /\ search_code file2 = Some (mutation r)) rows
    /\ (endswith file2 "Repair_0_ST.fxout" = true \/ search_code file2 = None ->
        rows = [])
    /\ (forall content1 content2,
          files w !! file1 = Some content1 ->
          files w !! file2 = Some content2 ->
          length rows <= Nat.min (length (read_lines content1))
                                 (length (read_lines content2))).
Proof.
  unfold subtract_file.
  destruct (endswith file2 "Repair_0_ST.fxout") eqn:Eref.
  { intros [= <- <-]. exists []. rewrite app_nil_r. repeat split; auto.
    intros. cbn. lia. }
  destruct (search_code file2) as [code |] eqn:Ecode.
  2:{ unfold print. rewrite (bind_Ret _ _ _ _ _ (emit_run _ w)).
      intros [= <- <-]. exists []. rewrite app_nil_r. repeat split; auto.
      intros. cbn. lia. }
  rewrite lookup_is_identity. unfold compare_files, open_read.
  unfold bind at 1. unfold bind at 1.
  destruct (files w !! file1) as [content1 |] eqn:E1; [| discriminate].
  unfold bind at 1.
  destruct (files w !! file2) as [content2 |] eqn:E2; [| discriminate].
  destruct (compare_loop code file2
              (combine (read_lines content1) (read_lines content2)) results w)
    as (evs & Eloop & _).
  rewrite Eloop. unfold console_log.
  rewrite (bind_Ret _ _ _ _ _ (emit_run _ _)). intros [= <- <-].
  eexists. split; [reflexivity |]. split; [| split].
  - apply List.Forall_forall. intros r Hr.
    apply in_flat_map in Hr as ([l1 l2] & _ & Hr).
    destruct (spec_delta l1 l2); [| destruct Hr].
    destruct Hr as [<- | []]. auto.
  - intros [? | ?]; discriminate.
  - intros c1 c2 [= <-] [= <-].
    rewrite <- (length_combine (read_lines content1) (read_lines content2)).
    generalize (combine (read_lines content1) (read_lines content2)).
    induction l as [| [l1 l2] l IH]; cbn [flat_map length]; [lia |].
    rewrite length_app. destruct (spec_delta l1 l2); cbn [length]; lia.
Qed.

End RowsOfFile.

Lemma rows_of_a_file_carry_its_code_witness :
  let P := Demo.platform (Demo.tool_exit 0) in
  let w := Demo.world_of
             [("x_Repair_0_ST.fxout", "x 10.0" +:+ nl +:+ "y 12.0" +:+ nl);
              ("x_Repair_EA214C_0_ST.fxout", "x 11.5" +:+ nl +:+ "bad" +:+ nl)] in
  exists rows,
    [Row "EA214C" "x_Repair_EA214C_0_ST.fxout" (Finite (3 # 2))] = ([] ++ rows)%list
    /\ Forall (fun r => source r = "x_Repair_EA214C_0_ST.fxout"
                        /\ search_code "x_Repair_EA214C_0_ST.fxout"
                           = Some (mutation r)) rows.
Proof.
  intros P w.
  destruct (@rows_of_a_file_carry_its_code P ["EA214C"] "x_Repair_0_ST.fxout"
              [] "x_Repair_EA214C_0_ST.fxout" w
              [Row "EA214C" "x_Repair_EA214C_0_ST.fxout" (Finite (3 # 2))]
              (snd (@subtract_file P ∅ "x_Repair_0_ST.fxout" []
                      "x_Repair_EA214C_0_ST.fxout" w)))
    as (rows & Hrows & Hall & _).
  - vm_compute. reflexivity.
  - exists rows. auto.
Defined.

(** ** The report of the stability runner *)

Section StabilityReport.
Context `{Platform}.

(** X17: on a batch with at least one file, a runner that returns ends with
    its report: when no file failed, one green log line; otherwise a
    heading followed by one red line per failed file, in the order of the
    batch.  The failed files are exactly those none of whose attempts had
    exit status 0; a failed file does not stop the runner, which still
    makes the attempts of every later file.  The runner returns whenever
    [subprocess.run] can run the command; when [subprocess.run] raises,
    the runner stops there and prints no report. *)
Theorem stability_runner_reports_the_failed_files base_pdb_name max_retries
    retry_delay w :
  let matching := glob (base_pdb_name +:+ "_Repair*.pdb") (files w) in
  matching <> [] ->
  exists outcome w' evs attempts,
    let failed := failed_files matching attempts in
    run_foldx_stability base_pdb_name max_retries retry_delay w
    = (outcome, w')
    /\ execs evs
       = flat_map (fun '(f, rcs) => map (pair (stability_cmd f)) rcs)
                  (combine matching attempts)
    /\ match outcome with
       | Ret result =>
           result = Some (match failed with [] => true | _ => false end)
           /\ length attempts = length matching
           /\ trace w'
              = (trace w ++ evs
                 ++ match failed with
                    | [] => [ConsoleLog "[green]All stability calculations finished successfully[/green]"]
                    | _ =>
                        ConsolePrint "[red]The following files failed stability calculation after retries:[/red]"
                        :: map (fun f => ConsolePrint ("[red]" +:+ f +:+ "[/red]")) failed
                    end)%list
           /\ (forall f, In f failed ->
                 exists rcs, In (f, rcs) (combine matching attempts)
                             /\ ~ In 0%Z rcs)
           /\ (forall f rcs, In (f, rcs) (combine matching attempts) ->
                 ~ In 0%Z rcs -> In f failed)
       | Raise e =>
           trace w' = (trace w ++ evs)%list
           /\ exists f k fs,
                In f matching /\ run_error (stability_cmd f) k fs = Some e
       end
    /\ ((forall f k fs, In f matching ->
                        run_error (stability_cmd f) k fs = None) ->
        exists result, outcome = Ret result).
Proof.
  intros matching Hne.
  destruct (run_foldx_stability_run base_pdb_name max_retries retry_delay w Hne)
    as (outcome & w1 & evs & attempts & _ & Ht & Hx & Hout).
  fold matching in Hx, Hout.
  assert (forall f, In f (failed_files matching attempts) <->
            exists rcs, In (f, rcs) (combine matching attempts) /\ ~ In 0%Z rcs)
    as Hfailed.
  { intros f. unfold failed_files. rewrite in_map_iff. split.
    - intros ([f' rcs] & <- & Hin). apply filter_In in Hin as [Hin Hz].
      exists rcs. split; [exact Hin |]. intros H0.
      apply existsb_zero in H0. cbn in Hz. rewrite H0 in Hz. discriminate.
    - intros (rcs & Hin & Hz). exists (f, rcs). split; [reflexivity |].
      apply filter_In. split; [exact Hin |]. cbn.
      destruct (existsb (Z.eqb 0) rcs) eqn:Ez; [| reflexivity].
      apply existsb_zero in Ez. contradiction. }
  destruct outcome as [error_files | e].
  - destruct Hout as (Erun & Hlen & _ & _). cbn zeta in Erun.
    eexists (Ret _), _, evs, attempts. cbn zeta.
    split; [exact Erun |]. split; [exact Hx |].
    split; [| eauto].
    split; [reflexivity |]. split; [exact Hlen |].
    split; [simpl trace; rewrite Ht; now rewrite <- app_assoc |].
    split.
    + intros f Hf. now apply Hfailed.
    + intros f rcs Hin Hz. apply Hfailed. eauto.
  - destruct Hout as (Erun & _ & _ & _ & _ & _ & _ & _
                      & f & k & fs & Hin & Herr).
    exists (Raise e), w1, evs, attempts. cbn zeta.
    split; [exact Erun |]. split; [exact Hx |].
    split; [split; [exact Ht | eauto] |].
    intros Hstart. rewrite (Hstart f k fs Hin) in Herr. discriminate.
Qed.

End StabilityReport.

Lemma stability_runner_reports_the_failed_files_witness :
  let P := Demo.platform (Demo.tool_exit 1) in
  let w := Demo.world_of [("x_Repair.pdb", "r"); ("x_Repair_EA214C.pdb", "m")] in
  @glob P ("x" +:+ "_Repair*.pdb") (files w) <> []
  /\ exists attempts,
       fst (@run_foldx_stability P "x" 3 5 w)
       = Ret (Some (match failed_files
                            (@glob P ("x" +:+ "_Repair*.pdb") (files w)) attempts
                    with [] => true | _ => false end)).
Proof.
  intros P w.
  assert (@glob P ("x" +:+ "_Repair*.pdb") (files w) <> []) as Hne.
  { vm_compute. discriminate. }
  split; [exact Hne |].
  destruct (@stability_runner_reports_the_failed_files P "x" 3 5 w Hne)
    as (outcome & w' & evs & attempts & Hres & _ & Hout & Hreturns).
  exists attempts. cbn zeta in Hres. rewrite Hres. cbn [fst].
  destruct (Hreturns (fun _ _ _ _ => eq_refl)) as [result ->].
  now destruct Hout as (-> & _).
Defined.

(** With a tool that always fails both files are reported, in the order in
    which the batch lists them. *)
Example stability_runner_report_failing_tool :
  let P := Demo.platform (Demo.tool_exit 1) in
  let w := Demo.world_of [("x_Repair.pdb", "r"); ("x_Repair_EA214C.pdb", "m")] in
  @glob P "x_Repair*.pdb" (files w) = ["x_Repair_EA214C.pdb"; "x_Repair.pdb"]
  /\ List.rev (firstn 3 (List.rev (trace (snd (@run_foldx_stability P "x" 3 5 w)))))
     = [ConsolePrint "[red]The following files failed stability calculation after retries:[/red]";
        ConsolePrint "[red]x_Repair_EA214C.pdb[/red]";
        ConsolePrint "[red]x_Repair.pdb[/red]"].
Proof. split; vm_compute; reflexivity. Qed.
